(** * PPO agent of skrl: rollout-and-update control loop

    Shallow embedding of [skrl/agents/ppo/ppo.py].

    - Python numbers that the agent only counts with (timesteps, rollouts,
      epochs) are [Z]; the float hyperparameters and every tensor entry
      are idealised as real numbers ([R]); a tensor is the list of its
      entries, and the tensors of one sampled batch are taken position by
      position.
    - The collaborators the agent only calls (models, optimizers, rollout
      memory, metrics writer) are an interface, [Collaborators]: abstract
      state types and the functions the agent invokes on them.
    - A method is a computation in the monad [M]: it threads the mutable
      object it works on, may raise a Python exception (the mutations made
      before the raise stay), and records, in order, every call it makes to
      a collaborator. *)

From Stdlib Require Import Reals Lra Lia ZArith List.
From stdpp Require Import gmap strings pretty.

Local Open Scope Z_scope.

(** ** Tensors *)

Module torch.

Definition Tensor := list R.

Definition sub (a b : Tensor) : Tensor := zip_with Rminus a b.
Definition mul (a b : Tensor) : Tensor := zip_with Rmult a b.
Definition add (a b : Tensor) : Tensor := zip_with Rplus a b.
Definition sub_scalar (a : Tensor) (c : R) : Tensor := map (fun x => (x - c)%R) a.

Definition exp (a : Tensor) : Tensor := map Rtrigo_def.exp a.

(** [torch.clip(x, lo, hi)] is [min(max(x, lo), hi)] entry by entry; when
    [lo > hi] every entry becomes [hi]. *)
Definition clip1 (x lo hi : R) : R := Rmin (Rmax x lo) hi.
Definition clip (a : Tensor) (lo hi : R) : Tensor := map (fun x => clip1 x lo hi) a.

Definition min (a b : Tensor) : Tensor := zip_with Rmin a b.

Definition sum (a : Tensor) : R := fold_right Rplus 0%R a.
Definition mean (a : Tensor) : R := (sum a / INR (length a))%R.

(** [F.mse_loss(input, target)]: mean of the squared differences. *)
Definition mse_loss (input target : Tensor) : R :=
  mean (map (fun d => (d * d)%R) (sub input target)).

End torch.

Abbreviation Tensor := torch.Tensor.

(** ** Python values held by the configuration mapping, and exceptions

    [Unsupported] is not a Python exception: it marks a configuration whose
    values are not of the documented types, which the model does not
    cover (see [cfg_int]). *)

Inductive pyval :=
| PyInt (z : Z)
| PyFloat (r : R)
| PyBool (b : bool)
| PyStr (s : string)
| PyNone.

Inductive exn :=
| KeyError (msg : string)
| TypeError
| ValueError
| AttributeError
| ZeroDivisionError
| Unsupported.

Inductive outcome (A : Type) :=
| Return (a : A)
| Raise (e : exn).
Arguments Return {A} a.
Arguments Raise {A} e.


(** ** Values passed to the collaborators *)

Inductive role := the_policy | the_value.

Inductive dtype := float32 | bool_.

Inductive tensor_size (Space : Type) :=
| SizeSpace (s : Space)
| SizeInt (n : Z).
Arguments SizeSpace {Space} s.
Arguments SizeInt {Space} n.

(** Keyword arguments of [memory.add_samples] as [record_transition] passes
    them; [log_prob] is whatever the agent has cached, possibly [None]. *)
Record samples := {
  states : Tensor;
  actions : Tensor;
  rewards : Tensor;
  next_states : Tensor;
  dones : Tensor;
  log_prob : option Tensor;
  values : Tensor
}.

(** The [computing_hyperparameters] dictionary of [_update]. *)
Record computing_hyperparameters := {
  discount_factor : R;
  lambda_coefficient : R;
  normalize_returns : bool;
  normalize_advantages : bool
}.

(** ** The collaborators

    None of these is defined in the agent's file; the agent only calls
    them.  A model or the memory is an abstract state; a call returns its
    result together with the state after the call.  [backward] stands for
    the autodiff engine filling the gradients of the network a loss was
    computed from. *)
Class Collaborators := {
  Model : Type;
  Optimizer : Type;
  Memory : Type;
  Space : Type;
  RandomActions : Type;
  (* Model.act(states, taken_actions=None, inference=False) *)
  Model_act : Model -> option Tensor -> option Tensor -> bool ->
              Model * (Tensor * Tensor * Tensor);
  Model_random_act : Model -> Tensor -> Model * RandomActions;
  Model_get_entropy : Model -> Tensor;
  Adam : Model -> R -> Optimizer;
  Optimizer_zero_grad : Optimizer -> Model -> Model;
  backward : R -> Model -> Model;
  Optimizer_step : Optimizer -> Model -> Optimizer * Model;
  Memory_create_tensor : Memory -> string -> tensor_size Space -> dtype -> Memory;
  Memory_add_samples : Memory -> samples -> Memory;
  Memory_compute_functions :
    Memory -> string -> string -> Tensor -> computing_hyperparameters -> Memory;
  Memory_sample_all : Memory -> list string -> list Tensor
}.

Record Environment `{Collaborators} := {
  observation_space : Space;
  action_space : Space
}.

(** ** Calls observed from outside, in the order they are made *)

Inductive call `{Collaborators} :=
| Call_act (who : role) (states taken_actions : option Tensor) (inference : bool)
| Call_random_act (states : Tensor)
| Call_get_entropy
| Call_Adam (who : role) (lr : R)
| Call_zero_grad (who : role)
| Call_backward (who : role) (loss : R)
| Call_step (who : role)
| Call_create_tensor (name : string) (size : tensor_size Space) (dt : dtype)
| Call_add_samples (row : samples)
| Call_compute_functions (returns_dst advantages_dst : string)
    (last_values : Tensor) (hyperparameters : computing_hyperparameters)
| Call_sample_all (names : list string)
| Call_add_scalar (tag : string) (value : R) (step : Z)
| Call_print_early_stopping (epoch : Z) (kl kl_threshold : R)
| Call_super_init
| Call_super_record_transition.

(** ** The monad of methods *)

Section Monad.
Context `{Collaborators}.

Definition M (S A : Type) : Type := S -> outcome A * S * list call.

Definition ret {S A} (a : A) : M S A := fun s => (Return a, s, []).

Definition bind {S A B} (m : M S A) (k : A -> M S B) : M S B := fun s =>
  match m s with
  | (Return a, s1, c1) =>
      match k a s1 with (r, s2, c2) => (r, s2, c1 ++ c2) end
  | (Raise e, s1, c1) => (Raise e, s1, c1)
  end.

Definition raise {S A} (e : exn) : M S A := fun s => (Raise e, s, []).
Definition get {S} : M S S := fun s => (Return s, s, []).
Definition put {S} (s : S) : M S unit := fun _ => (Return tt, s, []).
Definition called {S} (c : call) : M S unit := fun s => (Return tt, s, [c]).

End Monad.

Declare Scope py_scope.
Delimit Scope py_scope with py.
Notation "x <- m ;; k" := (bind m (fun x => k))
  (at level 100, m at next level, k at level 200, right associativity) : py_scope.
Notation "m ;; k" := (bind m (fun _ => k))
  (at level 100, k at level 200, right associativity) : py_scope.
Local Open Scope py_scope.


(** ** Module-level state: the default configuration *)

Definition PPO_DEFAULT_CONFIG : gmap string pyval :=
  list_to_map [
    ("rollouts", PyInt 16);
    ("learning_epochs", PyInt 8);
    ("discount_factor", PyFloat (99 / 100));
    ("lambda", PyFloat (99 / 100));
    ("policy_learning_rate", PyFloat (1 / 1000));
    ("value_learning_rate", PyFloat (1 / 1000));
    ("random_timesteps", PyInt 1000);
    ("learning_starts", PyInt 1000);
    ("ratio_clip", PyFloat (2 / 10));
    ("value_clip", PyFloat (2 / 10));
    ("clip_predicted_values", PyBool false);
    ("entropy_loss_scale", PyFloat 0);
    ("value_loss_scale", PyFloat 1);
    ("kl_threshold", PyInt 0);
    ("device", PyNone)
  ].

(** Truth value of a Python object in an [if]. *)
Definition nonzero (r : R) : bool := if Req_dec_T r 0 then false else true.

Definition truthy (v : pyval) : bool :=
  match v with
  | PyInt z => negb (z =? 0)
  | PyFloat r => nonzero r
  | PyBool b => b
  | PyStr s => negb (String.eqb s "")
  | PyNone => false
  end.

Definition as_int (v : pyval) : option Z :=
  match v with
  | PyInt z => Some z
  | PyBool b => Some (Z.b2z b)
  | _ => None
  end.

Definition as_float (v : pyval) : option R :=
  match v with
  | PyFloat r => Some r
  | PyInt z => Some (IZR z)
  | PyBool b => Some (IZR (Z.b2z b))
  | _ => None
  end.

(** ** The agent *)

Section Agent.
Context `{Collaborators}.

(** The attributes bound from the configuration at construction. *)
Record configuration := {
  _learning_epochs : Z;
  _rollouts : Z;
  _ratio_clip : R;
  _value_clip : R;
  _clip_predicted_values : bool;
  _value_loss_scale : R;
  _entropy_loss_scale : R;
  _kl_threshold : R;
  _policy_learning_rate : R;
  _value_learning_rate : R;
  _discount_factor : R;
  _lambda : R;
  _random_timesteps : Z;
  _learning_starts : Z
}.

(** [self].  The networks, the optimizers and the memory are held by their
    current state; the policy and the value network are two objects. *)
Record PPO := {
  config :> configuration;
  policy : Model;
  value : Model;
  memory : option Memory;
  policy_optimizer : Optimizer;
  value_optimizer : Optimizer;
  tensors_names : list string;
  _rollout : Z;
  _current_log_prob : option Tensor;
  _current_next_states : option Tensor
}.

Definition set_policy (self : PPO) (m : Model) : PPO :=
  {| config := config self; policy := m; value := value self;
     memory := memory self; policy_optimizer := policy_optimizer self;
     value_optimizer := value_optimizer self; tensors_names := tensors_names self;
     _rollout := _rollout self; _current_log_prob := _current_log_prob self;
     _current_next_states := _current_next_states self |}.

Definition set_value (self : PPO) (m : Model) : PPO :=
  {| config := config self; policy := policy self; value := m;
     memory := memory self; policy_optimizer := policy_optimizer self;
     value_optimizer := value_optimizer self; tensors_names := tensors_names self;
     _rollout := _rollout self; _current_log_prob := _current_log_prob self;
     _current_next_states := _current_next_states self |}.

Definition set_memory (self : PPO) (m : option Memory) : PPO :=
  {| config := config self; policy := policy self; value := value self;
     memory := m; policy_optimizer := policy_optimizer self;
     value_optimizer := value_optimizer self; tensors_names := tensors_names self;
     _rollout := _rollout self; _current_log_prob := _current_log_prob self;
     _current_next_states := _current_next_states self |}.

Definition set_policy_optimizer (self : PPO) (o : Optimizer) : PPO :=
  {| config := config self; policy := policy self; value := value self;
     memory := memory self; policy_optimizer := o;
     value_optimizer := value_optimizer self; tensors_names := tensors_names self;
     _rollout := _rollout self; _current_log_prob := _current_log_prob self;
     _current_next_states := _current_next_states self |}.

Definition set_value_optimizer (self : PPO) (o : Optimizer) : PPO :=
  {| config := config self; policy := policy self; value := value self;
     memory := memory self; policy_optimizer := policy_optimizer self;
     value_optimizer := o; tensors_names := tensors_names self;
     _rollout := _rollout self; _current_log_prob := _current_log_prob self;
     _current_next_states := _current_next_states self |}.

Definition set_rollout (self : PPO) (n : Z) : PPO :=
  {| config := config self; policy := policy self; value := value self;
     memory := memory self; policy_optimizer := policy_optimizer self;
     value_optimizer := value_optimizer self; tensors_names := tensors_names self;
     _rollout := n; _current_log_prob := _current_log_prob self;
     _current_next_states := _current_next_states self |}.

Definition set_current_log_prob (self : PPO) (t : option Tensor) : PPO :=
  {| config := config self; policy := policy self; value := value self;
     memory := memory self; policy_optimizer := policy_optimizer self;
     value_optimizer := value_optimizer self; tensors_names := tensors_names self;
     _rollout := _rollout self; _current_log_prob := t;
     _current_next_states := _current_next_states self |}.

Definition set_current_next_states (self : PPO) (t : option Tensor) : PPO :=
  {| config := config self; policy := policy self; value := value self;
     memory := memory self; policy_optimizer := policy_optimizer self;
     value_optimizer := value_optimizer self; tensors_names := tensors_names self;
     _rollout := _rollout self; _current_log_prob := _current_log_prob self;
     _current_next_states := t |}.

(** *** Calls on the collaborators, from inside a method *)

Definition network (who : role) (self : PPO) : Model :=
  match who with the_policy => policy self | the_value => value self end.

Definition set_network (who : role) (self : PPO) (m : Model) : PPO :=
  match who with the_policy => set_policy self m | the_value => set_value self m end.

Definition optimizer (who : role) (self : PPO) : Optimizer :=
  match who with
  | the_policy => policy_optimizer self
  | the_value => value_optimizer self
  end.

Definition set_optimizer (who : role) (self : PPO) (o : Optimizer) : PPO :=
  match who with
  | the_policy => set_policy_optimizer self o
  | the_value => set_value_optimizer self o
  end.

(** [self.policy.act(...)] or [self.value.act(...)] *)
Definition model_act (who : role) (states taken_actions : option Tensor)
    (inference : bool) : M PPO (Tensor * Tensor * Tensor) := fun self =>
  let r := Model_act (network who self) states taken_actions inference in
  (Return r.2, set_network who self r.1,
   [Call_act who states taken_actions inference]).

Definition policy_random_act (states : Tensor) : M PPO RandomActions := fun self =>
  let r := Model_random_act (policy self) states in
  (Return r.2, set_policy self r.1, [Call_random_act states]).

Definition policy_get_entropy : M PPO Tensor := fun self =>
  (Return (Model_get_entropy (policy self)), self, [Call_get_entropy]).

Definition zero_grad (who : role) : M PPO unit := fun self =>
  (Return tt,
   set_network who self (Optimizer_zero_grad (optimizer who self) (network who self)),
   [Call_zero_grad who]).

Definition loss_backward (who : role) (loss : R) : M PPO unit := fun self =>
  (Return tt, set_network who self (backward loss (network who self)),
   [Call_backward who loss]).

Definition step (who : role) : M PPO unit := fun self =>
  let r := Optimizer_step (optimizer who self) (network who self) in
  (Return tt, set_network who (set_optimizer who self r.1) r.2, [Call_step who]).

Definition writer_add_scalar (tag : string) (v : R) (step : Z) : M PPO unit :=
  called (Call_add_scalar tag v step).

(** A call on [self.memory]; on [None] the attribute access fails. *)
Definition with_memory {A} (f : Memory -> Memory * A) (c : call) : M PPO A := fun self =>
  match memory self with
  | Some m => let r := f m in (Return r.2, set_memory self (Some r.1), [c])
  | None => (Raise AttributeError, self, [])
  end.

Definition get_self : M PPO PPO := get.

(** *** [act] *)

Inductive act_result :=
| Random_actions (r : RandomActions)
| Stochastic_actions (actions log_prob actions_mean : Tensor).

(** [timestep] defaults to [None]; [None < self._random_timesteps] is a
    [TypeError]. *)
Definition act (states : Tensor) (inference : bool) (timestep timesteps : option Z)
    : M PPO act_result :=
  self <- get_self ;;
  match timestep with
  | None => raise TypeError
  | Some t =>
      if t <? _random_timesteps self then
        r <- policy_random_act states ;;
        ret (Random_actions r)
      else
        out <- model_act the_policy (Some states) None inference ;;
        self <- get_self ;;
        put (set_current_log_prob self (Some out.1.2)) ;;
        ret (Stochastic_actions out.1.1 out.1.2 out.2)
  end.

(** *** [record_transition]

    The method of the base class, called first, is not part of this file;
    it is recorded as a call and taken not to touch what [PPO] reads. *)
Definition record_transition (states actions rewards next_states dones : Tensor)
    (timestep timesteps : Z) : M PPO unit :=
  called Call_super_record_transition ;;
  self <- get_self ;;
  put (set_current_next_states self (Some next_states)) ;;
  self <- get_self ;;
  match memory self with
  | Some _ =>
      out <- model_act the_value (Some states) None true ;;
      let row := {| states := states; actions := actions; rewards := rewards;
                    next_states := next_states; dones := dones;
                    log_prob := _current_log_prob self; values := out.1.1 |} in
      with_memory (fun m => (Memory_add_samples m row, tt)) (Call_add_samples row)
  | None => ret tt
  end.

Definition pre_interaction (timestep timesteps : Z) : M PPO unit := ret tt.

(** *** [_update] *)

(** The tensors [sample_all] is unpacked into (rewards and dones are
    dropped). *)
Record batch := {
  sampled_states : Tensor;
  sampled_actions : Tensor;
  sampled_log_prob : Tensor;
  sampled_values : Tensor;
  sampled_returns : Tensor;
  sampled_advantages : Tensor
}.

Definition unpack (l : list Tensor) : option batch :=
  match l with
  | [s; a; _; _; lp; v; r; adv] =>
      Some {| sampled_states := s; sampled_actions := a; sampled_log_prob := lp;
              sampled_values := v; sampled_returns := r; sampled_advantages := adv |}
  | _ => None
  end.

Record losses := {
  cumulative_policy_loss : R;
  cumulative_entropy_loss : R;
  cumulative_value_loss : R
}.

Inductive loop_exit := loop_break | loop_continue.

(** Lines 214-215. *)
Definition kl_divergence (next_log_prob sampled_log_prob : Tensor) : R :=
  let ratio := torch.sub next_log_prob sampled_log_prob in
  torch.mean (torch.sub (torch.sub_scalar (torch.exp ratio) 1) ratio).

(** Lines 228-232. *)
Definition policy_loss_of (ratio_clip : R) (next_log_prob : Tensor) (b : batch) : R :=
  let ratio := torch.exp (torch.sub next_log_prob (sampled_log_prob b)) in
  let surrogate := torch.mul (sampled_advantages b) ratio in
  let surrogate_clipped :=
    torch.mul (sampled_advantages b)
      (torch.clip ratio (1 - ratio_clip) (1 + ratio_clip)) in
  (- torch.mean (torch.min surrogate surrogate_clipped))%R.

(** Lines 241-243. *)
Definition value_loss_of (self : configuration) (predicted_values : Tensor) (b : batch) : R :=
  let predicted_values :=
    if _clip_predicted_values self then
      torch.add (sampled_values b)
        (torch.clip (torch.sub predicted_values (sampled_values b))
           (- _value_clip self) (_value_clip self))
    else predicted_values in
  (_value_loss_scale self * torch.mse_loss (sampled_returns b) predicted_values)%R.

(** One pass of the body of [for epoch in range(self._learning_epochs)]. *)
Definition learning_epoch (b : batch) (epoch : Z) (cum : losses)
    : M PPO (loop_exit * losses) :=
  out <- model_act the_policy (Some (sampled_states b)) (Some (sampled_actions b)) false ;;
  let next_log_prob := out.1.2 in
  self <- get_self ;;
  stop <- (if nonzero (_kl_threshold self) then
             let kl := kl_divergence next_log_prob (sampled_log_prob b) in
             if Rgt_dec kl (_kl_threshold self) then
               called (Call_print_early_stopping epoch kl (_kl_threshold self)) ;;
               ret true
             else ret false
           else ret false) ;;
  if stop : bool then ret (loop_break, cum) else
  entropy_loss <- (if nonzero (_entropy_loss_scale self) then
                     e <- policy_get_entropy ;;
                     ret (- _entropy_loss_scale self * torch.mean e)%R
                   else ret 0%R) ;;
  let policy_loss := policy_loss_of (_ratio_clip self) next_log_prob b in
  zero_grad the_policy ;;
  loss_backward the_policy (policy_loss + entropy_loss)%R ;;
  step the_policy ;;
  vout <- model_act the_value (Some (sampled_states b)) None false ;;
  let value_loss := value_loss_of self vout.1.1 b in
  zero_grad the_value ;;
  loss_backward the_value value_loss ;;
  step the_value ;;
  ret (loop_continue,
       {| cumulative_policy_loss := (cumulative_policy_loss cum + policy_loss)%R;
          cumulative_entropy_loss :=
            if nonzero (_entropy_loss_scale self)
            then (cumulative_entropy_loss cum + entropy_loss)%R
            else cumulative_entropy_loss cum;
          cumulative_value_loss := (cumulative_value_loss cum + value_loss)%R |}).

Fixpoint learning_epochs (b : batch) (epochs : list Z) (cum : losses) : M PPO losses :=
  match epochs with
  | [] => ret cum
  | epoch :: rest =>
      r <- learning_epoch b epoch cum ;;
      match r.1 with
      | loop_break => ret r.2
      | loop_continue => learning_epochs b rest r.2
      end
  end.

Definition range (n : Z) : list Z := map Z.of_nat (seq 0 (Z.to_nat n)).

Definition _update (timestep timesteps : Z) : M PPO unit :=
  self <- get_self ;;
  out <- model_act the_value (_current_next_states self) None true ;;
  let last_values := out.1.1 in
  let computing_hyperparameters :=
    {| discount_factor := _discount_factor self;
       lambda_coefficient := _lambda self;
       normalize_returns := false;
       normalize_advantages := true |} in
  with_memory
    (fun m => (Memory_compute_functions m "returns" "advantages" last_values
                 computing_hyperparameters, tt))
    (Call_compute_functions "returns" "advantages" last_values
       computing_hyperparameters) ;;
  sampled <- with_memory (fun m => (m, Memory_sample_all m (tensors_names self)))
               (Call_sample_all (tensors_names self)) ;;
  match unpack sampled with
  | None => raise ValueError
  | Some b =>
      cum <- learning_epochs b (range (_learning_epochs self))
               {| cumulative_policy_loss := 0; cumulative_entropy_loss := 0;
                  cumulative_value_loss := 0 |} ;;
      if _learning_epochs self =? 0 then raise ZeroDivisionError else
      let n := IZR (_learning_epochs self) in
      writer_add_scalar "Loss/policy" (cumulative_policy_loss cum / n) timestep ;;
      writer_add_scalar "Loss/value" (cumulative_value_loss cum / n) timestep ;;
      if nonzero (_entropy_loss_scale self) then
        writer_add_scalar "Loss/entropy" (cumulative_entropy_loss cum / n) timestep
      else ret tt
  end.

(** *** [post_interaction] *)

Definition post_interaction (timestep timesteps : Z) : M PPO unit :=
  self <- get_self ;;
  put (set_rollout self (_rollout self + 1)) ;;
  self <- get_self ;;
  if _rollouts self =? 0 then raise ZeroDivisionError else
  if (_rollout self mod _rollouts self =? 0) && (timestep >=? _learning_starts self)
  then _update timestep timesteps
  else ret tt.

(** *** [__init__]

    The state threaded here is the module-level mapping
    [PPO_DEFAULT_CONFIG].  The constructor of the base class is not part of
    this file; it is recorded as a call and taken to bind [networks],
    [memory], [env] and [cfg] to the attributes of the same names, so that
    [self.cfg] is the module-level mapping itself. *)

Definition cfg_lookup (k : string) : M (gmap string pyval) pyval :=
  d <- get ;;
  match d !! k with
  | Some v => ret v
  | None => raise (KeyError k)
  end.

(** A hyperparameter read at its documented type. *)
Definition cfg_int (k : string) : M (gmap string pyval) Z :=
  v <- cfg_lookup k ;;
  match as_int v with Some z => ret z | None => raise Unsupported end.

Definition cfg_float (k : string) : M (gmap string pyval) R :=
  v <- cfg_lookup k ;;
  match as_float v with Some r => ret r | None => raise Unsupported end.

Definition cfg_bool (k : string) : M (gmap string pyval) bool :=
  v <- cfg_lookup k ;; ret (truthy v).

Definition created_tensors (env : Environment) : list (string * tensor_size Space * dtype) :=
  [ ("states", SizeSpace (observation_space env), float32);
    ("actions", SizeSpace (action_space env), float32);
    ("rewards", SizeInt 1, float32);
    ("dones", SizeInt 1, bool_);
    ("log_prob", SizeInt 1, float32);
    ("values", SizeInt 1, float32);
    ("returns", SizeInt 1, float32);
    ("advantages", SizeInt 1, float32) ].

Definition create_tensors {S} (l : list (string * tensor_size Space * dtype))
    (memory : option Memory) : M S Memory :=
  match memory with
  | None => raise AttributeError
  | Some m => fun s =>
      (Return (foldl (fun m t => Memory_create_tensor m t.1.1 t.1.2 t.2) m l), s,
       map (fun t => Call_create_tensor t.1.1 t.1.2 t.2) l)
  end.

Definition policy_key_error : exn :=
  KeyError "Policy network not found in networks. Use 'policy' key to define the policy network".
Definition value_key_error : exn :=
  KeyError "Value-network not found in networks. Use 'value' key to define the Value-network".

Definition __init__ (env : Environment) (networks : gmap string Model)
    (memory : option Memory) (cfg : gmap string pyval) : M (gmap string pyval) PPO :=
  defaults <- get ;;
  put (cfg ∪ defaults) ;;
  called Call_super_init ;;
  match networks !! "policy" with
  | None => raise policy_key_error
  | Some policy =>
  match networks !! "value" with
  | None => raise value_key_error
  | Some value =>
      learning_epochs <- cfg_int "learning_epochs" ;;
      rollouts <- cfg_int "rollouts" ;;
      ratio_clip <- cfg_float "ratio_clip" ;;
      value_clip <- cfg_float "value_clip" ;;
      clip_predicted_values <- cfg_bool "clip_predicted_values" ;;
      value_loss_scale <- cfg_float "value_loss_scale" ;;
      entropy_loss_scale <- cfg_float "entropy_loss_scale" ;;
      kl_threshold <- cfg_float "kl_threshold" ;;
      policy_learning_rate <- cfg_float "policy_learning_rate" ;;
      value_learning_rate <- cfg_float "value_learning_rate" ;;
      discount_factor <- cfg_float "discount_factor" ;;
      lambda <- cfg_float "lambda" ;;
      random_timesteps <- cfg_int "random_timesteps" ;;
      learning_starts <- cfg_int "learning_starts" ;;
      called (Call_Adam the_policy policy_learning_rate) ;;
      called (Call_Adam the_value value_learning_rate) ;;
      m <- create_tensors (created_tensors env) memory ;;
      ret {| config :=
               {| _learning_epochs := learning_epochs;
                  _rollouts := rollouts;
                  _ratio_clip := ratio_clip;
                  _value_clip := value_clip;
                  _clip_predicted_values := clip_predicted_values;
                  _value_loss_scale := value_loss_scale;
                  _entropy_loss_scale := entropy_loss_scale;
                  _kl_threshold := kl_threshold;
                  _policy_learning_rate := policy_learning_rate;
                  _value_learning_rate := value_learning_rate;
                  _discount_factor := discount_factor;
                  _lambda := lambda;
                  _random_timesteps := random_timesteps;
                  _learning_starts := learning_starts |};
             policy := policy;
             value := value;
             memory := Some m;
             policy_optimizer := Adam policy policy_learning_rate;
             value_optimizer := Adam value value_learning_rate;
             tensors_names := ["states"; "actions"; "rewards"; "dones"; "log_prob";
                               "values"; "returns"; "advantages"];
             _rollout := 0;
             _current_log_prob := None;
             _current_next_states := None |}
  end end.

End Agent.

(** * What is observed of a run *)

Section Observations.
Context `{Collaborators}.

(** What a learning epoch leaves alone: everything but the two networks
    and their optimizers. *)
Definition same_but_networks (self self' : PPO) : Prop :=
  config self' = config self /\ memory self' = memory self /\
  tensors_names self' = tensors_names self /\ _rollout self' = _rollout self /\
  _current_log_prob self' = _current_log_prob self /\
  _current_next_states self' = _current_next_states self.

Definition next_log_prob_of (self : PPO) (b : batch) : Tensor :=
  (Model_act (policy self) (Some (sampled_states b)) (Some (sampled_actions b)) false).2.1.2.

Definition predicted_values_of (self : PPO) (b : batch) : Tensor :=
  (Model_act (value self) (Some (sampled_states b)) None false).2.1.1.

(** The epoch stops: the threshold is set and the divergence exceeds it. *)
Definition kl_stop (self : PPO) (b : batch) : Prop :=
  _kl_threshold self <> 0%R /\
  (kl_divergence (next_log_prob_of self b) (sampled_log_prob b) > _kl_threshold self)%R.

Definition entropy_loss_of (self : PPO) : R :=
  if nonzero (_entropy_loss_scale self)
  then (- _entropy_loss_scale self * torch.mean (Model_get_entropy (policy self)))%R
  else 0%R.

(** *** Observations on the calls of a run *)

Definition is_step (who : role) (c : call) : bool :=
  match c, who with
  | Call_step the_policy, the_policy => true
  | Call_step the_value, the_value => true
  | _, _ => false
  end.

Definition is_early_stop (c : call) : bool :=
  match c with Call_print_early_stopping _ _ _ => true | _ => false end.

Fixpoint count (p : call -> bool) (calls : list call) : nat :=
  match calls with
  | [] => 0
  | c :: calls => if p c then S (count p calls) else count p calls
  end.

(** Number of [optimizer.step()] calls on a network. *)
Definition optimizer_steps (who : role) (calls : list call) : nat :=
  count (is_step who) calls.

(** The losses [backward()] was called on, for one network, in order. *)
Fixpoint backward_losses (who : role) (calls : list call) : list R :=
  match calls with
  | [] => []
  | Call_backward w l :: calls =>
      match w, who with
      | the_policy, the_policy | the_value, the_value =>
          l :: backward_losses who calls
      | _, _ => backward_losses who calls
      end
  | _ :: calls => backward_losses who calls
  end.

(** *** [_update] as a whole *)

Definition bootstrap (self : PPO) : Model * (Tensor * Tensor * Tensor) :=
  Model_act (value self) (_current_next_states self) None true.

Definition hyperparameters_of (self : PPO) : computing_hyperparameters :=
  {| discount_factor := _discount_factor self;
     lambda_coefficient := _lambda self;
     normalize_returns := false;
     normalize_advantages := true |}.

Definition update_prefix (self : PPO) : list call :=
  [Call_act the_value (_current_next_states self) None true;
   Call_compute_functions "returns" "advantages" (bootstrap self).2.1.1
     (hyperparameters_of self);
   Call_sample_all (tensors_names self)].

Definition report (self : PPO) (cum : losses) (timestep : Z) : list call :=
  let n := IZR (_learning_epochs self) in
  [Call_add_scalar "Loss/policy" (cumulative_policy_loss cum / n) timestep;
   Call_add_scalar "Loss/value" (cumulative_value_loss cum / n) timestep] ++
  (if nonzero (_entropy_loss_scale self)
   then [Call_add_scalar "Loss/entropy" (cumulative_entropy_loss cum / n) timestep]
   else []).

Definition zero_losses : losses :=
  {| cumulative_policy_loss := 0; cumulative_entropy_loss := 0;
     cumulative_value_loss := 0 |}.

(** The agent and the batch the epochs start from. *)
Definition before_epochs (self : PPO) (m : Memory) : PPO :=
  set_memory (set_value self (bootstrap self).1)
    (Some (Memory_compute_functions m "returns" "advantages" (bootstrap self).2.1.1
             (hyperparameters_of self))).

Definition sampled_by (self : PPO) (m : Memory) : list Tensor :=
  Memory_sample_all
    (Memory_compute_functions m "returns" "advantages" (bootstrap self).2.1.1
       (hyperparameters_of self))
    (tensors_names self).

(** What [_update] leaves alone. *)
Definition same_scratch (self self' : PPO) : Prop :=
  config self' = config self /\ tensors_names self' = tensors_names self /\
  _rollout self' = _rollout self /\
  _current_log_prob self' = _current_log_prob self /\
  _current_next_states self' = _current_next_states self.

(** *** Reading the configuration *)

Definition read_int (d : gmap string pyval) (k : string) : option Z := d !! k ≫= as_int.
Definition read_float (d : gmap string pyval) (k : string) : option R := d !! k ≫= as_float.
Definition read_bool (d : gmap string pyval) (k : string) : option bool := truthy <$> d !! k.

(** *** The losses, as the specification writes them *)

(** The mean: the entries added up, over their number.  Written out here
    on its own, so that [torch.mean] is checked against it. *)
Fixpoint total (xs : list R) : R :=
  match xs with
  | [] => 0%R
  | x :: xs => (x + total xs)%R
  end.

Definition average (xs : list R) : R := (total xs / INR (length xs))%R.



(** [min(advantage * ratio, advantage * clip(ratio, 1 - eps, 1 + eps))] *)
Definition surrogate_term (eps advantage ratio : R) : R :=
  Rmin (advantage * ratio) (advantage * torch.clip1 ratio (1 - eps) (1 + eps)).

Fixpoint surrogate_terms (eps : R) (advantages next_log_prob sampled_log_prob : Tensor)
    : Tensor :=
  match advantages, next_log_prob, sampled_log_prob with
  | a :: advantages, n :: next_log_prob, s :: sampled_log_prob =>
      surrogate_term eps a (exp (n - s)) ::
      surrogate_terms eps advantages next_log_prob sampled_log_prob
  | _, _, _ => []
  end.

Definition clipped_surrogate_loss (eps : R) (next_log_prob : Tensor) (b : batch) : R :=
  (- average (surrogate_terms eps (sampled_advantages b) next_log_prob
                (sampled_log_prob b)))%R.

(** The prediction kept within [value_clip] of the sampled value. *)
Definition clipped_prediction (value_clip sampled predicted : R) : R :=
  (sampled + torch.clip1 (predicted - sampled) (- value_clip) value_clip)%R.

Definition mean_squared_error (returns predictions : Tensor) : R :=
  average (zip_with (fun r p => ((r - p) * (r - p))%R) returns predictions).

Definition scaled_value_loss (self : configuration) (predicted : Tensor) (b : batch) : R :=
  (_value_loss_scale self *
   mean_squared_error (sampled_returns b)
     (if _clip_predicted_values self
      then zip_with (clipped_prediction (_value_clip self)) (sampled_values b) predicted
      else predicted))%R.

(** What holds of an agent from its construction on: it has a memory, and
    its rollout counter is not negative. *)
Definition constructed (self : PPO) : Prop :=
  is_Some (memory self) /\ 0 <= _rollout self.

(** *** Further observations on the calls *)

Definition is_get_entropy (c : call) : bool :=
  match c with Call_get_entropy => true | _ => false end.

Definition is_compute_functions (c : call) : bool :=
  match c with Call_compute_functions _ _ _ _ => true | _ => false end.

(** The calls a learning epoch can make. *)
Definition is_epoch_call (c : call) : bool :=
  match c with
  | Call_act _ _ _ _ | Call_get_entropy | Call_zero_grad _ | Call_backward _ _
  | Call_step _ | Call_print_early_stopping _ _ _ => true
  | _ => false
  end.

(** What went to the metrics writer: tag, value, step, in order. *)
Fixpoint scalars (calls : list call) : list (string * R * Z) :=
  match calls with
  | [] => []
  | Call_add_scalar tag v step :: calls => (tag, v, step) :: scalars calls
  | _ :: calls => scalars calls
  end.

(** The tensors asked of the memory: name and dtype, in order. *)
Fixpoint created_tensors_of (calls : list call) : list (string * dtype) :=
  match calls with
  | [] => []
  | Call_create_tensor name _ dt :: calls => (name, dt) :: created_tensors_of calls
  | _ :: calls => created_tensors_of calls
  end.

(** The optimizers built: network and learning rate, in order. *)
Fixpoint optimizers_of (calls : list call) : list (role * R) :=
  match calls with
  | [] => []
  | Call_Adam who lr :: calls => (who, lr) :: optimizers_of calls
  | _ :: calls => optimizers_of calls
  end.

(** The calls of [post_interaction] a driver makes, one per timestep. *)
Fixpoint post_interactions (steps : list Z) (timesteps : Z) : M PPO unit :=
  match steps with
  | [] => ret tt
  | timestep :: steps =>
      post_interaction timestep timesteps ;; post_interactions steps timesteps
  end.

(** The value a key has once [cfg] has been merged over the defaults. *)
Definition effective (cfg defaults : gmap string pyval) (k : string) : option pyval :=
  match cfg !! k with
  | Some v => Some v
  | None => defaults !! k
  end.

(** The three ways [_update] can go. *)
Inductive update_run (self : PPO) (t ts : Z) : Prop :=
| update_without_memory :
    memory self = None ->
    _update t ts self =
      (Raise AttributeError, set_value self (bootstrap self).1,
       [Call_act the_value (_current_next_states self) None true]) ->
    update_run self t ts
| update_bad_sample m :
    memory self = Some m ->
    unpack (sampled_by self m) = None ->
    _update t ts self = (Raise ValueError, before_epochs self m, update_prefix self) ->
    update_run self t ts
| update_with_epochs m b cum self2 loop :
    memory self = Some m ->
    unpack (sampled_by self m) = Some b ->
    learning_epochs b (range (_learning_epochs self)) zero_losses (before_epochs self m) =
      (Return cum, self2, loop) ->
    _update t ts self =
      (if _learning_epochs self =? 0
       then (Raise ZeroDivisionError, self2, update_prefix self ++ loop)
       else (Return tt, self2, update_prefix self ++ loop ++ report self cum t)) ->
    update_run self t ts.

(** The hyperparameters of an agent built without overrides. *)
Definition default_configuration : configuration :=
  {| _learning_epochs := 8;
     _rollouts := 16;
     _ratio_clip := 2 / 10;
     _value_clip := 2 / 10;
     _clip_predicted_values := false;
     _value_loss_scale := 1;
     _entropy_loss_scale := 0;
     _kl_threshold := 0;
     _policy_learning_rate := 1 / 1000;
     _value_learning_rate := 1 / 1000;
     _discount_factor := 99 / 100;
     _lambda := 99 / 100;
     _random_timesteps := 1000;
     _learning_starts := 1000 |}.

End Observations.

(** * A concrete set of collaborators

    A policy whose log-probability of the sampled action is its one
    parameter, moved by 2 at every optimizer step; a value network that
    always predicts 1; a memory that keeps the rows it is given and samples
    one fixed transition. *)
Module Dummy.

Definition sample : list Tensor :=
  [ [0%R]; [0%R]; [1%R]; [0%R]; [0%R]; [1%R]; [3%R]; [1%R] ].

#[export] Instance collaborators : Collaborators := {|
  Model := R;
  Optimizer := unit;
  Memory := list samples;
  Space := Z;
  RandomActions := Tensor;
  Model_act m _ _ _ := (m, ([1%R], [m], [0%R]));
  Model_random_act m _ := (m, [0%R]);
  Model_get_entropy _ := [0%R];
  Adam _ _ := tt;
  Optimizer_zero_grad _ m := m;
  backward _ m := m;
  Optimizer_step o m := (o, (m + 2)%R);
  Memory_create_tensor m _ _ _ := m;
  Memory_add_samples m row := m ++ [row];
  Memory_compute_functions m _ _ _ _ := m;
  Memory_sample_all _ _ := sample
|}.

(** An agent in the middle of training: [p] and [v] are the current
    parameters of its two networks. *)
Definition agent (learning_epochs : Z) (kl_threshold p v : R) : PPO :=
  {| config :=
       {| _learning_epochs := learning_epochs;
          _rollouts := 4;
          _ratio_clip := 2 / 10;
          _value_clip := 2 / 10;
          _clip_predicted_values := false;
          _value_loss_scale := 1;
          _entropy_loss_scale := 0;
          _kl_threshold := kl_threshold;
          _policy_learning_rate := 1 / 1000;
          _value_learning_rate := 1 / 1000;
          _discount_factor := 99 / 100;
          _lambda := 95 / 100;
          _random_timesteps := 2;
          _learning_starts := 0 |};
     policy := p;
     value := v;
     memory := Some [];
     policy_optimizer := tt;
     value_optimizer := tt;
     tensors_names := ["states"; "actions"; "rewards"; "dones"; "log_prob";
                       "values"; "returns"; "advantages"];
     _rollout := 0;
     _current_log_prob := None;
     _current_next_states := Some [0%R] |}.

Definition sampled_batch : batch :=
  {| sampled_states := [0%R]; sampled_actions := [0%R]; sampled_log_prob := [0%R];
     sampled_values := [1%R]; sampled_returns := [3%R]; sampled_advantages := [1%R] |}.

(** A transition whose advantage is negative. *)
Definition negative_advantage : batch :=
  {| sampled_states := [0%R]; sampled_actions := [0%R]; sampled_log_prob := [0%R];
     sampled_values := [1%R]; sampled_returns := [3%R];
     sampled_advantages := [(-1)%R] |}.

Definition env : Environment := {| observation_space := 3; action_space := 1 |}.

Definition networks : gmap string R := {[ "policy" := 0%R; "value" := 0%R ]}.

(** The agent built on the default configuration once a caller has set
    [learning_epochs] to 3. *)
Definition built : PPO :=
  {| config :=
       {| _learning_epochs := 3;
          _rollouts := 16;
          _ratio_clip := 2 / 10;
          _value_clip := 2 / 10;
          _clip_predicted_values := false;
          _value_loss_scale := 1;
          _entropy_loss_scale := 0;
          _kl_threshold := 0;
          _policy_learning_rate := 1 / 1000;
          _value_learning_rate := 1 / 1000;
          _discount_factor := 99 / 100;
          _lambda := 99 / 100;
          _random_timesteps := 1000;
          _learning_starts := 1000 |};
     policy := 0%R;
     value := 0%R;
     memory := Some [];
     policy_optimizer := tt;
     value_optimizer := tt;
     tensors_names := ["states"; "actions"; "rewards"; "dones"; "log_prob";
                       "values"; "returns"; "advantages"];
     _rollout := 0;
     _current_log_prob := None;
     _current_next_states := None |}.

(** The calls made while [built] is constructed. *)
Definition built_calls : list call :=
  [Call_super_init;
   Call_Adam the_policy (1 / 1000); Call_Adam the_value (1 / 1000);
   Call_create_tensor "states" (SizeSpace 3) float32;
   Call_create_tensor "actions" (SizeSpace 1) float32;
   Call_create_tensor "rewards" (SizeInt 1) float32;
   Call_create_tensor "dones" (SizeInt 1) bool_;
   Call_create_tensor "log_prob" (SizeInt 1) float32;
   Call_create_tensor "values" (SizeInt 1) float32;
   Call_create_tensor "returns" (SizeInt 1) float32;
   Call_create_tensor "advantages" (SizeInt 1) float32].

(** [agent] with [rollouts] set to 0. *)
Definition agent_without_rollouts : PPO :=
  {| config :=
       {| _learning_epochs := 2;
          _rollouts := 0;
          _ratio_clip := 2 / 10;
          _value_clip := 2 / 10;
          _clip_predicted_values := false;
          _value_loss_scale := 1;
          _entropy_loss_scale := 0;
          _kl_threshold := 1;
          _policy_learning_rate := 1 / 1000;
          _value_learning_rate := 1 / 1000;
          _discount_factor := 99 / 100;
          _lambda := 95 / 100;
          _random_timesteps := 2;
          _learning_starts := 0 |};
     policy := 0%R;
     value := 0%R;
     memory := Some [];
     policy_optimizer := tt;
     value_optimizer := tt;
     tensors_names := ["states"; "actions"; "rewards"; "dones"; "log_prob";
                       "values"; "returns"; "advantages"];
     _rollout := 0;
     _current_log_prob := None;
     _current_next_states := Some [0%R] |}.

End Dummy.

(** * Collaborators that keep their history

    A network is the list of what has been done to it, an optimizer its
    name and the steps it has made: what an epoch leaves of them tells
    which optimizer zeroed and stepped which network, on which loss, and in
    which order.  Every model call answers with the prediction 2 and the
    log-probability 0. *)
Module Traced.

Inductive operation :=
| Evaluated
| Zeroed (optimizer : string)
| Differentiated (loss : R)
| Stepped (optimizer : string).

#[export] Instance collaborators : Collaborators := {|
  Model := list operation;
  Optimizer := string * nat;
  Memory := unit;
  Space := Z;
  RandomActions := Tensor;
  Model_act m _ _ _ := (m ++ [Evaluated], ([2%R], [0%R], [0%R]));
  Model_random_act m _ := (m, [0%R]);
  Model_get_entropy _ := [0%R];
  Adam _ _ := ("Adam"%string, 0%nat);
  Optimizer_zero_grad o m := m ++ [Zeroed o.1];
  backward loss m := m ++ [Differentiated loss];
  Optimizer_step o m := ((o.1, S o.2), m ++ [Stepped o.1]);
  Memory_create_tensor m _ _ _ := m;
  Memory_add_samples m _ := m;
  Memory_compute_functions m _ _ _ _ := m;
  Memory_sample_all _ _ := []
|}.

(** An agent that clips the predicted values, by 1/2, and doubles the
    value loss; no early stopping, no entropy term. *)
Definition agent : PPO :=
  {| config :=
       {| _learning_epochs := 1;
          _rollouts := 4;
          _ratio_clip := 2 / 10;
          _value_clip := 1 / 2;
          _clip_predicted_values := true;
          _value_loss_scale := 2;
          _entropy_loss_scale := 0;
          _kl_threshold := 0;
          _policy_learning_rate := 1 / 1000;
          _value_learning_rate := 1 / 1000;
          _discount_factor := 99 / 100;
          _lambda := 95 / 100;
          _random_timesteps := 2;
          _learning_starts := 0 |};
     policy := [];
     value := [];
     memory := Some tt;
     policy_optimizer := ("policy optimizer"%string, 0%nat);
     value_optimizer := ("value optimizer"%string, 0%nat);
     tensors_names := ["states"; "actions"; "rewards"; "dones"; "log_prob";
                       "values"; "returns"; "advantages"];
     _rollout := 0;
     _current_log_prob := None;
     _current_next_states := Some [0%R] |}.

(** One transition: sampled value 1, return 3, advantage 1. *)
Definition sampled_batch : batch :=
  {| sampled_states := [0%R]; sampled_actions := [0%R]; sampled_log_prob := [0%R];
     sampled_values := [1%R]; sampled_returns := [3%R]; sampled_advantages := [1%R] |}.

End Traced.

(** * The Bi-DexHands environment loader

    Shallow embedding of [skrl/envs/loaders/torch/bidexhands_envs.py].  The
    process state the loader works on is a [world]: [sys.argv], [sys.path],
    the state of the operating system (which holds the current directory)
    and what went to the logger and to standard output.  The packages the
    loader imports and calls are an interface, [System]. *)
Module bidexhands_envs.

Inductive exception :=
| ValueError (msg : string)
| RuntimeError (msg : string)
| ImportError
| IndexError
| OSError
| Upstream (what : string).

Inductive result (A : Type) :=
| Ok (a : A)
| Raised (e : exception).
Arguments Ok {A} a.
Arguments Raised {A} e.

(** A configuration value as [_print_cfg] sees it: a nested dictionary, in
    insertion order, or anything else, held by its text under [f"{value}"]. *)
Inductive value :=
| Leaf (text : string)
| Dict (items : list (string * value)).

Inductive event :=
| warning (msg : string)
| error (msg : string)
| printed (text : string).

Class System := {
  OS : Type;
  getcwd : OS -> string;
  (* os.chdir; [None] is an OSError *)
  chdir : string -> OS -> option OS;
  Args : Type;
  Cfg : Type;
  CfgTrain : Type;
  AgentIndex : Type;
  SimParams : Type;
  Task : Type;
  Env : Type;
  (* whether [import isaacgym] succeeds *)
  isaacgym_importable : bool;
  (* [import bidexhands]: [None] when it fails, else the module's
     [__path__] when it has one *)
  bidexhands_module : option (option (list string));
  (* the three [from utils... import] under a given [sys.path]: the text of
     the exception when they fail *)
  import_utils : list string -> option string;
  get_args : list string -> OS -> result Args * OS;
  args_task : Args -> string;
  args_cfg_train : Args -> string;
  args_cfg_env : Args -> string;
  set_cfg_train : Args -> string -> Args;
  set_cfg_env : Args -> string -> Args;
  vars : Args -> list (string * value);
  load_cfg : Args -> OS -> result (Cfg * CfgTrain) * OS;
  get_AgentIndex : Cfg -> OS -> result AgentIndex * OS;
  parse_sim_params : Args -> Cfg -> CfgTrain -> OS -> result SimParams * OS;
  parse_task :
    Args -> Cfg -> CfgTrain -> SimParams -> AgentIndex -> OS -> result (Task * Env) * OS
}.

Record world `{System} := {
  sys_argv : list string;
  sys_path : list string;
  os : OS;
  output : list event
}.

Section Loader.
Context `{System}.

Definition L (A : Type) : Type := world -> result A * world.

Definition lret {A} (a : A) : L A := fun w => (Ok a, w).

Definition lbind {A B} (m : L A) (k : A -> L B) : L B := fun w =>
  match m w with
  | (Ok a, w1) => k a w1
  | (Raised e, w1) => (Raised e, w1)
  end.

Definition lraise {A} (e : exception) : L A := fun w => (Raised e, w).

Definition emit (e : event) : L unit := fun w =>
  (Ok tt, {| sys_argv := sys_argv w; sys_path := sys_path w; os := os w;
             output := output w ++ [e] |}).

Definition set_os (w : world) (o : OS) : world :=
  {| sys_argv := sys_argv w; sys_path := sys_path w; os := o; output := output w |}.

(** A call of an imported function, which works on the operating system. *)
Definition external {A} (f : OS -> result A * OS) : L A := fun w =>
  ((f (os w)).1, set_os w (f (os w)).2).

End Loader.

Declare Scope sys_scope.
Delimit Scope sys_scope with sys.
Notation "x <- m ;; k" := (lbind m (fun x => k))
  (at level 100, m at next level, k at level 200, right associativity) : sys_scope.
Notation "m ;; k" := (lbind m (fun _ => k))
  (at level 100, k at level 200, right associativity) : sys_scope.

Section Functions.
Context `{System}.
Local Open Scope sys_scope.

(** *** [cwd]

    The context manager together with the block it guards: the code before
    [yield], the block, and the [finally] clause, which runs however the
    block ends; an [OSError] of the [finally] clause replaces the outcome of
    the block. *)
Definition cwd {A} (new_path : string) (block : L A) : L A := fun w =>
  let current_path := getcwd (os w) in
  match chdir new_path (os w) with
  | None => (Raised OSError, w)
  | Some o1 =>
      let r := block (set_os w o1) in
      match chdir current_path (os r.2) with
      | None => (Raised OSError, r.2)
      | Some o2 => (r.1, set_os r.2 o2)
      end
  end.

(** *** [_print_cfg] *)

(** ["  |   " * indent]; a negative count gives the empty string. *)
Fixpoint repeat_string (s : string) (n : nat) : string :=
  match n with
  | O => ""
  | S n => s +:+ repeat_string s n
  end.

(** What the loop body prints for one item of the dictionary. *)
Fixpoint print_item (indent : Z) (key : string) (v : value) : list string :=
  match v with
  | Leaf text =>
      [repeat_string "  |   " (Z.to_nat indent) +:+ "  |-- " +:+ key +:+ ": " +:+ text]
  | Dict items =>
      (fix print_items (d : list (string * value)) : list string :=
         match d with
         | [] => []
         | (k, x) :: d => print_item (indent + 1) k x ++ print_items d
         end) items
  end.

(** The lines printed, in order. *)
Definition _print_cfg (d : list (string * value)) (indent : Z) : list string :=
  flat_map (fun item => print_item indent item.1 item.2) d.

(** *** [load_bidexhands_env] *)

(** [any(arg.startswith(arg_prefix) for arg in cli_args + sys.argv)] *)
Definition arg_exists (arg_prefix : string) (cli_args argv : list string) : bool :=
  existsb (String.prefix arg_prefix) (cli_args ++ argv).

Definition nonempty (s : string) : bool := negb (String.eqb s "").

Definition no_task_message : string :=
  "No task name defined. Set the task_name parameter or use --task <task_name> as command line argument".

(** Lines 82-117: the arguments added to [cli_args], what is logged on the
    way.  [sys.argv] is only read here. *)
Definition handle_arguments (task_name : string) (num_envs : option Z)
    (headless : option bool) (cli_args : list string) (task_type : option string)
    : L (list string) :=
  fun w =>
  let argv := sys_argv w in
  (cli_args <-
     (if negb (arg_exists "--task" cli_args argv) then
        if nonempty task_name then lret (cli_args ++ ["--task"; task_name])
        else lraise (ValueError no_task_message)
      else if nonempty task_name then
        emit (warning ("Ignoring task_name parameter (" +:+ task_name +:+
                       ") as --task is already defined in command line arguments")) ;;
        lret cli_args
      else lret cli_args) ;;
   cli_args <-
     (if negb (arg_exists "--num_envs" cli_args argv) then
        match num_envs with
        | Some n => if 0 <? n then lret (cli_args ++ ["--num_envs"; pretty n])
                    else lret cli_args
        | None => lret cli_args
        end
      else match num_envs with
           | Some _ =>
               emit (warning "Ignoring num_envs parameter as --num_envs is already defined in command line arguments") ;;
               lret cli_args
           | None => lret cli_args
           end) ;;
   cli_args <-
     (if negb (arg_exists "--task_type" cli_args argv) then
        match task_type with
        | Some tt' => if nonempty tt' then lret (cli_args ++ ["--task_type"; tt'])
                      else lret cli_args
        | None => lret cli_args
        end
      else match task_type with
           | Some _ =>
               emit (warning "Ignoring task_type parameter as --task_type is already defined in command line arguments") ;;
               lret cli_args
           | None => lret cli_args
           end) ;;
   (if negb (arg_exists "--headless" cli_args argv) then
      match headless with
      | Some _ => lret (cli_args ++ ["--headless"])
      | None => lret cli_args
      end
    else match headless with
         | Some _ =>
             emit (warning "Ignoring headless parameter as --headless is already defined in command line arguments") ;;
             lret cli_args
         | None => lret cli_args
         end)) w.

(** [os.path.join(a, b)] of [posixpath]. *)
Fixpoint ends_with_slash (s : string) : bool :=
  match s with
  | EmptyString => false
  | String c EmptyString => String.eqb (String c EmptyString) "/"
  | String _ s => ends_with_slash s
  end.

Definition os_path_join (a b : string) : string :=
  if String.prefix "/" b then b
  else if negb (nonempty a) || ends_with_slash a then a +:+ b
  else a +:+ "/" +:+ b.

Definition extend_argv (cli_args : list string) : L unit := fun w =>
  (Ok tt, {| sys_argv := sys_argv w ++ cli_args; sys_path := sys_path w; os := os w;
             output := output w |}).

Definition append_sys_path (path : string) : L unit := fun w =>
  (Ok tt, {| sys_argv := sys_argv w; sys_path := sys_path w ++ [path]; os := os w;
             output := output w |}).

Definition newline : string := String (Ascii.ascii_of_nat 10) EmptyString.

Fixpoint print_lines (lines : list string) : L unit :=
  match lines with
  | [] => lret tt
  | l :: lines => emit (printed l) ;; print_lines lines
  end.

(** The block under [with cwd(path)], lines 156-159. *)
Definition load_environment (args : Args) : L Env :=
  c <- external (load_cfg args) ;;
  agent_index <- external (get_AgentIndex c.1) ;;
  sim_params <- external (parse_sim_params args c.1 c.2) ;;
  te <- external (parse_task args c.1 c.2 sim_params agent_index) ;;
  lret te.2.

(** Lines 120-161, once the arguments are settled. *)
Definition load_with (cli_args : list string) (bidexhands : option (list string))
    (bidexhands_path : string) (show_cfg : bool) : L Env :=
  extend_argv cli_args ;;
  path <- (if nonempty bidexhands_path then lret bidexhands_path
           else match bidexhands with
                | None => lraise (RuntimeError "bidexhands package is not installed")
                | Some [] => lraise IndexError
                | Some (p :: _) => lret p
                end) ;;
  append_sys_path path ;;
  imported <- (fun w => (Ok (import_utils (sys_path w)), w)) ;;
  match imported with
  | Some e =>
      emit (error ("Failed to import required packages: " +:+ e)) ;;
      lraise (RuntimeError ("The path (" +:+ path +:+ ") is not valid"))
  | None =>
      args <- (fun w => external (get_args (sys_argv w)) w) ;;
      (if show_cfg then
         emit (printed (newline +:+ "Bi-DexHands environment (" +:+ args_task args +:+ ")")) ;;
         print_lines (_print_cfg (vars args) 0)
       else lret tt) ;;
      let args := set_cfg_train args (os_path_join path (args_cfg_train args)) in
      let args := set_cfg_env args (os_path_join path (args_cfg_env args)) in
      cwd path (load_environment args)
  end.

Definition load_bidexhands_env (task_name : string) (num_envs : option Z)
    (headless : option bool) (cli_args : list string) (task_type : option string)
    (bidexhands_path : string) (show_cfg : bool) : L Env :=
  if negb isaacgym_importable then lraise ImportError else
  match bidexhands_module with
  | None => lraise ImportError
  | Some bidexhands =>
      cli_args <- handle_arguments task_name num_envs headless cli_args task_type ;;
      load_with cli_args bidexhands bidexhands_path show_cfg
  end.

(** The list the caller passed as [cli_args], after the call: an empty one
    is replaced by a fresh list (line 83) and stays empty, any other is
    extended in place. *)
Definition passed_list_after (task_name : string) (num_envs : option Z)
    (headless : option bool) (cli_args : list string) (task_type : option string)
    (w : world) : list string :=
  match cli_args with
  | [] => []
  | _ =>
      if negb isaacgym_importable then cli_args else
      match bidexhands_module with
      | None => cli_args
      | Some _ =>
          match handle_arguments task_name num_envs headless cli_args task_type w with
          | (Ok l, _) => l
          | (Raised _, _) => cli_args
          end
      end
  end.

(** *** What is observed of a configuration *)

Fixpoint leaves (v : value) : nat :=
  match v with
  | Leaf _ => 1%nat
  | Dict items =>
      (fix leaves_of (d : list (string * value)) : nat :=
         match d with
         | [] => 0%nat
         | (_, x) :: d => (leaves x + leaves_of d)%nat
         end) items
  end.

Definition leaves_of (d : list (string * value)) : nat :=
  list_sum (map (fun item => leaves item.2) d).

End Functions.

(** A concrete system: a working directory and nothing else; every
    directory exists, and the imports succeed once the package directory is
    on [sys.path]. *)
Definition simple_args : Type := string * string * string.

#[export] Instance simple : System := {|
  OS := string;
  getcwd o := o;
  chdir p _ := Some p;
  Args := simple_args;
  Cfg := unit;
  CfgTrain := unit;
  AgentIndex := unit;
  SimParams := unit;
  Task := unit;
  Env := string;
  isaacgym_importable := true;
  bidexhands_module := Some (Some ["/opt/bidexhands"%string]);
  import_utils p :=
    if existsb (String.eqb "/opt/bidexhands") p then None
    else Some "No module named 'utils'"%string;
  get_args argv o := (Ok ("ShadowHand", "cfg/train.yaml", "cfg/env.yaml")%string, o);
  args_task a := a.1.1;
  args_cfg_train a := a.1.2;
  args_cfg_env a := a.2;
  set_cfg_train a x := (a.1.1, x, a.2);
  set_cfg_env a x := (a.1, x);
  vars a := [("task", Leaf a.1.1); ("cfg_train", Leaf a.1.2); ("cfg_env", Leaf a.2)]%string;
  load_cfg _ o := (Ok (tt, tt), o);
  get_AgentIndex _ o := (Ok tt, o);
  parse_sim_params _ _ _ o := (Ok tt, o);
  parse_task _ _ _ _ _ o := (Ok (tt, ("env in " +:+ o)%string), o)
|}.

Definition start : world :=
  {| sys_argv := ["train.py"%string]; sys_path := []; os := "/home/user"%string;
     output := [] |}.

End bidexhands_envs.

(** * Properties *)

Section Properties.
Context `{Collaborators}.

(** *** [act] and [record_transition] *)

Ltac run :=
  unfold bind, ret, raise, get_self, get, put, called, model_act,
    policy_random_act, policy_get_entropy, zero_grad, loss_backward, step,
    writer_add_scalar, with_memory; simpl.

Lemma act_random (self : PPO) states inference t timesteps :
  t < _random_timesteps self ->
  act states inference (Some t) timesteps self =
    (Return (Random_actions (Model_random_act (policy self) states).2),
     set_policy self (Model_random_act (policy self) states).1,
     [Call_random_act states]).
Proof.
  intros Hlt. unfold act. run.
  destruct (Z.ltb_spec t (_random_timesteps self)) as [_|Hge]; [|lia].
  reflexivity.
Qed.

Lemma act_stochastic (self : PPO) states inference t timesteps :
  _random_timesteps self <= t ->
  let out := Model_act (policy self) (Some states) None inference in
  act states inference (Some t) timesteps self =
    (Return (Stochastic_actions out.2.1.1 out.2.1.2 out.2.2),
     set_current_log_prob (set_policy self out.1) (Some out.2.1.2),
     [Call_act the_policy (Some states) None inference]).
Proof.
  intros Hle. unfold act. run.
  destruct (Z.ltb_spec t (_random_timesteps self)) as [Hlt|_]; [lia|].
  reflexivity.
Qed.

Lemma record_transition_eq (self : PPO) m s a r ns d t ts :
  memory self = Some m ->
  let out := Model_act (value self) (Some s) None true in
  let row := {| states := s; actions := a; rewards := r; next_states := ns;
                dones := d; log_prob := _current_log_prob self;
                values := out.2.1.1 |} in
  record_transition s a r ns d t ts self =
    (Return tt,
     set_memory (set_value (set_current_next_states self (Some ns)) out.1)
       (Some (Memory_add_samples m row)),
     [Call_super_record_transition; Call_act the_value (Some s) None true;
      Call_add_samples row]).
Proof.
  intros Hm. unfold record_transition. run. rewrite Hm. simpl. rewrite Hm.
  reflexivity.
Qed.

(** *** One learning epoch *)

Lemma nonzero_spec r : nonzero r = true <-> r <> 0%R.
Proof. unfold nonzero. destruct (Req_dec_T r 0); split; congruence. Qed.

Lemma nonzero_0 : nonzero 0 = false.
Proof. unfold nonzero. destruct (Req_dec_T 0 0); congruence. Qed.

Lemma same_but_networks_refl self : same_but_networks self self.
Proof. repeat split. Qed.

Lemma same_but_networks_trans s1 s2 s3 :
  same_but_networks s1 s2 -> same_but_networks s2 s3 -> same_but_networks s1 s3.
Proof. unfold same_but_networks. intuition congruence. Qed.

Lemma kl_stop_dec self b : {kl_stop self b} + {~ kl_stop self b}.
Proof.
  unfold kl_stop. destruct (Req_dec_T (_kl_threshold self) 0).
  - right. tauto.
  - destruct (Rgt_dec (kl_divergence (next_log_prob_of self b) (sampled_log_prob b))
                (_kl_threshold self)); [left | right]; tauto.
Qed.

Lemma learning_epoch_break self b epoch cum :
  kl_stop self b ->
  learning_epoch b epoch cum self =
    (Return (loop_break, cum),
     set_policy self
       (Model_act (policy self) (Some (sampled_states b)) (Some (sampled_actions b)) false).1,
     [Call_act the_policy (Some (sampled_states b)) (Some (sampled_actions b)) false;
      Call_print_early_stopping epoch
        (kl_divergence (next_log_prob_of self b) (sampled_log_prob b))
        (_kl_threshold self)]).
Proof.
  intros [Hthr Hkl]. unfold learning_epoch. run.
  apply nonzero_spec in Hthr. rewrite Hthr.
  fold (next_log_prob_of self b).
  destruct (Rgt_dec _ _) as [_|Hn]; [|contradiction].
  reflexivity.
Qed.

Lemma learning_epoch_continue self b epoch cum :
  ~ kl_stop self b ->
  let self1 := set_policy self
    (Model_act (policy self) (Some (sampled_states b)) (Some (sampled_actions b)) false).1 in
  let policy_loss := policy_loss_of (_ratio_clip self) (next_log_prob_of self b) b in
  let entropy_loss := entropy_loss_of self1 in
  let value_loss := value_loss_of self (predicted_values_of self b) b in
  exists self',
    same_but_networks self self' /\
    learning_epoch b epoch cum self =
      (Return (loop_continue,
         {| cumulative_policy_loss := (cumulative_policy_loss cum + policy_loss)%R;
            cumulative_entropy_loss :=
              if nonzero (_entropy_loss_scale self)
              then (cumulative_entropy_loss cum + entropy_loss)%R
              else cumulative_entropy_loss cum;
            cumulative_value_loss := (cumulative_value_loss cum + value_loss)%R |}),
       self',
       Call_act the_policy (Some (sampled_states b)) (Some (sampled_actions b)) false ::
       (if nonzero (_entropy_loss_scale self) then [Call_get_entropy] else []) ++
       [Call_zero_grad the_policy;
        Call_backward the_policy (policy_loss + entropy_loss);
        Call_step the_policy;
        Call_act the_value (Some (sampled_states b)) None false;
        Call_zero_grad the_value;
        Call_backward the_value value_loss;
        Call_step the_value]).
Proof.
  intros Hns. unfold learning_epoch, entropy_loss_of. run.
  fold (next_log_prob_of self b).
  destruct (nonzero (_kl_threshold self)) eqn:Hnz;
    [destruct (Rgt_dec _ _) as [Hgt|Hle];
      [exfalso; apply Hns; split; [apply nonzero_spec|]; assumption|]|];
    simpl; destruct (nonzero (_entropy_loss_scale self)) eqn:He; simpl;
    fold (predicted_values_of self b);
    (eexists; split; [|reflexivity]); repeat split.
Qed.

(** The networks and the optimizers after an epoch that runs in full: each
    network has been evaluated, then zeroed, differentiated and stepped by
    its own optimizer. *)
Lemma learning_epoch_networks self b epoch cum :
  ~ kl_stop self b ->
  let policy1 :=
    (Model_act (policy self) (Some (sampled_states b)) (Some (sampled_actions b)) false).1 in
  let value1 := (Model_act (value self) (Some (sampled_states b)) None false).1 in
  let policy_total :=
    (policy_loss_of (_ratio_clip self) (next_log_prob_of self b) b +
     entropy_loss_of (set_policy self policy1))%R in
  let value_loss := value_loss_of self (predicted_values_of self b) b in
  let policy_step :=
    Optimizer_step (policy_optimizer self)
      (backward policy_total (Optimizer_zero_grad (policy_optimizer self) policy1)) in
  let value_step :=
    Optimizer_step (value_optimizer self)
      (backward value_loss (Optimizer_zero_grad (value_optimizer self) value1)) in
  let self' := (learning_epoch b epoch cum self).1.2 in
  policy self' = policy_step.2 /\ policy_optimizer self' = policy_step.1 /\
  value self' = value_step.2 /\ value_optimizer self' = value_step.1.
Proof.
  intros Hns. unfold learning_epoch, entropy_loss_of. run.
  fold (next_log_prob_of self b).
  destruct (nonzero (_kl_threshold self)) eqn:Hnz;
    [destruct (Rgt_dec _ _) as [Hgt|Hle];
      [exfalso; apply Hns; split; [apply nonzero_spec|]; assumption|]|];
    simpl; destruct (nonzero (_entropy_loss_scale self)) eqn:He; simpl;
    fold (predicted_values_of self b); repeat split.
Qed.

Lemma count_app p l1 l2 : count p (l1 ++ l2) = (count p l1 + count p l2)%nat.
Proof.
  induction l1 as [|c l1 IH]; simpl; [reflexivity|].
  destruct (p c); simpl; rewrite IH; reflexivity.
Qed.

Lemma backward_losses_app who l1 l2 :
  backward_losses who (l1 ++ l2) = backward_losses who l1 ++ backward_losses who l2.
Proof.
  induction l1 as [|c l1 IH]; simpl; [reflexivity|].
  destruct c; try apply IH. destruct who0, who; simpl; rewrite IH; reflexivity.
Qed.

Lemma sum_app (l1 l2 : Tensor) :
  torch.sum (l1 ++ l2) = (torch.sum l1 + torch.sum l2)%R.
Proof.
  induction l1 as [|x l1 IH]; simpl; [lra|]. rewrite IH. lra.
Qed.

Lemma count_0_not_In p (l : list call) c : count p l = 0%nat -> In c l -> p c = false.
Proof.
  induction l as [|c' l IH]; simpl; [tauto|].
  destruct (p c') eqn:Hp; [discriminate|].
  intros H0 [->|Hin]; auto.
Qed.

(** *** The loop over the epochs *)

Lemma learning_epochs_run b epochs : forall cum self,
  exists cum' self' calls,
    learning_epochs b epochs cum self = (Return cum', self', calls) /\
    same_but_networks self self' /\
    optimizer_steps the_policy calls = optimizer_steps the_value calls /\
    length (backward_losses the_value calls) = optimizer_steps the_value calls /\
    cumulative_value_loss cum' =
      (cumulative_value_loss cum + torch.sum (backward_losses the_value calls))%R /\
    (optimizer_steps the_policy calls <= length epochs)%nat /\
    (count is_early_stop calls = 0%nat ->
       optimizer_steps the_policy calls = length epochs) /\
    (_kl_threshold self = 0%R -> count is_early_stop calls = 0%nat) /\
    (forall k kl thr, In (Call_print_early_stopping k kl thr) calls ->
       epochs !! optimizer_steps the_policy calls = Some k /\
       thr = _kl_threshold self /\ thr <> 0%R /\ (kl > thr)%R /\
       exists at_stop, same_but_networks self at_stop /\
         kl = kl_divergence (next_log_prob_of at_stop b) (sampled_log_prob b)).
Proof.
  induction epochs as [|epoch rest IH]; intros cum self.
  - exists cum, self, []. simpl. unfold ret.
    repeat split; auto using same_but_networks_refl; try lra; tauto.
  - simpl. unfold bind at 1.
    destruct (kl_stop_dec self b) as [Hs|Hns].
    + rewrite (learning_epoch_break _ _ _ _ Hs). simpl. unfold ret.
      do 3 eexists. split; [reflexivity|]. unfold optimizer_steps. simpl.
      destruct Hs as [Hthr Hkl].
      split; [repeat split|].
      split; [reflexivity|]. split; [reflexivity|]. split; [lra|].
      split; [lia|]. split; [discriminate|]. split; [contradiction|].
      intros k kl thr [Heq|[Heq|[]]]; [discriminate|].
      injection Heq as <- <- <-.
      repeat split; auto.
      exists self. split; [apply same_but_networks_refl | reflexivity].
    + destruct (learning_epoch_continue self b epoch cum Hns)
        as (self1 & Hsame1 & ->). simpl.
      match goal with |- context [learning_epochs b rest ?c self1] =>
        destruct (IH c self1)
          as (cum' & self' & calls & -> & Hsame & Hpv & Hlen & Hsum & Hle & Hall & Hoff & Hstop)
      end.
      simpl in Hsum.
      assert (Hcfg : _kl_threshold self1 = _kl_threshold self)
        by (destruct Hsame1 as [-> _]; reflexivity).
      do 3 eexists. split; [reflexivity|].
      unfold optimizer_steps in *.
      destruct (nonzero (_entropy_loss_scale self)); simpl;
        (split; [eapply same_but_networks_trans; eassumption|]);
        (split; [congruence|]); (split; [congruence|]);
        (split; [rewrite Hsum; lra|]); (split; [lia|]);
        (split; [intros H0; rewrite Hall; auto|]);
        (split; [intros H0; apply Hoff; congruence|]);
        intros k kl thr Hin;
        repeat (destruct Hin as [Heq|Hin]; [discriminate|]);
        destruct (Hstop k kl thr Hin) as (Hk & Hthr & Hnz & Hgt & at_stop & Hat & Hkl);
        (repeat split; [exact Hk|congruence|exact Hnz|exact Hgt|]);
        exists at_stop; (split; [eapply same_but_networks_trans; eassumption|exact Hkl]).
Qed.

(** *** [_update] as a whole *)

Lemma _update_no_memory self t ts :
  memory self = None ->
  _update t ts self =
    (Raise AttributeError, set_value self (bootstrap self).1,
     [Call_act the_value (_current_next_states self) None true]).
Proof.
  intros Hm. unfold _update. run. rewrite Hm. reflexivity.
Qed.

Lemma _update_bad_sample self m t ts :
  memory self = Some m ->
  unpack (sampled_by self m) = None ->
  _update t ts self = (Raise ValueError, before_epochs self m, update_prefix self).
Proof.
  intros Hm Hu. unfold _update. run. rewrite Hm. simpl.
  unfold sampled_by, bootstrap, hyperparameters_of in Hu. simpl in Hu. rewrite Hu. reflexivity.
Qed.

Lemma _update_epochs self m b t ts cum self2 calls :
  memory self = Some m ->
  unpack (sampled_by self m) = Some b ->
  learning_epochs b (range (_learning_epochs self)) zero_losses (before_epochs self m) =
    (Return cum, self2, calls) ->
  _update t ts self =
    if _learning_epochs self =? 0
    then (Raise ZeroDivisionError, self2, update_prefix self ++ calls)
    else (Return tt, self2, update_prefix self ++ calls ++ report self cum t).
Proof.
  intros Hm Hu Hloop. unfold _update. run. rewrite Hm. simpl.
  unfold sampled_by, bootstrap, hyperparameters_of in Hu. simpl in Hu. rewrite Hu.
  unfold bind.
  match goal with |- context [learning_epochs b ?e ?c ?s] =>
    change (learning_epochs b e c s)
      with (learning_epochs b (range (_learning_epochs self)) zero_losses
              (before_epochs self m))
  end.
  rewrite Hloop.
  unfold update_prefix, report, bootstrap, hyperparameters_of.
  destruct (_learning_epochs self =? 0); simpl.
  - rewrite app_nil_r. reflexivity.
  - destruct (nonzero (_entropy_loss_scale self)); reflexivity.
Qed.

Lemma range_lookup n i k : range n !! i = Some k -> k = Z.of_nat i /\ 0 < n.
Proof.
  unfold range. intros Hl.
  apply list_lookup_fmap_Some in Hl as (j & -> & Hj).
  apply lookup_seq in Hj as [-> Hlt]. simpl. split; lia.
Qed.

Lemma length_range n : length (range n) = Z.to_nat n.
Proof. unfold range. rewrite length_map, length_seq. reflexivity. Qed.

Lemma _update_run self t ts :
  exists o self' calls,
    _update t ts self = (o, self', calls) /\
    same_scratch self self' /\
    calls <> [] /\
    optimizer_steps the_policy calls = optimizer_steps the_value calls /\
    (_kl_threshold self = 0%R -> count is_early_stop calls = 0%nat) /\
    (forall k kl thr, In (Call_print_early_stopping k kl thr) calls ->
       o = Return tt /\
       Z.of_nat (optimizer_steps the_policy calls) = k /\
       thr = _kl_threshold self /\ thr <> 0%R /\ (kl > thr)%R /\
       exists b at_stop,
         kl = kl_divergence (next_log_prob_of at_stop b) (sampled_log_prob b)).
Proof.
  destruct (memory self) as [m|] eqn:Hm.
  2:{ rewrite (_update_no_memory _ _ _ Hm). do 3 eexists.
      split; [reflexivity|]. split; [repeat split|]. split; [discriminate|].
      split; [reflexivity|]. split; [reflexivity|].
      intros k kl thr [Heq|[]]. discriminate. }
  destruct (unpack (sampled_by self m)) as [b|] eqn:Hu.
  2:{ rewrite (_update_bad_sample _ _ _ _ Hm Hu). do 3 eexists.
      split; [reflexivity|]. split; [repeat split|]. split; [discriminate|].
      split; [reflexivity|]. split; [reflexivity|].
      intros k kl thr Hin. unfold update_prefix in Hin.
      repeat (destruct Hin as [Heq|Hin]; [discriminate|]). destruct Hin. }
  destruct (learning_epochs_run b (range (_learning_epochs self)) zero_losses
              (before_epochs self m))
    as (cum & self2 & calls & Hloop & Hsame & Hpv & _ & _ & _ & _ & Hoff & Hstop).
  rewrite (_update_epochs _ _ _ t ts _ _ _ Hm Hu Hloop).
  assert (Hscratch : same_scratch self self2).
  { destruct Hsame as (Hc & _ & Hn & Hr & Hl & Hs). unfold same_scratch.
    rewrite Hc, Hn, Hr, Hl, Hs. repeat split. }
  assert (Hrep : forall w, optimizer_steps w (report self cum t) = 0%nat).
  { intros w. unfold report, optimizer_steps.
    destruct (nonzero (_entropy_loss_scale self)); reflexivity. }
  assert (Hrepe : count is_early_stop (report self cum t) = 0%nat).
  { unfold report. destruct (nonzero (_entropy_loss_scale self)); reflexivity. }
  assert (Hin_calls : forall k kl thr c2,
    In (Call_print_early_stopping k kl thr) (update_prefix self ++ calls ++ c2) ->
    count is_early_stop c2 = 0%nat ->
    In (Call_print_early_stopping k kl thr) calls).
  { intros k kl thr c2 Hin Hc2. apply in_app_or in Hin as [Hin|Hin].
    - unfold update_prefix in Hin.
      repeat (destruct Hin as [Heq|Hin]; [discriminate|]). destruct Hin.
    - apply in_app_or in Hin as [Hin|Hin]; [exact Hin|].
      apply (count_0_not_In _ _ _ Hc2) in Hin. discriminate. }
  assert (Hfinal : forall k kl thr,
    In (Call_print_early_stopping k kl thr) calls ->
    0 < _learning_epochs self /\
    Z.of_nat (optimizer_steps the_policy calls) = k /\
    thr = _kl_threshold self /\ thr <> 0%R /\ (kl > thr)%R /\
    exists b at_stop,
      kl = kl_divergence (next_log_prob_of at_stop b) (sampled_log_prob b)).
  { intros k kl thr Hin.
    destruct (Hstop k kl thr Hin) as (Hk & Hthr & Hnz & Hgt & at_stop & _ & Hkl).
    apply range_lookup in Hk as [-> Hpos].
    repeat split; auto. exists b, at_stop. exact Hkl. }
  destruct (_learning_epochs self =? 0) eqn:HE; do 3 eexists;
    (split; [reflexivity|]); (split; [exact Hscratch|]);
    (split; [unfold update_prefix; discriminate|]).
  - unfold optimizer_steps in *. rewrite !count_app. simpl.
    split; [congruence|]. split; [intros H0; auto|].
    intros k kl thr Hin. rewrite <- (app_nil_r calls) in Hin.
    apply Hin_calls in Hin; [|reflexivity].
    destruct (Hfinal k kl thr Hin) as (Hpos & _). lia.
  - unfold optimizer_steps in *. rewrite !count_app.
    rewrite !Hrep, Hrepe. simpl.
    split; [lia|]. split; [intros H0; rewrite (Hoff H0); reflexivity|].
    intros k kl thr Hin. apply Hin_calls in Hin; [|exact Hrepe].
    destruct (Hfinal k kl thr Hin) as (_ & Hk & Hrest).
    split; [reflexivity|]. split; [lia|]. exact Hrest.
Qed.

(** *** Construction *)

Ltac run_init :=
  cbv beta iota delta [__init__ bind ret raise get put called cfg_int cfg_float
                       cfg_bool cfg_lookup create_tensors].

Ltac step_init H :=
  match type of H with
  | context [match ?d !! ?k with _ => _ end] =>
      let E := fresh "Hk" in
      destruct (d !! k) eqn:E; cbv beta iota in H; try discriminate H
  | context [match as_int ?v with _ => _ end] =>
      let E := fresh "Hv" in
      destruct (as_int v) eqn:E; cbv beta iota in H; try discriminate H
  | context [match as_float ?v with _ => _ end] =>
      let E := fresh "Hv" in
      destruct (as_float v) eqn:E; cbv beta iota in H; try discriminate H
  end.

Lemma __init___returns env networks mem cfg g self g' calls :
  __init__ env networks mem cfg g = (Return self, g', calls) ->
  g' = cfg ∪ g /\
  networks !! "policy" = Some (policy self) /\
  networks !! "value" = Some (value self) /\
  (exists m, mem = Some m /\
     memory self =
       Some (foldl (fun m t => Memory_create_tensor m t.1.1 t.1.2 t.2) m
               (created_tensors env))) /\
  read_int g' "learning_epochs" = Some (_learning_epochs self) /\
  read_int g' "rollouts" = Some (_rollouts self) /\
  read_float g' "ratio_clip" = Some (_ratio_clip self) /\
  read_float g' "value_clip" = Some (_value_clip self) /\
  read_bool g' "clip_predicted_values" = Some (_clip_predicted_values self) /\
  read_float g' "value_loss_scale" = Some (_value_loss_scale self) /\
  read_float g' "entropy_loss_scale" = Some (_entropy_loss_scale self) /\
  read_float g' "kl_threshold" = Some (_kl_threshold self) /\
  read_float g' "policy_learning_rate" = Some (_policy_learning_rate self) /\
  read_float g' "value_learning_rate" = Some (_value_learning_rate self) /\
  read_float g' "discount_factor" = Some (_discount_factor self) /\
  read_float g' "lambda" = Some (_lambda self) /\
  read_int g' "random_timesteps" = Some (_random_timesteps self) /\
  read_int g' "learning_starts" = Some (_learning_starts self) /\
  _rollout self = 0 /\
  _current_log_prob self = None /\
  _current_next_states self = None /\
  calls = Call_super_init ::
          Call_Adam the_policy (_policy_learning_rate self) ::
          Call_Adam the_value (_value_learning_rate self) ::
          map (fun t => Call_create_tensor t.1.1 t.1.2 t.2) (created_tensors env).
Proof.
  intros Hr. revert Hr. run_init. intros Hr.
  repeat step_init Hr.
  destruct mem as [mem0|]; cbv beta iota in Hr; [|discriminate Hr].
  injection Hr as <- <- <-.
  unfold read_int, read_float, read_bool. cbn [config policy value memory
    _learning_epochs _rollouts _ratio_clip _value_clip _clip_predicted_values
    _value_loss_scale _entropy_loss_scale _kl_threshold _policy_learning_rate
    _value_learning_rate _discount_factor _lambda _random_timesteps
    _learning_starts _rollout _current_log_prob _current_next_states].
  repeat match goal with Hk : _ !! _ = Some _ |- _ => rewrite Hk; clear Hk end.
  cbn [mbind option_bind fmap option_fmap option_map].
  repeat match goal with Hv : _ = Some _ |- _ => rewrite Hv; clear Hv end.
  repeat split. exists mem0. split; reflexivity.
Qed.

Lemma __init___state env networks mem cfg g :
  (__init__ env networks mem cfg g).1.2 = cfg ∪ g.
Proof.
  run_init.
  repeat match goal with
  | |- context [match ?d !! ?k with _ => _ end] =>
      destruct (d !! k); cbv beta iota; try reflexivity
  | |- context [match as_int ?v with _ => _ end] =>
      destruct (as_int v); cbv beta iota; try reflexivity
  | |- context [match as_float ?v with _ => _ end] =>
      destruct (as_float v); cbv beta iota; try reflexivity
  end.
  destruct mem; reflexivity.
Qed.

Lemma __init___depends_on_merge env networks mem cfg g :
  __init__ env networks mem cfg g = __init__ env networks mem ∅ (cfg ∪ g).
Proof.
  run_init. rewrite (left_id_L ∅ (∪)). reflexivity.
Qed.

Lemma __init___no_network_error env networks mem cfg g p v :
  networks !! "policy" = Some p -> networks !! "value" = Some v ->
  (__init__ env networks mem cfg g).1.1 <> Raise policy_key_error /\
  (__init__ env networks mem cfg g).1.1 <> Raise value_key_error.
Proof.
  intros Hp Hv. run_init. rewrite Hp, Hv. cbv beta iota.
  unfold policy_key_error, value_key_error.
  repeat match goal with
  | |- context [match ?d !! ?k with _ => _ end] =>
      destruct (d !! k); cbv beta iota; [|split; simpl; intros [=]]
  | |- context [match as_int ?x with _ => _ end] =>
      destruct (as_int x); cbv beta iota; [|split; simpl; discriminate]
  | |- context [match as_float ?x with _ => _ end] =>
      destruct (as_float x); cbv beta iota; [|split; simpl; discriminate]
  end.
  destruct mem; split; simpl; discriminate.
Qed.

(** What is reported under "Loss/value": the sum of the value losses of
    the epochs that ran, over [learning_epochs]. *)
Lemma reported_value_loss_divisor self t ts self' calls :
  _update t ts self = (Return tt, self', calls) ->
  In (Call_add_scalar "Loss/value"
        (torch.sum (backward_losses the_value calls) / IZR (_learning_epochs self)) t)
     calls.
Proof.
  intros Hu.
  destruct (memory self) as [m|] eqn:Hm;
    [|rewrite (_update_no_memory _ _ _ Hm) in Hu; discriminate].
  destruct (unpack (sampled_by self m)) as [b|] eqn:Hb;
    [|rewrite (_update_bad_sample _ _ _ _ Hm Hb) in Hu; discriminate].
  destruct (learning_epochs_run b (range (_learning_epochs self)) zero_losses
              (before_epochs self m))
    as (cum & self2 & loop & Hloop & _ & _ & _ & Hsum & _).
  rewrite (_update_epochs _ _ _ t ts _ _ _ Hm Hb Hloop) in Hu.
  destruct (_learning_epochs self =? 0); [discriminate|].
  injection Hu as _ <-.
  assert (Hrep : backward_losses the_value (report self cum t) = []).
  { unfold report. destruct (nonzero (_entropy_loss_scale self)); reflexivity. }
  cbn [backward_losses]. rewrite backward_losses_app, Hrep, app_nil_r.
  do 3 right. apply in_or_app. right.
  unfold report. right. left. rewrite Hsum. simpl.
  rewrite Rplus_0_l. reflexivity.
Qed.

(** *** An invariant of the agent *)

Lemma _update_keeps_memory self t ts :
  is_Some (memory self) -> is_Some (memory (_update t ts self).1.2).
Proof.
  intros [m Hm].
  destruct (unpack (sampled_by self m)) as [b|] eqn:Hb.
  - destruct (learning_epochs_run b (range (_learning_epochs self)) zero_losses
                (before_epochs self m))
      as (cum & self2 & loop & Hloop & Hsame & _).
    rewrite (_update_epochs _ _ _ t ts _ _ _ Hm Hb Hloop).
    destruct Hsame as (_ & Hmem & _).
    destruct (_learning_epochs self =? 0); simpl; rewrite Hmem; eexists; reflexivity.
  - rewrite (_update_bad_sample _ _ _ _ Hm Hb). eexists; reflexivity.
Qed.

Lemma constructed_init env networks mem cfg g self g' calls :
  __init__ env networks mem cfg g = (Return self, g', calls) -> constructed self.
Proof.
  intros Hinit. apply __init___returns in Hinit.
  destruct Hinit as (_ & _ & _ & (m & _ & Hm) & Hrest).
  split; [rewrite Hm; eexists; reflexivity|].
  replace (_rollout self) with 0 by (symmetry; tauto). lia.
Qed.

Lemma constructed_act self states inference timestep timesteps :
  constructed self -> constructed (act states inference timestep timesteps self).1.2.
Proof.
  intros Hc. destruct timestep as [t|]; [|exact Hc].
  destruct (Z.lt_ge_cases t (_random_timesteps self)) as [Hlt|Hge].
  - rewrite (act_random _ _ _ _ _ Hlt). exact Hc.
  - rewrite (act_stochastic _ _ _ _ _ Hge). exact Hc.
Qed.

Lemma constructed_record_transition self s a r ns d t ts :
  constructed self -> constructed (record_transition s a r ns d t ts self).1.2.
Proof.
  intros [[m Hm] Hr]. rewrite (record_transition_eq _ _ _ _ _ _ _ _ _ Hm).
  split; [eexists; reflexivity|exact Hr].
Qed.

Lemma constructed_post_interaction self t ts :
  constructed self -> constructed (post_interaction t ts self).1.2.
Proof.
  intros [Hm Hr]. unfold post_interaction. run.
  destruct (_rollouts self =? 0); [split; simpl; [exact Hm|lia]|].
  destruct ((_rollout self + 1) mod _rollouts self =? 0);
    destruct (t >=? _learning_starts self); simpl;
    try (split; simpl; [exact Hm|lia]).
  destruct (_update_run (set_rollout self (_rollout self + 1)) t ts)
    as (o & self' & calls & Hu & Hscratch & _).
  pose proof (_update_keeps_memory (set_rollout self (_rollout self + 1)) t ts Hm)
    as Hkeep.
  rewrite Hu in *. simpl in *.
  split; [exact Hkeep|].
  destruct Hscratch as (_ & _ & -> & _). simpl. lia.
Qed.

(** ** Interaction and construction *)

(** C5.  [act] with an integer timestep below [random_timesteps] returns
    what [policy.random_act(states)] returns, and that is the only call
    made: the cached log-probability is left as it was.  From
    [random_timesteps] on it returns the triple of
    [policy.act(states, inference)], and the [_current_log_prob] of the
    agent is then the log-probability of that triple; nothing else of the
    agent changes but the policy network the call ran on.  With [timestep]
    left at [None] the comparison raises and nothing is called. *)
Theorem act_exploration_gate (self : PPO) states inference timesteps :
  (forall t, t < _random_timesteps self ->
     let r := act states inference (Some t) timesteps self in
     r = (Return (Random_actions (Model_random_act (policy self) states).2),
          set_policy self (Model_random_act (policy self) states).1,
          [Call_random_act states]) /\
     _current_log_prob r.1.2 = _current_log_prob self /\
     policy r.1.2 = (Model_random_act (policy self) states).1) /\
  (forall t, _random_timesteps self <= t ->
     let out := Model_act (policy self) (Some states) None inference in
     let r := act states inference (Some t) timesteps self in
     r = (Return (Stochastic_actions out.2.1.1 out.2.1.2 out.2.2),
          set_current_log_prob (set_policy self out.1) (Some out.2.1.2),
          [Call_act the_policy (Some states) None inference]) /\
     _current_log_prob r.1.2 = Some out.2.1.2 /\
     policy r.1.2 = out.1 /\
     config r.1.2 = config self /\ value r.1.2 = value self /\
     memory r.1.2 = memory self /\
     policy_optimizer r.1.2 = policy_optimizer self /\
     value_optimizer r.1.2 = value_optimizer self /\
     tensors_names r.1.2 = tensors_names self /\
     _rollout r.1.2 = _rollout self /\
     _current_next_states r.1.2 = _current_next_states self) /\
  act states inference None timesteps self = (Raise TypeError, self, []).
Proof.
  split; [|split].
  - intros t Ht r. unfold r. rewrite (act_random _ _ _ _ _ Ht). repeat split.
  - intros t Ht out r. unfold r, out. rewrite (act_stochastic _ _ _ _ _ Ht).
    repeat split.
  - reflexivity.
Qed.

(** C6.  [record_transition], on an agent that has a memory (every
    constructed agent has one, see [constructed_init]), evaluates the value
    network on [states] with [inference=True], appends one row holding
    states, actions, rewards, dones, the cached log-probability and the
    values just computed, keeps [next_states] in [_current_next_states],
    and returns [None].  The cached log-probability is the one returned by
    the last [act] call when that call went to the policy. *)
Theorem record_transition_appends (self : PPO) m s a r ns d t ts :
  memory self = Some m ->
  let out := Model_act (value self) (Some s) None true in
  (exists row self',
     record_transition s a r ns d t ts self =
       (Return tt, self',
        [Call_super_record_transition; Call_act the_value (Some s) None true;
         Call_add_samples row]) /\
     states row = s /\ actions row = a /\ rewards row = r /\ dones row = d /\
     log_prob row = _current_log_prob self /\ values row = out.2.1.1 /\
     memory self' = Some (Memory_add_samples m row) /\
     _current_next_states self' = Some ns /\
     _current_log_prob self' = _current_log_prob self /\
     _rollout self' = _rollout self /\ config self' = config self /\
     policy self' = policy self /\ value self' = out.1) /\
  (forall (before : PPO) s0 inference t0 timesteps0,
     _random_timesteps before <= t0 ->
     self = (act s0 inference (Some t0) timesteps0 before).1.2 ->
     _current_log_prob self =
       Some (Model_act (policy before) (Some s0) None inference).2.1.2).
Proof.
  intros Hm out. split.
  - do 2 eexists. split.
    + apply record_transition_eq. exact Hm.
    + repeat split.
  - intros before s0 inference t0 timesteps0 Hge ->.
    rewrite (act_stochastic _ _ _ _ _ Hge). reflexivity.
Qed.

(** C8.  On the random-exploration path [act] leaves [_current_log_prob]
    as it was, so the row the next [record_transition] appends carries the
    log-probability cached before that [act] call, whatever action
    [random_act] drew; on a freshly constructed agent that is [None]. *)
Theorem random_act_keeps_cached_log_prob
    (self : PPO) m states inference t timesteps a r ns d ts tss :
  t < _random_timesteps self ->
  memory self = Some m ->
  let acted := (act states inference (Some t) timesteps self).1.2 in
  _current_log_prob acted = _current_log_prob self /\
  (exists row,
     (record_transition states a r ns d ts tss acted).2 =
       [Call_super_record_transition; Call_act the_value (Some states) None true;
        Call_add_samples row] /\
     log_prob row = _current_log_prob self) /\
  (forall env networks mem cfg g g' calls,
     __init__ env networks mem cfg g = (Return self, g', calls) ->
     _current_log_prob acted = None).
Proof.
  intros Ht Hm acted. unfold acted. rewrite (act_random _ _ _ _ _ Ht). simpl.
  split; [reflexivity|]. split.
  - eexists. rewrite (record_transition_eq _ m) by exact Hm. simpl.
    split; reflexivity.
  - intros env networks mem cfg g g' calls Hinit.
    apply __init___returns in Hinit. tauto.
Qed.

(** C3.  [post_interaction] adds one to the rollout counter; it runs
    [_update] exactly when the new count is a multiple of [rollouts] and
    [timestep >= learning_starts]; otherwise nothing is called and nothing
    but the counter changes.  The counter starts at 0 and only this method
    moves it, hence the hypothesis. *)
Theorem post_interaction_cadence (self : PPO) timestep timesteps :
  0 <= _rollout self ->
  let counted := set_rollout self (_rollout self + 1) in
  let due := (_rollouts self | _rollout self + 1) /\ _learning_starts self <= timestep in
  let r := post_interaction timestep timesteps self in
  _rollout r.1.2 = _rollout self + 1 /\
  (due -> r = _update timestep timesteps counted) /\
  (~ due -> r.1.2 = counted /\ r.2 = []) /\
  (r.2 <> [] <-> due).
Proof.
  intros Hpos counted due r.
  assert (Hdue : due -> r = _update timestep timesteps counted).
  { intros [Hdiv Hls]. unfold r, post_interaction. run.
    destruct (Z.eqb_spec (_rollouts self) 0) as [H0|Hn0].
    - rewrite H0 in Hdiv. apply Z.divide_0_l in Hdiv. lia.
    - apply Z.mod_divide in Hdiv; [|exact Hn0]. rewrite Hdiv. simpl.
      destruct (Z.geb_spec timestep (_learning_starts self)); [|lia].
      fold counted. destruct (_update timestep timesteps counted) as [[o s'] c].
      reflexivity. }
  assert (Hnot : ~ due -> r = (Return tt, counted, []) \/
                           r = (Raise ZeroDivisionError, counted, [])).
  { intros Hnd. unfold r, post_interaction. run.
    destruct (Z.eqb_spec (_rollouts self) 0) as [H0|Hn0]; [right; reflexivity|].
    left.
    destruct (Z.eqb_spec ((_rollout self + 1) mod _rollouts self) 0) as [Hm|Hm];
      destruct (Z.geb_spec timestep (_learning_starts self)) as [Hg|Hg];
      simpl; try reflexivity.
    exfalso. apply Hnd. split; [|lia].
    apply Z.mod_divide; assumption. }
  destruct (_update_run counted timestep timesteps)
    as (o & self' & calls & Hu & Hscratch & Hne & _).
  assert (Hdec : due \/ ~ due).
  { unfold due. destruct (Z.BoolSpec_divide (_rollouts self) (_rollout self + 1));
      destruct (Z_le_dec (_learning_starts self) timestep); tauto. }
  split; [|split; [exact Hdue|split]].
  - destruct Hdec as [Hd|Hd].
    + rewrite (Hdue Hd), Hu. simpl. destruct Hscratch as (_ & _ & -> & _).
      reflexivity.
    + destruct (Hnot Hd) as [-> | ->]; reflexivity.
  - intros Hd. destruct (Hnot Hd) as [-> | ->]; split; reflexivity.
  - split.
    + intros Hc. destruct Hdec as [Hd|Hd]; [exact Hd|].
      destruct (Hnot Hd) as [Hr | Hr]; rewrite Hr in Hc; contradiction.
    + intros Hd. rewrite (Hdue Hd), Hu. exact Hne.
Qed.

(** C9.  Construction updates the module-level default mapping in place
    with the caller's [cfg], whatever the outcome; an agent then built with
    an empty [cfg] is the agent that would have been built by passing the
    first caller's [cfg] again: every key the first caller set still holds
    the first caller's value, and the second agent's hyperparameters are
    read from it. *)
Theorem default_config_is_mutated
    env1 networks1 mem1 (cfg1 : gmap string pyval) env2 networks2 mem2
    (defaults : gmap string pyval) :
  let after_first := (__init__ env1 networks1 mem1 cfg1 defaults).1.2 in
  let second := __init__ env2 networks2 mem2 ∅ after_first in
  after_first = cfg1 ∪ defaults /\
  (forall k v, cfg1 !! k = Some v -> after_first !! k = Some v) /\
  second = __init__ env2 networks2 mem2 cfg1 defaults /\
  second.1.2 = after_first /\
  (forall self2 z, second.1.1 = Return self2 ->
     cfg1 !! "learning_epochs" = Some (PyInt z) -> _learning_epochs self2 = z).
Proof.
  intros after_first second.
  assert (Ha : after_first = cfg1 ∪ defaults) by apply __init___state.
  assert (Hk : forall k v, cfg1 !! k = Some v -> after_first !! k = Some v).
  { intros k v Hk. rewrite Ha. apply lookup_union_Some_l. exact Hk. }
  split; [exact Ha|]. split; [exact Hk|]. split; [|split].
  - unfold second. rewrite Ha. symmetry. apply __init___depends_on_merge.
  - unfold second. rewrite __init___state. apply (left_id_L ∅ (∪)).
  - intros self2 z Hret Hcfg.
    destruct second as [[o g'] calls] eqn:Hsec. simpl in Hret. subst o.
    unfold second in Hsec. apply __init___returns in Hsec.
    destruct Hsec as (Hg' & _ & _ & _ & Hle & _).
    rewrite Hg', (left_id_L ∅ (∪)) in Hle. unfold read_int in Hle.
    rewrite (Hk _ _ Hcfg) in Hle. simpl in Hle. congruence.
Qed.

(** C10.  Without a "policy" entry, or with one but without a "value"
    entry, construction raises [KeyError] right after the base
    constructor: no optimizer has been built and no tensor created.  With
    both entries it raises neither of the two errors. *)
Theorem missing_network_is_key_error
    env (networks : gmap string Model) mem cfg (defaults : gmap string pyval) :
  (networks !! "policy" = None ->
     __init__ env networks mem cfg defaults =
       (Raise policy_key_error, cfg ∪ defaults, [Call_super_init])) /\
  (is_Some (networks !! "policy") -> networks !! "value" = None ->
     __init__ env networks mem cfg defaults =
       (Raise value_key_error, cfg ∪ defaults, [Call_super_init])) /\
  (is_Some (networks !! "policy") -> is_Some (networks !! "value") ->
     (__init__ env networks mem cfg defaults).1.1 <> Raise policy_key_error /\
     (__init__ env networks mem cfg defaults).1.1 <> Raise value_key_error).
Proof.
  split; [|split].
  - intros Hp. run_init. rewrite Hp. reflexivity.
  - intros [p Hp] Hv. run_init. rewrite Hp, Hv. reflexivity.
  - intros [p Hp] [v Hv]. eapply __init___no_network_error; eassumption.
Qed.

(** *** The losses against their formulas *)


Lemma mean_average (l : Tensor) : torch.mean l = average l.
Proof.
  unfold torch.mean, average, torch.sum.
  induction l as [|x l IH]; reflexivity.
Qed.

Lemma policy_loss_formula eps next b :
  policy_loss_of eps next b = clipped_surrogate_loss eps next b.
Proof.
  unfold policy_loss_of, clipped_surrogate_loss. rewrite mean_average. do 2 f_equal.
  unfold torch.min, torch.mul, torch.clip, torch.exp, torch.sub.
  generalize (sampled_advantages b) as adv, (sampled_log_prob b) as sampled.
  intros adv. revert next.
  induction adv as [|a adv IH]; intros [|n next] [|s sampled]; simpl; try reflexivity.
  rewrite IH. reflexivity.
Qed.

Lemma value_loss_formula self predicted b :
  value_loss_of self predicted b = scaled_value_loss self predicted b.
Proof.
  unfold value_loss_of, scaled_value_loss, torch.mse_loss, mean_squared_error.
  rewrite mean_average. do 2 f_equal.
  assert (Hmse : forall xs ys,
    map (fun d => (d * d)%R) (torch.sub xs ys) =
    zip_with (fun r p => ((r - p) * (r - p))%R) xs ys).
  { unfold torch.sub. induction xs as [|x xs IH]; intros [|y ys]; simpl;
      try reflexivity. rewrite IH. reflexivity. }
  rewrite Hmse. f_equal.
  destruct (_clip_predicted_values self); [|reflexivity].
  unfold torch.add, torch.clip, torch.sub, clipped_prediction.
  generalize (sampled_values b) as sv. intros sv. revert predicted.
  induction sv as [|v sv IH]; intros [|q predicted]; simpl; try reflexivity.
  rewrite IH. reflexivity.
Qed.

Lemma surrogate_term_upper eps advantage ratio :
  (advantage > 0)%R -> (ratio > 1 + eps)%R ->
  surrogate_term eps advantage ratio = (advantage * (1 + eps))%R.
Proof.
  intros Ha Hr. unfold surrogate_term, torch.clip1.
  assert (Hc : Rmin (Rmax ratio (1 - eps)) (1 + eps) = (1 + eps)%R).
  { apply Rmin_right. pose proof (Rmax_l ratio (1 - eps)). lra. }
  rewrite Hc. apply Rmin_right. nra.
Qed.

Lemma surrogate_term_lower eps advantage ratio :
  (0 <= eps)%R -> (advantage < 0)%R -> (ratio < 1 - eps)%R ->
  surrogate_term eps advantage ratio = (advantage * (1 - eps))%R.
Proof.
  intros He Ha Hr. unfold surrogate_term, torch.clip1.
  assert (Hc : Rmin (Rmax ratio (1 - eps)) (1 + eps) = (1 - eps)%R).
  { rewrite Rmax_right by lra. apply Rmin_left. lra. }
  rewrite Hc. apply Rmin_right. nra.
Qed.

Lemma clipped_prediction_within value_clip sampled predicted :
  (Rabs (clipped_prediction value_clip sampled predicted - sampled) <= Rabs value_clip)%R.
Proof.
  unfold clipped_prediction, torch.clip1.
  replace (sampled + Rmin (Rmax (predicted - sampled) (- value_clip)) value_clip - sampled)%R
    with (Rmin (Rmax (predicted - sampled) (- value_clip)) value_clip) by lra.
  set (d := (predicted - sampled)%R).
  unfold Rmin, Rmax, Rabs.
  repeat match goal with
  | |- context [Rle_dec ?a ?b] => destruct (Rle_dec a b)
  | |- context [Rcase_abs ?a] => destruct (Rcase_abs a)
  end; lra.
Qed.

(** ** The update *)


(** C4.  The policy loss of an epoch is
    [-mean(min(advantage * ratio, advantage * clip(ratio, 1 - eps, 1 + eps)))]
    with [ratio = exp(next_log_prob - sampled_log_prob)] and
    [eps = ratio_clip]; it is what a full epoch adds to the cumulative
    policy loss.  For a positive advantage and a ratio above [1 + eps] the
    term is [advantage * (1 + eps)], whatever [eps] is.  For a negative
    advantage and a ratio below [1 - eps] it is [advantage * (1 - eps)]
    when [eps >= 0]; the constructor does not check the sign of
    [ratio_clip], and with [eps < 0] the bounds are crossed, the clipped
    ratio is [1 + eps] for every ratio, and the term is
    [min(advantage * ratio, advantage * (1 + eps))]. *)
Theorem clipped_surrogate_policy_loss (self : PPO) (b : batch) epoch cum :
  (forall eps next, policy_loss_of eps next b = clipped_surrogate_loss eps next b) /\
  (~ kl_stop self b ->
     exists cum' self' calls,
       learning_epoch b epoch cum self = (Return (loop_continue, cum'), self', calls) /\
       cumulative_policy_loss cum' =
         (cumulative_policy_loss cum +
          clipped_surrogate_loss (_ratio_clip self) (next_log_prob_of self b) b)%R) /\
  (forall eps advantage ratio,
     (advantage > 0)%R -> (ratio > 1 + eps)%R ->
     surrogate_term eps advantage ratio = (advantage * (1 + eps))%R) /\
  (forall eps advantage ratio,
     (0 <= eps)%R -> (advantage < 0)%R -> (ratio < 1 - eps)%R ->
     surrogate_term eps advantage ratio = (advantage * (1 - eps))%R) /\
  (forall eps advantage ratio,
     (eps < 0)%R ->
     surrogate_term eps advantage ratio =
       Rmin (advantage * ratio) (advantage * (1 + eps))).
Proof.
  split; [|split; [|split; [|split]]].
  - intros eps next. apply policy_loss_formula.
  - intros Hns.
    destruct (learning_epoch_continue self b epoch cum Hns) as (self' & _ & ->).
    do 3 eexists. split; [reflexivity|]. simpl.
    rewrite policy_loss_formula. reflexivity.
  - apply surrogate_term_upper.
  - apply surrogate_term_lower.
  - intros eps advantage ratio He. unfold surrogate_term, torch.clip1.
    rewrite (Rmin_right (Rmax ratio (1 - eps)) (1 + eps)); [reflexivity|].
    pose proof (Rmax_r ratio (1 - eps)). lra.
Qed.

(** C7.  The value loss of an epoch is
    [value_loss_scale * mean_squared_error(returns, predicted_values)],
    where with [clip_predicted_values] each prediction is first replaced by
    [sampled_value + clip(prediction - sampled_value, -value_clip, value_clip)],
    which is within [value_clip] of the sampled value, and otherwise the
    prediction is used as it is.  In a full epoch the value network is
    evaluated and then zeroed, differentiated on that loss and stepped by
    the value optimizer, after the cycle of the policy; the value network
    and the value optimizer the epoch leaves are those this cycle makes of
    the value network and the value optimizer it found, whatever the policy
    and its optimizer are, and the policy cycle likewise works on the policy
    and its optimizer only. *)
Theorem value_loss_and_its_step (self : PPO) (b : batch) epoch cum :
  (forall (hyper : configuration) predicted,
     value_loss_of hyper predicted b = scaled_value_loss hyper predicted b) /\
  (forall value_clip sampled predicted,
     (Rabs (clipped_prediction value_clip sampled predicted - sampled)
      <= Rabs value_clip)%R) /\
  (~ kl_stop self b ->
     let policy1 :=
       (Model_act (policy self) (Some (sampled_states b))
          (Some (sampled_actions b)) false).1 in
     let value1 := (Model_act (value self) (Some (sampled_states b)) None false).1 in
     let policy_total :=
       (clipped_surrogate_loss (_ratio_clip self) (next_log_prob_of self b) b +
        entropy_loss_of (set_policy self policy1))%R in
     let value_loss := scaled_value_loss self (predicted_values_of self b) b in
     let policy_step :=
       Optimizer_step (policy_optimizer self)
         (backward policy_total (Optimizer_zero_grad (policy_optimizer self) policy1)) in
     let value_step :=
       Optimizer_step (value_optimizer self)
         (backward value_loss (Optimizer_zero_grad (value_optimizer self) value1)) in
     exists cum' self' before,
       learning_epoch b epoch cum self =
         (Return (loop_continue, cum'), self',
          before ++
          [Call_zero_grad the_policy; Call_backward the_policy policy_total;
           Call_step the_policy;
           Call_act the_value (Some (sampled_states b)) None false;
           Call_zero_grad the_value; Call_backward the_value value_loss;
           Call_step the_value]) /\
       optimizer_steps the_policy before = 0%nat /\
       optimizer_steps the_value before = 0%nat /\
       cumulative_value_loss cum' = (cumulative_value_loss cum + value_loss)%R /\
       value self' = value_step.2 /\ value_optimizer self' = value_step.1 /\
       policy self' = policy_step.2 /\ policy_optimizer self' = policy_step.1 /\
       same_but_networks self self').
Proof.
  split; [|split].
  - intros hyper predicted. apply value_loss_formula.
  - apply clipped_prediction_within.
  - intros Hns policy1 value1 policy_total value_loss policy_step value_step.
    pose proof (learning_epoch_networks self b epoch cum Hns) as Hnet.
    destruct (learning_epoch_continue self b epoch cum Hns) as (self' & Hsame & Hrun).
    rewrite Hrun in Hnet |- *. cbn [fst snd] in Hnet.
    destruct Hnet as (Hp & Hpo & Hv & Hvo).
    subst policy_step value_step policy_total value_loss policy1 value1.
    rewrite <- value_loss_formula, <- policy_loss_formula.
    exists {| cumulative_policy_loss :=
                (cumulative_policy_loss cum +
                 policy_loss_of (_ratio_clip self) (next_log_prob_of self b) b)%R;
              cumulative_entropy_loss :=
                if nonzero (_entropy_loss_scale self)
                then (cumulative_entropy_loss cum +
                      entropy_loss_of
                        (set_policy self
                           (Model_act (policy self) (Some (sampled_states b))
                              (Some (sampled_actions b)) false).1))%R
                else cumulative_entropy_loss cum;
              cumulative_value_loss :=
                (cumulative_value_loss cum +
                 value_loss_of self (predicted_values_of self b) b)%R |}, self'.
    exists (Call_act the_policy (Some (sampled_states b)) (Some (sampled_actions b)) false ::
            (if nonzero (_entropy_loss_scale self) then [Call_get_entropy] else [])).
    split; [reflexivity|].
    unfold optimizer_steps.
    destruct (nonzero (_entropy_loss_scale self));
      do 3 (split; [reflexivity|]); do 4 (split; [assumption|]); exact Hsame.
Qed.

(** ** Further properties of the agent *)

Lemma learning_epochs_calls b epochs : forall cum self o self' calls,
  learning_epochs b epochs cum self = (o, self', calls) ->
  Forall (fun c => is_epoch_call c = true) calls /\
  count is_get_entropy calls =
    (if nonzero (_entropy_loss_scale self)
     then optimizer_steps the_policy calls
     else 0%nat).
Proof.
  induction epochs as [|epoch rest IH]; intros cum self o self' calls Hrun.
  - injection Hrun as <- <- <-. split; [constructor|].
    destruct (nonzero _); reflexivity.
  - simpl in Hrun. unfold bind at 1 in Hrun.
    destruct (kl_stop_dec self b) as [Hs|Hns].
    + rewrite (learning_epoch_break _ _ _ _ Hs) in Hrun. simpl in Hrun.
      injection Hrun as <- <- <-.
      split; [repeat constructor|]. destruct (nonzero _); reflexivity.
    + destruct (learning_epoch_continue self b epoch cum Hns)
        as (self1 & (Hcfg & _) & Hep).
      rewrite Hep in Hrun. simpl in Hrun.
      match type of Hrun with context [learning_epochs b rest ?c self1] =>
        destruct (learning_epochs b rest c self1) as [[o2 s2] c2] eqn:Hrest;
        destruct (IH c self1 o2 s2 c2 Hrest) as [Hall Hent]
      end.
      injection Hrun as <- <- <-.
      rewrite Hcfg in Hent. unfold optimizer_steps in *.
      destruct (nonzero (_entropy_loss_scale self)); simpl;
        (split; [repeat (constructor; [reflexivity|]); exact Hall|]);
        rewrite Hent; reflexivity.
Qed.

Lemma epoch_calls_observed (l : list call) :
  Forall (fun c => is_epoch_call c = true) l ->
  scalars l = [] /\ count is_compute_functions l = 0%nat.
Proof.
  induction 1 as [|c l Hc _ [IH1 IH2]]; [split; reflexivity|].
  destruct c; try discriminate Hc; simpl; split; assumption.
Qed.

Lemma scalars_app l1 l2 : scalars (l1 ++ l2) = scalars l1 ++ scalars l2.
Proof.
  induction l1 as [|c l1 IH]; simpl; [reflexivity|].
  destruct c; simpl; rewrite ?IH; reflexivity.
Qed.

Lemma _update_cases self t ts : update_run self t ts.
Proof.
  destruct (memory self) as [m|] eqn:Hm.
  2:{ apply update_without_memory; [exact Hm|]. apply _update_no_memory. exact Hm. }
  destruct (unpack (sampled_by self m)) as [b|] eqn:Hb.
  2:{ eapply update_bad_sample; [exact Hm|exact Hb|].
      apply _update_bad_sample; assumption. }
  destruct (learning_epochs_run b (range (_learning_epochs self)) zero_losses
              (before_epochs self m)) as (cum & self2 & loop & Hloop & _).
  eapply update_with_epochs; [exact Hm|exact Hb|exact Hloop|].
  apply (_update_epochs _ _ _ t ts _ _ _ Hm Hb Hloop).
Qed.

Lemma In_scalars tag v step (l : list call) :
  In (Call_add_scalar tag v step) l <-> In (tag, v, step) (scalars l).
Proof.
  induction l as [|c l IH]; simpl; [tauto|].
  destruct c; simpl; rewrite <- ?IH;
    try (split; [intros [Heq|Hin]; [discriminate|exact Hin] | tauto]).
  split; (intros [Heq|Hin]; [left; congruence | right; exact Hin]).
Qed.

Lemma report_observed self cum t :
  scalars (report self cum t) =
    [("Loss/policy", (cumulative_policy_loss cum / IZR (_learning_epochs self))%R, t);
     ("Loss/value", (cumulative_value_loss cum / IZR (_learning_epochs self))%R, t)] ++
    (if nonzero (_entropy_loss_scale self)
     then [("Loss/entropy",
            (cumulative_entropy_loss cum / IZR (_learning_epochs self))%R, t)]
     else []) /\
  (forall p, (forall tag v step, p (Call_add_scalar tag v step) = false) ->
     count p (report self cum t) = 0%nat).
Proof.
  unfold report. split.
  - destruct (nonzero (_entropy_loss_scale self)); reflexivity.
  - intros p Hp. destruct (nonzero (_entropy_loss_scale self)); simpl;
      rewrite !Hp; reflexivity.
Qed.

(** X1.  Without early stopping ([kl_threshold] zero) and with at least
    one epoch configured, [_update] runs every epoch: it returns normally,
    each optimizer is stepped [learning_epochs] times, and the value
    written under "Loss/value" is the mean of the value losses of the
    epochs that ran. *)
Theorem update_runs_every_epoch (self : PPO) m b t ts :
  memory self = Some m ->
  unpack (sampled_by self m) = Some b ->
  _kl_threshold self = 0%R ->
  0 < _learning_epochs self ->
  let r := _update t ts self in
  r.1.1 = Return tt /\
  Z.of_nat (optimizer_steps the_policy r.2) = _learning_epochs self /\
  Z.of_nat (optimizer_steps the_value r.2) = _learning_epochs self /\
  count is_early_stop r.2 = 0%nat /\
  In ("Loss/value",
      (torch.sum (backward_losses the_value r.2) /
       INR (optimizer_steps the_value r.2))%R, t) (scalars r.2).
Proof.
  intros Hm Hb Hthr Hpos r.
  destruct (learning_epochs_run b (range (_learning_epochs self)) zero_losses
              (before_epochs self m))
    as (cum & self2 & loop & Hloop & _ & Hpv & _ & _ & _ & Hall & Hoff & _).
  pose proof (_update_epochs _ _ _ t ts _ _ _ Hm Hb Hloop) as Hu.
  destruct (Z.eqb_spec (_learning_epochs self) 0) as [H0|_]; [lia|].
  pose proof (reported_value_loss_divisor _ _ _ _ _ Hu) as Hrep.
  unfold r. rewrite Hu in *. cbn [fst snd].
  specialize (Hoff Hthr). specialize (Hall Hoff). rewrite length_range in Hall.
  destruct (report_observed self cum t) as [_ Hnone].
  assert (Hsteps : forall w,
    optimizer_steps w (update_prefix self ++ loop ++ report self cum t) =
    optimizer_steps w loop).
  { intros w. unfold optimizer_steps. rewrite !count_app, Hnone; [simpl; lia|].
    intros; destruct w; reflexivity. }
  rewrite !Hsteps. rewrite <- Hpv, Hall.
  split; [reflexivity|]. split; [lia|]. split; [lia|]. split.
  - rewrite !count_app, Hoff, Hnone; reflexivity.
  - apply In_scalars. rewrite INR_IZR_INZ, Z2Nat.id by lia. exact Hrep.
Qed.

(** X2.  With no epoch to run: [learning_epochs = 0] makes [_update]
    raise [ZeroDivisionError] once the returns have been computed and the
    batch sampled, nothing being reported; a negative [learning_epochs]
    makes it return normally and report zeros.  In both cases no network
    is trained. *)
Theorem update_with_no_epoch (self : PPO) m b t ts :
  memory self = Some m ->
  unpack (sampled_by self m) = Some b ->
  (_learning_epochs self = 0 ->
     _update t ts self =
       (Raise ZeroDivisionError, before_epochs self m, update_prefix self)) /\
  (_learning_epochs self < 0 ->
     _update t ts self =
       (Return tt, before_epochs self m,
        update_prefix self ++ report self zero_losses t) /\
     scalars (_update t ts self).2 =
       [("Loss/policy", 0%R, t); ("Loss/value", 0%R, t)] ++
       (if nonzero (_entropy_loss_scale self) then [("Loss/entropy", 0%R, t)] else [])).
Proof.
  intros Hm Hb.
  assert (Hloop : _learning_epochs self <= 0 ->
    learning_epochs b (range (_learning_epochs self)) zero_losses (before_epochs self m)
    = (Return zero_losses, before_epochs self m, [])).
  { intros Hle. unfold range. rewrite Z2Nat.nonpos by exact Hle. reflexivity. }
  split.
  - intros H0. rewrite (_update_epochs _ _ _ t ts _ _ _ Hm Hb (Hloop ltac:(lia))).
    destruct (Z.eqb_spec (_learning_epochs self) 0) as [_|Hn]; [|contradiction].
    rewrite app_nil_r. reflexivity.
  - intros Hneg.
    rewrite (_update_epochs _ _ _ t ts _ _ _ Hm Hb (Hloop ltac:(lia))).
    destruct (Z.eqb_spec (_learning_epochs self) 0) as [H0|_]; [lia|].
    split; [reflexivity|]. cbn [snd].
    rewrite !scalars_app. destruct (report_observed self zero_losses t) as [-> _].
    simpl. unfold Rdiv. rewrite !Rmult_0_l.
    destruct (nonzero (_entropy_loss_scale self)); reflexivity.
Qed.

Lemma prefix_observed self :
  scalars (update_prefix self) = [] /\
  count is_get_entropy (update_prefix self) = 0%nat /\
  count is_early_stop (update_prefix self) = 0%nat /\
  count is_compute_functions (update_prefix self) = 1%nat /\
  (forall w, optimizer_steps w (update_prefix self) = 0%nat).
Proof. repeat split. Qed.

(** X3.  Whatever its outcome, [_update] leaves the hyperparameters, the
    tensor names, the rollout counter and the two cached values as they
    were; it steps the two optimizers the same number of times, never more
    than [learning_epochs] times. *)
Theorem update_trains_only_the_networks (self : PPO) t ts :
  let r := _update t ts self in
  same_scratch self r.1.2 /\
  optimizer_steps the_policy r.2 = optimizer_steps the_value r.2 /\
  Z.of_nat (optimizer_steps the_policy r.2) <= Z.max 0 (_learning_epochs self).
Proof.
  intros r. unfold r.
  destruct (_update_cases self t ts) as [Hm Hu|m Hm Hb Hu|m b cum self2 loop Hm Hb Hloop Hu];
    rewrite Hu.
  - split; [repeat split|]. split; [reflexivity|]. unfold optimizer_steps. simpl. lia.
  - split; [repeat split|]. split; [reflexivity|]. unfold optimizer_steps. simpl. lia.
  - destruct (learning_epochs_run b (range (_learning_epochs self)) zero_losses
                (before_epochs self m))
      as (cum' & self' & calls & Hloop' & Hsame & Hpv & _ & _ & Hle & _).
    rewrite Hloop in Hloop'. injection Hloop' as <- <- <-.
    rewrite length_range in Hle.
    assert (Hscratch : same_scratch self self2).
    { destruct Hsame as (Hc & _ & Hn & Hr & Hl & Hs). unfold same_scratch.
      rewrite Hc, Hn, Hr, Hl, Hs. repeat split. }
    destruct (report_observed self cum t) as [_ Hnone].
    unfold optimizer_steps in *.
    destruct (_learning_epochs self =? 0); cbn [fst snd];
      rewrite !count_app, ?Hnone by (intros; reflexivity); simpl;
      (split; [exact Hscratch|]); (split; [lia|lia]).
Qed.

(** X4.  [_update] writes to the metrics sink only at its very end: when
    it returns normally it has written "Loss/policy" then "Loss/value",
    then "Loss/entropy" if the entropy scale is not zero, each at step
    [timestep]; when it raises it has written nothing. *)
Theorem update_reports_at_the_end (self : PPO) t ts :
  let r := _update t ts self in
  (r.1.1 = Return tt ->
     map (fun x => (x.1.1, x.2)) (scalars r.2) =
       [("Loss/policy", t); ("Loss/value", t)] ++
       (if nonzero (_entropy_loss_scale self) then [("Loss/entropy", t)] else [])) /\
  (r.1.1 <> Return tt -> scalars r.2 = []).
Proof.
  intros r. unfold r.
  destruct (_update_cases self t ts) as [Hm Hu|m Hm Hb Hu|m b cum self2 loop Hm Hb Hloop Hu];
    rewrite Hu; cbn [fst snd].
  - split; [discriminate|reflexivity].
  - split; [discriminate|reflexivity].
  - destruct (learning_epochs_calls _ _ _ _ _ _ _ Hloop) as [Hall _].
    apply epoch_calls_observed in Hall as [Hsc _].
    destruct (_learning_epochs self =? 0); cbn [fst snd]; rewrite !scalars_app, Hsc.
    + split; [discriminate|reflexivity].
    + split; [|intros Hn; contradiction].
      intros _. destruct (report_observed self cum t) as [-> _]. simpl.
      destruct (nonzero (_entropy_loss_scale self)); reflexivity.
Qed.

(** X5.  The policy's entropy is asked for once per epoch that runs in
    full when the entropy scale is not zero, and never when it is zero. *)
Theorem update_entropy_calls (self : PPO) t ts :
  count is_get_entropy (_update t ts self).2 =
    (if nonzero (_entropy_loss_scale self)
     then optimizer_steps the_policy (_update t ts self).2
     else 0%nat).
Proof.
  destruct (_update_cases self t ts) as [Hm Hu|m Hm Hb Hu|m b cum self2 loop Hm Hb Hloop Hu];
    rewrite Hu; cbn [fst snd].
  - destruct (nonzero _); reflexivity.
  - destruct (nonzero _); reflexivity.
  - destruct (learning_epochs_calls _ _ _ _ _ _ _ Hloop) as [_ Hent].
    change (_entropy_loss_scale (before_epochs self m))
      with (_entropy_loss_scale self) in Hent.
    destruct (report_observed self cum t) as [_ Hnone].
    unfold optimizer_steps in *.
    destruct (_learning_epochs self =? 0); cbn [fst snd];
      rewrite !count_app, ?Hnone, Hent by (intros; reflexivity);
      destruct (nonzero (_entropy_loss_scale self)); simpl; lia.
Qed.

(** X6.  Two failures of [_update] before its first epoch, and what each
    leaves behind.  Without a memory it raises [AttributeError] at
    [compute_functions], when the value network has already been evaluated
    on the cached next states.  With a memory whose [sample_all] does not
    answer with eight tensors it raises [ValueError] at the unpacking, when
    the returns and advantages have already been computed in the memory.
    In both cases no epoch has started: no optimizer was touched and nothing
    was reported. *)
Theorem update_failures (self : PPO) t ts :
  (memory self = None ->
     _update t ts self =
       (Raise AttributeError, set_value self (bootstrap self).1,
        [Call_act the_value (_current_next_states self) None true])) /\
  (forall m, memory self = Some m -> length (sampled_by self m) <> 8%nat ->
     _update t ts self =
       (Raise ValueError,
        set_memory (set_value self (bootstrap self).1)
          (Some (Memory_compute_functions m "returns" "advantages"
                   (bootstrap self).2.1.1 (hyperparameters_of self))),
        [Call_act the_value (_current_next_states self) None true;
         Call_compute_functions "returns" "advantages" (bootstrap self).2.1.1
           (hyperparameters_of self);
         Call_sample_all (tensors_names self)])).
Proof.
  split.
  - apply _update_no_memory.
  - intros m Hm Hlen. apply (_update_bad_sample self m t ts Hm).
    destruct (sampled_by self m) as [|? [|? [|? [|? [|? [|? [|? [|? [|? ?]]]]]]]]];
      try reflexivity.
    exfalso. apply Hlen. reflexivity.
Qed.

Lemma learning_epoch_set_rollout b epoch cum self k :
  learning_epoch b epoch cum (set_rollout self k) =
    ((learning_epoch b epoch cum self).1.1,
     set_rollout (learning_epoch b epoch cum self).1.2 k,
     (learning_epoch b epoch cum self).2).
Proof.
  unfold learning_epoch. run.
  destruct (nonzero (_kl_threshold self));
    [destruct (Rgt_dec _ _)|]; simpl;
    destruct (nonzero (_entropy_loss_scale self)); reflexivity.
Qed.

Lemma learning_epochs_set_rollout b epochs k : forall cum self,
  learning_epochs b epochs cum (set_rollout self k) =
    ((learning_epochs b epochs cum self).1.1,
     set_rollout (learning_epochs b epochs cum self).1.2 k,
     (learning_epochs b epochs cum self).2).
Proof.
  induction epochs as [|epoch rest IH]; intros cum self; simpl; [reflexivity|].
  unfold bind. rewrite learning_epoch_set_rollout.
  destruct (learning_epoch b epoch cum self) as [[[[ex cum1]|e] s1] c1]; simpl;
    [|reflexivity].
  destruct ex; simpl; [reflexivity|].
  rewrite IH. destruct (learning_epochs b rest cum1 s1) as [[o s2] c2]. reflexivity.
Qed.

Lemma _update_set_rollout self t ts k :
  _update t ts (set_rollout self k) =
    ((_update t ts self).1.1, set_rollout (_update t ts self).1.2 k,
     (_update t ts self).2).
Proof.
  destruct (_update_cases self t ts) as [Hm Hu|m Hm Hb Hu|m b cum self2 loop Hm Hb Hloop Hu];
    rewrite Hu.
  - rewrite (_update_no_memory (set_rollout self k)) by exact Hm. reflexivity.
  - rewrite (_update_bad_sample (set_rollout self k) m) by assumption. reflexivity.
  - assert (Hloop' :
      learning_epochs b (range (_learning_epochs (set_rollout self k))) zero_losses
        (before_epochs (set_rollout self k) m) = (Return cum, set_rollout self2 k, loop)).
    { change (before_epochs (set_rollout self k) m)
        with (set_rollout (before_epochs self m) k).
      rewrite learning_epochs_set_rollout.
      change (_learning_epochs (set_rollout self k)) with (_learning_epochs self).
      rewrite Hloop. reflexivity. }
    rewrite (_update_epochs (set_rollout self k) m b t ts _ _ _ Hm Hb Hloop').
    change (_learning_epochs (set_rollout self k)) with (_learning_epochs self).
    destruct (_learning_epochs self =? 0); reflexivity.
Qed.

Lemma post_interaction_eq self t ts :
  post_interaction t ts self =
    if _rollouts self =? 0
    then (Raise ZeroDivisionError, set_rollout self (_rollout self + 1), [])
    else if ((_rollout self + 1) mod _rollouts self =? 0) && (t >=? _learning_starts self)
         then _update t ts (set_rollout self (_rollout self + 1))
         else (Return tt, set_rollout self (_rollout self + 1), []).
Proof.
  unfold post_interaction. run.
  destruct (_rollouts self =? 0); [reflexivity|].
  destruct (((_rollout self + 1) mod _rollouts self =? 0) && (t >=? _learning_starts self));
    [|reflexivity].
  destruct (_update t ts (set_rollout self (_rollout self + 1))) as [[o s'] c].
  reflexivity.
Qed.

(** X7.  [_update] neither reads nor writes the rollout counter: run on
    an agent whose counter has another value, it has the same outcome,
    makes the same calls and leaves the same agent, counter apart. *)
Theorem update_ignores_the_counter (self : PPO) t ts k :
  let r := _update t ts self in
  _update t ts (set_rollout self k) = (r.1.1, set_rollout r.1.2 k, r.2) /\
  _rollout r.1.2 = _rollout self.
Proof.
  intros r. split; [apply _update_set_rollout|].
  destruct (_update_run self t ts) as (o & self' & calls & Hu & Hscratch & _).
  unfold r. rewrite Hu. simpl. destruct Hscratch as (_ & _ & Hr & _). exact Hr.
Qed.

(** X8.  With [rollouts] set to 0 every [post_interaction] raises
    [ZeroDivisionError]; the counter has been incremented all the same,
    and no update is run. *)
Theorem post_interaction_without_rollouts (self : PPO) t ts :
  _rollouts self = 0 ->
  post_interaction t ts self =
    (Raise ZeroDivisionError, set_rollout self (_rollout self + 1), []).
Proof.
  intros H0. rewrite post_interaction_eq, H0. reflexivity.
Qed.

Lemma div_succ R x :
  0 < R -> (x + 1) / R = x / R + (if (x + 1) mod R =? 0 then 1 else 0).
Proof.
  intros HR.
  pose proof (Z.div_mod x R ltac:(lia)) as Hx.
  pose proof (Z.mod_pos_bound x R HR) as Bx.
  pose proof (Z.div_mod (x + 1) R ltac:(lia)) as Hx1.
  pose proof (Z.mod_pos_bound (x + 1) R HR) as Bx1.
  destruct (Z.eqb_spec ((x + 1) mod R) 0) as [H0|Hn0]; nia.
Qed.

Lemma post_interaction_returns self t ts self' calls :
  post_interaction t ts self = (Return tt, self', calls) ->
  config self' = config self /\
  _rollout self' = _rollout self + 1 /\
  count is_compute_functions calls =
    (if ((_rollout self + 1) mod _rollouts self =? 0) && (t >=? _learning_starts self)
     then 1%nat else 0%nat).
Proof.
  rewrite post_interaction_eq.
  destruct (_rollouts self =? 0); [discriminate|].
  destruct (((_rollout self + 1) mod _rollouts self =? 0) && (t >=? _learning_starts self)).
  2:{ intros [= <- <-]. repeat split. }
  set (counted := set_rollout self (_rollout self + 1)).
  intros Hu.
  destruct (_update_run counted t ts) as (o & s2 & c2 & Hu' & Hscratch & _).
  rewrite Hu in Hu'. injection Hu' as <- <- <-.
  destruct Hscratch as (Hc & _ & Hr & _).
  split; [exact Hc|]. split; [exact Hr|].
  destruct (_update_cases counted t ts)
    as [Hm Hx|m Hm Hb Hx|m b cum self2 loop Hm Hb Hloop Hx];
    rewrite Hu in Hx; try discriminate Hx.
  destruct (_learning_epochs counted =? 0); [discriminate Hx|].
  injection Hx as _ ->.
  destruct (learning_epochs_calls _ _ _ _ _ _ _ Hloop) as [Hall _].
  apply epoch_calls_observed in Hall as [_ Hcf].
  destruct (report_observed counted cum t) as [_ Hnone].
  simpl. rewrite count_app, Hcf, Hnone by (intros; reflexivity). reflexivity.
Qed.

(** X9.  A run of [post_interaction] calls that all return, on an agent
    with [rollouts > 0] and every timestep at or past [learning_starts]:
    the counter has advanced by the number of calls, and the updates made
    (each computes the returns once) are one per multiple of [rollouts]
    the counter has passed. *)
Theorem updates_every_rollouts steps : forall (self : PPO) ts self' calls,
  post_interactions steps ts self = (Return tt, self', calls) ->
  0 < _rollouts self ->
  Forall (fun t => _learning_starts self <= t) steps ->
  _rollout self' = _rollout self + Z.of_nat (length steps) /\
  Z.of_nat (count is_compute_functions calls) =
    (_rollout self + Z.of_nat (length steps)) / _rollouts self
    - _rollout self / _rollouts self.
Proof.
  induction steps as [|t rest IH]; intros self ts self' calls Hrun HR Hall.
  - injection Hrun as <- <-. simpl. rewrite Z.add_0_r. split; lia.
  - simpl in Hrun. unfold bind in Hrun.
    destruct (post_interaction t ts self) as [[[[]|e] s1] c1] eqn:H1;
      [|discriminate Hrun].
    destruct (post_interactions rest ts s1) as [[o2 s2] c2] eqn:H2.
    injection Hrun as -> <- <-.
    apply post_interaction_returns in H1 as (Hc & Hr & Hcount).
    inversion Hall as [|t' rest' Ht Hrest]; subst.
    assert (HR1 : _rollouts s1 = _rollouts self) by (rewrite Hc; reflexivity).
    assert (HL1 : _learning_starts s1 = _learning_starts self)
      by (rewrite Hc; reflexivity).
    destruct (IH s1 ts s2 c2 H2) as [Hr2 Hc2].
    { rewrite HR1. exact HR. }
    { rewrite HL1. exact Hrest. }
    rewrite HR1, Hr in *. rewrite count_app, Hcount.
    destruct (Z.geb_spec t (_learning_starts self)) as [_|Hlt]; [|lia].
    rewrite andb_true_r.
    pose proof (div_succ (_rollouts self) (_rollout self) HR) as Hdiv.
    destruct ((_rollout self + 1) mod _rollouts self =? 0);
      split; simpl length; try lia;
      replace (_rollout self + Z.of_nat (S (length rest)))
        with (_rollout self + 1 + Z.of_nat (length rest)) by lia; lia.
Qed.

(** X10.  Before [learning_starts] nothing is learned: a run of
    [post_interaction] calls whose timesteps are all below
    [learning_starts] only counts (provided [rollouts] is not zero). *)
Theorem no_update_before_learning_starts steps : forall (self : PPO) ts,
  _rollouts self <> 0 ->
  Forall (fun t => t < _learning_starts self) steps ->
  post_interactions steps ts self =
    (Return tt, set_rollout self (_rollout self + Z.of_nat (length steps)), []).
Proof.
  induction steps as [|t rest IH]; intros self ts HR Hall.
  - simpl. unfold ret. f_equal. f_equal.
    replace (_rollout self + Z.of_nat 0) with (_rollout self) by (simpl; lia).
    destruct self; reflexivity.
  - inversion Hall as [|t' rest' Ht Hrest]; subst.
    simpl. unfold bind. rewrite post_interaction_eq.
    destruct (Z.eqb_spec (_rollouts self) 0) as [H0|_]; [contradiction|].
    destruct (Z.geb_spec t (_learning_starts self)) as [Hge|_]; [lia|].
    rewrite andb_false_r.
    rewrite (IH (set_rollout self (_rollout self + 1)) ts HR Hrest).
    cbn [_rollout set_rollout].
    replace (_rollout self + 1 + Z.of_nat (length rest))
      with (_rollout self + Z.of_nat (length (t :: rest))) by (simpl length; lia).
    reflexivity.
Qed.

(** X11.  [act] touches nothing but the policy network and the cached
    log-probability: hyperparameters, value network, memory, optimizers,
    counter and cached next states stay as they were.  It makes at most
    one call, on the policy, and the only exception it raises is the
    [TypeError] of a missing timestep, before any call. *)
Theorem act_touches_only_the_policy (self : PPO) states inference timestep timesteps :
  let r := act states inference timestep timesteps self in
  (config r.1.2 = config self /\ value r.1.2 = value self /\
   memory r.1.2 = memory self /\
   policy_optimizer r.1.2 = policy_optimizer self /\
   value_optimizer r.1.2 = value_optimizer self /\
   tensors_names r.1.2 = tensors_names self /\
   _rollout r.1.2 = _rollout self /\
   _current_next_states r.1.2 = _current_next_states self) /\
  (r.2 = [Call_random_act states] \/
   r.2 = [Call_act the_policy (Some states) None inference] \/
   r.2 = []) /\
  (forall e, r.1.1 = Raise e ->
     e = TypeError /\ timestep = None /\ r.1.2 = self /\ r.2 = []).
Proof.
  intros r. unfold r. destruct timestep as [t|].
  - destruct (Z.lt_ge_cases t (_random_timesteps self)) as [Hlt|Hge].
    + rewrite (act_random _ _ _ _ _ Hlt). cbn [fst snd].
      split; [repeat split|]. split; [tauto|]. intros e [=].
    + rewrite (act_stochastic _ _ _ _ _ Hge). cbn [fst snd].
      split; [repeat split|]. split; [tauto|]. intros e [=].
  - split; [repeat split|]. split; [tauto|].
    intros e [= <-]. repeat split.
Qed.

Lemma __init___optimizers env networks mem cfg g self g' calls :
  __init__ env networks mem cfg g = (Return self, g', calls) ->
  policy_optimizer self = Adam (policy self) (_policy_learning_rate self) /\
  value_optimizer self = Adam (value self) (_value_learning_rate self) /\
  tensors_names self = ["states"; "actions"; "rewards"; "dones"; "log_prob";
                        "values"; "returns"; "advantages"].
Proof.
  intros Hr. revert Hr. run_init. intros Hr.
  repeat step_init Hr.
  destruct mem as [mem0|]; cbv beta iota in Hr; [|discriminate Hr].
  injection Hr as <- <- <-. repeat split.
Qed.

(** X12.  A successful construction has built one Adam optimizer per
    network, on the networks registered under "policy" and "value" and with
    the configured learning rates, and has created in the memory exactly
    the tensors whose names it keeps in [tensors_names] (those [_update]
    samples), all [float32] but "dones". *)
Theorem construction_prepares_optimizers_and_memory
    env networks mem cfg (g : gmap string pyval) (self : PPO) g' calls :
  __init__ env networks mem cfg g = (Return self, g', calls) ->
  optimizers_of calls =
    [(the_policy, _policy_learning_rate self); (the_value, _value_learning_rate self)] /\
  policy_optimizer self = Adam (policy self) (_policy_learning_rate self) /\
  value_optimizer self = Adam (value self) (_value_learning_rate self) /\
  networks !! "policy" = Some (policy self) /\
  networks !! "value" = Some (value self) /\
  map fst (created_tensors_of calls) = tensors_names self /\
  map snd (created_tensors_of calls) =
    [float32; float32; float32; bool_; float32; float32; float32; float32].
Proof.
  intros Hr.
  destruct (__init___optimizers _ _ _ _ _ _ _ _ Hr) as (Hpo & Hvo & Hnames).
  apply __init___returns in Hr.
  destruct Hr as (_ & Hp & Hv & _ & Hrest).
  assert (Hcalls : calls = Call_super_init ::
          Call_Adam the_policy (_policy_learning_rate self) ::
          Call_Adam the_value (_value_learning_rate self) ::
          map (fun t => Call_create_tensor t.1.1 t.1.2 t.2) (created_tensors env))
    by tauto.
  rewrite Hcalls, Hnames. repeat split; assumption.
Qed.

(** X13.  The tensors of a batch are taken from [sample_all] by position;
    the positions agree with the names asked for: if the memory answers
    with one tensor per name, in the order of the names, the batch holds
    the tensors named "states", "actions", "log_prob", "values", "returns"
    and "advantages" (the ones named "rewards" and "dones" are dropped). *)
Theorem batch_fields_follow_the_names
    env networks mem cfg (g : gmap string pyval) (self : PPO) g' calls
    (stored : string -> Tensor) :
  __init__ env networks mem cfg g = (Return self, g', calls) ->
  unpack (map stored (tensors_names self)) =
    Some {| sampled_states := stored "states";
            sampled_actions := stored "actions";
            sampled_log_prob := stored "log_prob";
            sampled_values := stored "values";
            sampled_returns := stored "returns";
            sampled_advantages := stored "advantages" |}.
Proof.
  intros Hr.
  destruct (__init___optimizers _ _ _ _ _ _ _ _ Hr) as (_ & _ & ->). reflexivity.
Qed.

(** X14.  Construction without a memory never succeeds and creates no
    tensor; where the same construction with a memory succeeds, the one
    without raises [AttributeError] once both optimizers are built. *)
Theorem construction_needs_a_memory
    env networks cfg (g : gmap string pyval) :
  (forall self, (__init__ env networks None cfg g).1.1 <> Return self) /\
  (forall m self g' calls,
     __init__ env networks (Some m) cfg g = (Return self, g', calls) ->
     __init__ env networks None cfg g =
       (Raise AttributeError, g',
        [Call_super_init; Call_Adam the_policy (_policy_learning_rate self);
         Call_Adam the_value (_value_learning_rate self)])).
Proof.
  split.
  - intros self Hret.
    destruct (__init__ env networks None cfg g) as [[o g'] calls] eqn:Hr.
    simpl in Hret. subst o. apply __init___returns in Hr.
    destruct Hr as (_ & _ & _ & (m & Hm & _) & _). discriminate Hm.
  - intros m self g' calls Hr. revert Hr. run_init. intros Hr.
    repeat step_init Hr. cbv beta iota.
    injection Hr as <- <- <-. reflexivity.
Qed.

Lemma defaults_lookup :
  PPO_DEFAULT_CONFIG !! "learning_epochs" = Some (PyInt 8) /\
  PPO_DEFAULT_CONFIG !! "rollouts" = Some (PyInt 16) /\
  PPO_DEFAULT_CONFIG !! "ratio_clip" = Some (PyFloat (2 / 10)) /\
  PPO_DEFAULT_CONFIG !! "value_clip" = Some (PyFloat (2 / 10)) /\
  PPO_DEFAULT_CONFIG !! "clip_predicted_values" = Some (PyBool false) /\
  PPO_DEFAULT_CONFIG !! "value_loss_scale" = Some (PyFloat 1) /\
  PPO_DEFAULT_CONFIG !! "entropy_loss_scale" = Some (PyFloat 0) /\
  PPO_DEFAULT_CONFIG !! "kl_threshold" = Some (PyInt 0) /\
  PPO_DEFAULT_CONFIG !! "policy_learning_rate" = Some (PyFloat (1 / 1000)) /\
  PPO_DEFAULT_CONFIG !! "value_learning_rate" = Some (PyFloat (1 / 1000)) /\
  PPO_DEFAULT_CONFIG !! "discount_factor" = Some (PyFloat (99 / 100)) /\
  PPO_DEFAULT_CONFIG !! "lambda" = Some (PyFloat (99 / 100)) /\
  PPO_DEFAULT_CONFIG !! "random_timesteps" = Some (PyInt 1000) /\
  PPO_DEFAULT_CONFIG !! "learning_starts" = Some (PyInt 1000).
Proof. repeat split; vm_compute; reflexivity. Qed.

(** X15.  Built without overrides on the module's defaults, with both
    networks and a memory, the agent gets the documented defaults (16
    rollouts, 8 epochs, clipping at 0.2, 1000 random and warm-up timesteps),
    which switch off KL early stopping, the entropy term and value clipping;
    the module-level mapping is left as it was. *)
Theorem construction_with_the_defaults env networks m p v :
  networks !! "policy" = Some p ->
  networks !! "value" = Some v ->
  exists self calls,
    __init__ env networks (Some m) ∅ PPO_DEFAULT_CONFIG =
      (Return self, PPO_DEFAULT_CONFIG, calls) /\
    config self = default_configuration /\
    policy self = p /\ value self = v /\
    nonzero (_kl_threshold self) = false /\
    nonzero (_entropy_loss_scale self) = false /\
    _clip_predicted_values self = false.
Proof.
  intros Hp Hv. run_init. rewrite Hp, Hv. cbv beta iota.
  rewrite (left_id_L ∅ (∪)).
  destruct defaults_lookup
    as (H1 & H2 & H3 & H4 & H5 & H6 & H7 & H8 & H9 & H10 & H11 & H12 & H13 & H14).
  repeat (first [rewrite H1 | rewrite H2 | rewrite H3 | rewrite H4 | rewrite H5
                | rewrite H6 | rewrite H7 | rewrite H8 | rewrite H9 | rewrite H10
                | rewrite H11 | rewrite H12 | rewrite H13 | rewrite H14];
          cbv beta iota delta [as_int as_float truthy]).
  do 2 eexists. split; [reflexivity|].
  cbn [config policy value _kl_threshold _entropy_loss_scale _clip_predicted_values].
  repeat split; apply nonzero_0.
Qed.

Lemma lookup_effective (cfg g : gmap string pyval) k :
  (cfg ∪ g) !! k = effective cfg g k.
Proof.
  unfold effective. destruct (cfg !! k) as [v|] eqn:Hk.
  - apply lookup_union_Some_l. exact Hk.
  - apply lookup_union_r. exact Hk.
Qed.

(** X16.  Every hyperparameter of a constructed agent is the value [cfg]
    gives to its key when [cfg] has the key, and otherwise the value the
    module-level mapping held for it before the call. *)
Theorem cfg_overrides_key_by_key
    env networks mem cfg (g : gmap string pyval) (self : PPO) g' calls :
  __init__ env networks mem cfg g = (Return self, g', calls) ->
  effective cfg g "learning_epochs" ≫= as_int = Some (_learning_epochs self) /\
  effective cfg g "rollouts" ≫= as_int = Some (_rollouts self) /\
  effective cfg g "ratio_clip" ≫= as_float = Some (_ratio_clip self) /\
  effective cfg g "value_clip" ≫= as_float = Some (_value_clip self) /\
  truthy <$> effective cfg g "clip_predicted_values"
    = Some (_clip_predicted_values self) /\
  effective cfg g "value_loss_scale" ≫= as_float = Some (_value_loss_scale self) /\
  effective cfg g "entropy_loss_scale" ≫= as_float = Some (_entropy_loss_scale self) /\
  effective cfg g "kl_threshold" ≫= as_float = Some (_kl_threshold self) /\
  effective cfg g "policy_learning_rate" ≫= as_float
    = Some (_policy_learning_rate self) /\
  effective cfg g "value_learning_rate" ≫= as_float
    = Some (_value_learning_rate self) /\
  effective cfg g "discount_factor" ≫= as_float = Some (_discount_factor self) /\
  effective cfg g "lambda" ≫= as_float = Some (_lambda self) /\
  effective cfg g "random_timesteps" ≫= as_int = Some (_random_timesteps self) /\
  effective cfg g "learning_starts" ≫= as_int = Some (_learning_starts self).
Proof.
  intros Hr. apply __init___returns in Hr.
  destruct Hr as (-> & _ & _ & _ & Hrest).
  unfold read_int, read_float, read_bool in Hrest.
  rewrite !lookup_effective in Hrest. tauto.
Qed.

(** *** Bounds on the losses *)

Lemma mean_nonneg (l : Tensor) : Forall (fun x => (0 <= x)%R) l -> (0 <= torch.mean l)%R.
Proof.
  intros Hl. unfold torch.mean, Rdiv. apply Rmult_le_pos.
  - induction Hl as [|x l Hx _ IH]; simpl; lra.
  - destruct l as [|x l]; [simpl; rewrite Rinv_0; lra|].
    left. apply Rinv_0_lt_compat. apply lt_0_INR. simpl. lia.
Qed.

Lemma mean_le (l1 l2 : Tensor) :
  Forall2 Rle l1 l2 -> (torch.mean l1 <= torch.mean l2)%R.
Proof.
  intros Hl. unfold torch.mean, Rdiv.
  rewrite <- (Forall2_length _ _ _ Hl).
  apply Rmult_le_compat_r.
  - destruct l1 as [|x l]; [simpl; rewrite Rinv_0; lra|].
    left. apply Rinv_0_lt_compat. apply lt_0_INR. simpl. lia.
  - induction Hl as [|x y l1 l2 Hxy _ IH]; simpl; lra.
Qed.

Lemma clip1_inside x lo hi : (lo <= x <= hi)%R -> torch.clip1 x lo hi = x.
Proof.
  intros [Hlo Hhi]. unfold torch.clip1.
  rewrite (Rmax_left x lo) by exact Hlo. apply Rmin_left. exact Hhi.
Qed.

Lemma surrogate_inside eps (adv ds : Tensor) :
  Forall (fun d => (1 - eps <= exp d <= 1 + eps)%R) ds ->
  torch.min (torch.mul adv (torch.exp ds))
    (torch.mul adv (torch.clip (torch.exp ds) (1 - eps) (1 + eps)))
  = torch.mul adv (torch.exp ds).
Proof.
  unfold torch.min, torch.mul, torch.clip, torch.exp.
  intros Hds. revert adv.
  induction Hds as [|d ds Hd _ IH]; intros [|a adv]; simpl; try reflexivity.
  rewrite IH, (clip1_inside _ _ _ Hd), Rmin_left by lra. reflexivity.
Qed.

Lemma surrogate_below eps (adv rs : Tensor) :
  Forall2 Rle
    (torch.min (torch.mul adv rs) (torch.mul adv (torch.clip rs (1 - eps) (1 + eps))))
    (torch.mul adv rs).
Proof.
  unfold torch.min, torch.mul, torch.clip.
  revert rs. induction adv as [|a adv IH]; intros [|r rs]; simpl; constructor.
  - apply Rmin_l.
  - apply IH.
Qed.

(** X18.  Where every ratio [exp(next_log_prob - sampled_log_prob)] lies
    within [1 - ratio_clip, 1 + ratio_clip] the clipping changes nothing:
    the policy loss is [-mean(advantage * ratio)].  In particular, with a
    non-negative [ratio_clip], a policy that still gives the sampled
    actions their sampled log-probabilities has policy loss
    [-mean(advantages)]. *)
Theorem policy_loss_inside_the_clip_range eps next (b : batch) :
  (Forall (fun d => (1 - eps <= exp d <= 1 + eps)%R)
     (torch.sub next (sampled_log_prob b)) ->
   policy_loss_of eps next b =
     (- torch.mean (torch.mul (sampled_advantages b)
                      (torch.exp (torch.sub next (sampled_log_prob b)))))%R) /\
  ((0 <= eps)%R ->
   length (sampled_advantages b) = length (sampled_log_prob b) ->
   policy_loss_of eps (sampled_log_prob b) b = (- torch.mean (sampled_advantages b))%R).
Proof.
  assert (Hin : Forall (fun d => (1 - eps <= exp d <= 1 + eps)%R)
                  (torch.sub next (sampled_log_prob b)) ->
    policy_loss_of eps next b =
      (- torch.mean (torch.mul (sampled_advantages b)
                       (torch.exp (torch.sub next (sampled_log_prob b)))))%R).
  { intros Hds. unfold policy_loss_of. rewrite (surrogate_inside _ _ _ Hds).
    reflexivity. }
  split; [exact Hin|].
  intros Heps Hlen. clear Hin.
  assert (Hsame : forall l : Tensor, torch.sub l l = map (fun _ => 0%R) l).
  { unfold torch.sub. induction l as [|x l IH]; simpl; [reflexivity|].
    rewrite IH. f_equal. lra. }
  unfold policy_loss_of. rewrite Hsame.
  rewrite surrogate_inside.
  2:{ apply Forall_forall. intros d Hd. apply list_elem_of_In, in_map_iff in Hd.
      destruct Hd as (x & <- & _). rewrite exp_0. lra. }
  do 2 f_equal. unfold torch.mul, torch.exp. revert Hlen.
  generalize (sampled_advantages b) as adv, (sampled_log_prob b) as sampled.
  induction adv as [|a adv IH]; intros [|x sampled] Hlen; simpl in *;
    try reflexivity; try discriminate.
  rewrite exp_0, IH by lia. f_equal. lra.
Qed.

(** X19.  The clipped policy loss is never below the unclipped surrogate
    loss [-mean(advantage * ratio)]: taking the minimum with the clipped
    term can only lower the objective. *)
Theorem policy_loss_is_pessimistic eps next (b : batch) :
  (- torch.mean (torch.mul (sampled_advantages b)
                   (torch.exp (torch.sub next (sampled_log_prob b))))
   <= policy_loss_of eps next b)%R.
Proof.
  unfold policy_loss_of. apply Ropp_le_contravar. apply mean_le.
  apply surrogate_below.
Qed.

(** X20.  With a non-negative [value_loss_scale] the value loss is never
    negative; without value clipping it is zero when the predictions are
    the returns. *)
Theorem value_loss_is_nonnegative (self : configuration) predicted (b : batch) :
  ((0 <= _value_loss_scale self)%R -> (0 <= value_loss_of self predicted b)%R) /\
  (_clip_predicted_values self = false -> sampled_returns b <> [] ->
   value_loss_of self (sampled_returns b) b = 0%R).
Proof.
  split.
  - intros Hs. unfold value_loss_of, torch.mse_loss.
    apply Rmult_le_pos; [exact Hs|]. apply mean_nonneg.
    apply Forall_forall. intros x Hx. apply list_elem_of_In, in_map_iff in Hx.
    destruct Hx as (d & <- & _). nra.
  - intros Hc _. unfold value_loss_of, torch.mse_loss. rewrite Hc.
    assert (Hz : forall l : Tensor,
      torch.sum (map (fun d => (d * d)%R) (torch.sub l l)) = 0%R).
    { unfold torch.sub. induction l as [|x l IH]; simpl; [reflexivity|].
      rewrite IH. nra. }
    unfold torch.mean. rewrite Hz. unfold Rdiv. rewrite Rmult_0_l.
    apply Rmult_0_r.
Qed.


End Properties.

(** * The concrete collaborators at work *)

Section DummyRuns.
Import Dummy.

Lemma kl_at p : kl_divergence [p] [0%R] = (exp p - 1 - p)%R.
Proof.
  unfold kl_divergence, torch.mean, torch.sub, torch.sub_scalar, torch.exp. simpl.
  replace (p - 0)%R with p by lra. lra.
Qed.

Lemma value_loss_at E thr p v :
  value_loss_of (agent E thr p v) [1%R] sampled_batch = 4%R.
Proof.
  unfold value_loss_of, torch.mse_loss, torch.mean, torch.sub. simpl. lra.
Qed.

Lemma policy_loss_at_0 : policy_loss_of (2 / 10) [0%R] sampled_batch = (-1)%R.
Proof.
  unfold policy_loss_of, torch.mean, torch.min, torch.mul, torch.clip, torch.clip1,
    torch.exp, torch.sub. simpl.
  replace (0 - 0)%R with 0%R by lra. rewrite exp_0.
  rewrite (Rmax_left 1 (1 - 2 / 10)) by lra.
  rewrite (Rmin_left 1 (1 + 2 / 10)) by lra.
  rewrite (Rmin_left (1 * 1) (1 * 1)) by lra. lra.
Qed.

Lemma exp_2_gt_4 : (exp 2 > 4)%R.
Proof.
  replace 2%R with (1 + 1)%R by lra. rewrite exp_plus.
  assert (H1 : (1 + 1 < exp 1)%R) by (apply exp_ineq1; lra). nra.
Qed.

Lemma epoch_full E thr p v epoch cum :
  ~ (thr <> 0%R /\ (exp p - 1 - p > thr)%R) ->
  learning_epoch sampled_batch epoch cum (agent E thr p v) =
    (Return (loop_continue,
       {| cumulative_policy_loss :=
            (cumulative_policy_loss cum + policy_loss_of (2 / 10) [p] sampled_batch)%R;
          cumulative_entropy_loss := cumulative_entropy_loss cum;
          cumulative_value_loss := (cumulative_value_loss cum + 4)%R |}),
     agent E thr (p + 2) (v + 2),
     [Call_act the_policy (Some [0%R]) (Some [0%R]) false;
      Call_zero_grad the_policy;
      Call_backward the_policy (policy_loss_of (2 / 10) [p] sampled_batch + 0);
      Call_step the_policy;
      Call_act the_value (Some [0%R]) None false;
      Call_zero_grad the_value;
      Call_backward the_value 4;
      Call_step the_value]).
Proof.
  intros Hns. rewrite <- (value_loss_at E thr p v).
  unfold learning_epoch.
  unfold bind, ret, raise, get_self, get, put, called, model_act,
    policy_get_entropy, zero_grad, loss_backward, step. simpl.
  rewrite nonzero_0, kl_at.
  destruct (nonzero thr) eqn:Hnz;
    [destruct (Rgt_dec _ _) as [Hgt|Hle];
       [exfalso; apply Hns; split; [apply nonzero_spec; exact Hnz | exact Hgt]|]|];
    reflexivity.
Qed.

Lemma epoch_stop E thr p v epoch cum :
  thr <> 0%R -> (exp p - 1 - p > thr)%R ->
  learning_epoch sampled_batch epoch cum (agent E thr p v) =
    (Return (loop_break, cum), agent E thr p v,
     [Call_act the_policy (Some [0%R]) (Some [0%R]) false;
      Call_print_early_stopping epoch (exp p - 1 - p) thr]).
Proof.
  intros Hthr Hkl. rewrite <- kl_at in *.
  rewrite learning_epoch_break; [reflexivity|].
  split; assumption.
Qed.

(** Two epochs asked for, threshold 1: the first epoch runs, the second
    stops. *)
Lemma epochs_stop_at_1 :
  learning_epochs sampled_batch (range 2) zero_losses (agent 2 1 0 0) =
    (Return {| cumulative_policy_loss := 0 + policy_loss_of (2 / 10) [0%R] sampled_batch;
               cumulative_entropy_loss := 0;
               cumulative_value_loss := 0 + 4 |},
     agent 2 1 (0 + 2) (0 + 2),
     [Call_act the_policy (Some [0%R]) (Some [0%R]) false;
      Call_zero_grad the_policy;
      Call_backward the_policy (policy_loss_of (2 / 10) [0%R] sampled_batch + 0);
      Call_step the_policy;
      Call_act the_value (Some [0%R]) None false;
      Call_zero_grad the_value;
      Call_backward the_value 4;
      Call_step the_value;
      Call_act the_policy (Some [0%R]) (Some [0%R]) false;
      Call_print_early_stopping 1 (exp (0 + 2) - 1 - (0 + 2)) 1]).
Proof.
  change (range 2) with [0; 1]. simpl. unfold bind at 1.
  rewrite epoch_full by (rewrite exp_0; lra). simpl.
  unfold bind at 1.
  rewrite epoch_stop; [reflexivity|lra|].
  replace (0 + 2)%R with 2%R by lra. pose proof exp_2_gt_4. lra.
Qed.

(** The run of [_update] with two epochs asked for and the second one
    stopped early. *)
Lemma update_stops_at_1 :
  _update 7 100 (agent 2 1 0 0) =
    (Return tt, agent 2 1 2 2,
     [Call_act the_value (Some [0%R]) None true;
      Call_compute_functions "returns" "advantages" [1%R]
        {| discount_factor := 99 / 100; lambda_coefficient := 95 / 100;
           normalize_returns := false; normalize_advantages := true |};
      Call_sample_all ["states"; "actions"; "rewards"; "dones"; "log_prob";
                       "values"; "returns"; "advantages"];
      Call_act the_policy (Some [0%R]) (Some [0%R]) false;
      Call_zero_grad the_policy;
      Call_backward the_policy (-1);
      Call_step the_policy;
      Call_act the_value (Some [0%R]) None false;
      Call_zero_grad the_value;
      Call_backward the_value 4;
      Call_step the_value;
      Call_act the_policy (Some [0%R]) (Some [0%R]) false;
      Call_print_early_stopping 1 (exp 2 - 3) 1;
      Call_add_scalar "Loss/policy" (-1 / 2) 7;
      Call_add_scalar "Loss/value" (4 / 2) 7]).
Proof.
  rewrite (_update_epochs (agent 2 1 0 0) [] sampled_batch 7 100 _ _ _
             eq_refl eq_refl epochs_stop_at_1).
  simpl. unfold report. simpl. rewrite nonzero_0. simpl.
  rewrite policy_loss_at_0.
  replace (0 + 2)%R with 2%R by lra.
  replace (exp 2 - 1 - 2)%R with (exp 2 - 3)%R by lra.
  replace (-1 + 0)%R with (-1)%R by lra.
  replace ((0 + -1) / 2)%R with (-1 / 2)%R by lra.
  replace ((0 + 4) / 2)%R with (4 / 2)%R by lra.
  reflexivity.
Qed.

(** C1.  The failing run.  [learning_epochs] is 2 and the KL threshold 1;
    the second epoch stops early, so exactly one epoch ran (one step of
    each optimizer), with value loss 4 and policy loss -1.  The value
    reported under "Loss/value" is 4 / 2 and the one under "Loss/policy" is
    -1 / 2: the sums are divided by [learning_epochs], not by the one epoch
    that ran. *)
Theorem reported_losses_after_early_stop :
  let r := _update 7 100 (agent 2 1 0 0) in
  r.1.1 = Return tt /\
  optimizer_steps the_policy r.2 = 1%nat /\
  optimizer_steps the_value r.2 = 1%nat /\
  backward_losses the_value r.2 = [4%R] /\
  backward_losses the_policy r.2 = [(-1)%R] /\
  In (Call_print_early_stopping 1 (exp 2 - 3) 1) r.2 /\
  (forall v, In (Call_add_scalar "Loss/value" v 7) r.2 <-> v = (4 / 2)%R) /\
  (forall v, In (Call_add_scalar "Loss/policy" v 7) r.2 <-> v = (-1 / 2)%R).
Proof.
  intros r. unfold r. rewrite update_stops_at_1. cbn [fst snd].
  split; [reflexivity|]. split; [reflexivity|]. split; [reflexivity|].
  split; [reflexivity|]. split; [reflexivity|].
  split; [simpl; tauto|].
  split; intros v; (split; [intros Hin; simpl in Hin|intros ->; simpl; tauto]);
    repeat (destruct Hin as [Heq|Hin];
            [try discriminate Heq; try (injection Heq as <-; reflexivity)|]);
    destruct Hin.
Qed.



(** ** Instances *)

Lemma act_exploration_gate_witness :
  (1 < _random_timesteps (agent 2 1 7 0) /\
   act [0%R] false (Some 1) (Some 100) (agent 2 1 7 0) =
     (Return (Random_actions [0%R]), agent 2 1 7 0, [Call_random_act [0%R]]) /\
   _current_log_prob (act [0%R] false (Some 1) (Some 100) (agent 2 1 7 0)).1.2 = None) /\
  (_random_timesteps (agent 2 1 7 0) <= 5 /\
   act [0%R] false (Some 5) (Some 100) (agent 2 1 7 0) =
     (Return (Stochastic_actions [1%R] [7%R] [0%R]),
      set_current_log_prob (agent 2 1 7 0) (Some [7%R]),
      [Call_act the_policy (Some [0%R]) None false]) /\
   _current_log_prob (act [0%R] false (Some 5) (Some 100) (agent 2 1 7 0)).1.2 =
     Some [7%R]).
Proof.
  assert (H1 : 1 < _random_timesteps (agent 2 1 7 0)) by (simpl; lia).
  assert (H5 : _random_timesteps (agent 2 1 7 0) <= 5) by (simpl; lia).
  destruct (act_exploration_gate (agent 2 1 7 0) [0%R] false (Some 100))
    as (Hrandom & Hpolicy & _).
  destruct (Hrandom 1 H1) as (Hr & Hkept & _).
  destruct (Hpolicy 5 H5) as (Hp & Hcached & _).
  split; (split; [assumption|]); split; assumption.
Defined.

Lemma record_transition_appends_witness :
  memory (agent 2 1 0 0) = Some [] /\
  exists row self',
    record_transition [0%R] [1%R] [1%R] [5%R] [0%R] 0 100 (agent 2 1 0 0) =
      (Return tt, self',
       [Call_super_record_transition; Call_act the_value (Some [0%R]) None true;
        Call_add_samples row]) /\
    states row = [0%R] /\ log_prob row = None /\ values row = [1%R] /\
    memory self' = Some [row] /\ _current_next_states self' = Some [5%R].
Proof.
  split; [reflexivity|].
  destruct (proj1 (record_transition_appends (agent 2 1 0 0) [] [0%R] [1%R] [1%R]
                     [5%R] [0%R] 0 100 eq_refl))
    as (row & self' & Hrun & Hs & _ & _ & _ & Hl & Hv & Hm & Hn & _).
  exists row, self'. repeat split; assumption.
Defined.

Lemma random_act_keeps_cached_log_prob_witness :
  1 < _random_timesteps (agent 2 1 0 0) /\
  memory (agent 2 1 0 0) = Some [] /\
  _current_log_prob
    (act [0%R] false (Some 1) (Some 100) (agent 2 1 0 0)).1.2 = None /\
  exists row,
    (record_transition [0%R] [0%R] [1%R] [5%R] [0%R] 1 100
       (act [0%R] false (Some 1) (Some 100) (agent 2 1 0 0)).1.2).2 =
      [Call_super_record_transition; Call_act the_value (Some [0%R]) None true;
       Call_add_samples row] /\
    log_prob row = None.
Proof.
  assert (Hlt : 1 < _random_timesteps (agent 2 1 0 0)) by (simpl; lia).
  split; [exact Hlt|]. split; [reflexivity|].
  destruct (random_act_keeps_cached_log_prob (agent 2 1 0 0) [] [0%R] false 1
              (Some 100) [0%R] [1%R] [5%R] [0%R] 1 100 Hlt eq_refl)
    as (Hkeep & Hrow & _).
  split; [exact Hkeep|exact Hrow].
Defined.

Lemma post_interaction_cadence_witness :
  (0 <= _rollout (agent 2 1 0 0) /\
   _rollout (post_interaction 0 100 (agent 2 1 0 0)).1.2 = 1 /\
   (post_interaction 0 100 (agent 2 1 0 0)).2 = []) /\
  (0 <= _rollout (set_rollout (agent 2 1 0 0) 3) /\
   _rollout (post_interaction 3 100 (set_rollout (agent 2 1 0 0) 3)).1.2 = 4 /\
   (post_interaction 3 100 (set_rollout (agent 2 1 0 0) 3)).2 <> []).
Proof.
  assert (H0 : 0 <= _rollout (agent 2 1 0 0)) by (simpl; lia).
  assert (H3 : 0 <= _rollout (set_rollout (agent 2 1 0 0) 3)) by (simpl; lia).
  split.
  - split; [exact H0|].
    destruct (post_interaction_cadence (agent 2 1 0 0) 0 100 H0)
      as (Hcount & _ & Hnot & _).
    split; [exact Hcount|].
    apply Hnot. simpl. intros [[k Hk] _]. lia.
  - split; [exact H3|].
    destruct (post_interaction_cadence (set_rollout (agent 2 1 0 0) 3) 3 100 H3)
      as (Hcount & _ & _ & Hiff).
    split; [exact Hcount|].
    apply Hiff. simpl. split; [exists 1; lia|lia].
Defined.

Lemma default_config_is_mutated_witness :
  ({[ "learning_epochs" := PyInt 3 ]} : gmap string pyval) !! "learning_epochs"
    = Some (PyInt 3) /\
  (__init__ env networks (Some []) {[ "learning_epochs" := PyInt 3 ]}
     PPO_DEFAULT_CONFIG).1.2 !! "learning_epochs" = Some (PyInt 3) /\
  (__init__ env networks (Some []) ∅
     (__init__ env networks (Some []) {[ "learning_epochs" := PyInt 3 ]}
        PPO_DEFAULT_CONFIG).1.2).1.1 = Return built /\
  _learning_epochs built = 3.
Proof.
  assert (Hk : ({[ "learning_epochs" := PyInt 3 ]} : gmap string pyval)
                 !! "learning_epochs" = Some (PyInt 3)) by reflexivity.
  destruct (default_config_is_mutated env networks (Some [])
              {[ "learning_epochs" := PyInt 3 ]} env networks (Some [])
              PPO_DEFAULT_CONFIG)
    as (Hafter & Hkeys & _ & _ & Hsecond).
  assert (Hbuilt : (__init__ env networks (Some []) ∅
     (__init__ env networks (Some []) {[ "learning_epochs" := PyInt 3 ]}
        PPO_DEFAULT_CONFIG).1.2).1.1 = Return built).
  { rewrite Hafter. vm_compute. reflexivity. }
  split; [exact Hk|]. split; [exact (Hkeys _ _ Hk)|]. split; [exact Hbuilt|].
  exact (Hsecond built 3 Hbuilt Hk).
Defined.

Lemma missing_network_is_key_error_witness :
  ((∅ : gmap string R) !! "policy" = None /\
   __init__ env ∅ (Some []) ∅ PPO_DEFAULT_CONFIG =
     (Raise policy_key_error, ∅ ∪ PPO_DEFAULT_CONFIG, [Call_super_init])) /\
  (is_Some (({[ "policy" := 0%R ]} : gmap string R) !! "policy") /\
   ({[ "policy" := 0%R ]} : gmap string R) !! "value" = None /\
   __init__ env {[ "policy" := 0%R ]} (Some []) ∅ PPO_DEFAULT_CONFIG =
     (Raise value_key_error, ∅ ∪ PPO_DEFAULT_CONFIG, [Call_super_init])) /\
  (is_Some (networks !! "policy") /\ is_Some (networks !! "value") /\
   (__init__ env networks (Some []) ∅ PPO_DEFAULT_CONFIG).1.1
     <> Raise policy_key_error).
Proof.
  assert (Hp : is_Some (({[ "policy" := 0%R ]} : gmap string R) !! "policy"))
    by (exists 0%R; reflexivity).
  assert (Hnp : is_Some (networks !! "policy")) by (exists 0%R; reflexivity).
  assert (Hnv : is_Some (networks !! "value")) by (exists 0%R; reflexivity).
  split; [|split].
  - split; [reflexivity|].
    apply (proj1 (missing_network_is_key_error env ∅ (Some []) ∅ PPO_DEFAULT_CONFIG)).
    reflexivity.
  - split; [exact Hp|]. split; [reflexivity|].
    apply (proj1 (proj2 (missing_network_is_key_error env {[ "policy" := 0%R ]}
                           (Some []) ∅ PPO_DEFAULT_CONFIG))).
    + exact Hp.
    + reflexivity.
  - split; [exact Hnp|]. split; [exact Hnv|].
    apply (proj2 (proj2 (missing_network_is_key_error env networks (Some []) ∅
                           PPO_DEFAULT_CONFIG)) Hnp Hnv).
Defined.


Lemma clipped_loss_at_2 :
  clipped_surrogate_loss (2 / 10) [2%R] sampled_batch = (- (6 / 5))%R.
Proof.
  unfold clipped_surrogate_loss, average. simpl.
  rewrite surrogate_term_upper.
  - lra.
  - lra.
  - replace (2 - 0)%R with 2%R by lra. pose proof exp_2_gt_4. lra.
Qed.

Lemma clipped_surrogate_policy_loss_witness :
  ((1 > 0)%R /\ (2 > 1 + 2 / 10)%R /\
   surrogate_term (2 / 10) 1 2 = (1 * (1 + 2 / 10))%R) /\
  ((0 <= 2 / 10)%R /\ (-1 < 0)%R /\ (1 / 2 < 1 - 2 / 10)%R /\
   surrogate_term (2 / 10) (-1) (1 / 2) = (-1 * (1 - 2 / 10))%R) /\
  (~ kl_stop (agent 2 0 2 0) sampled_batch /\
   exists cum' self' calls,
     learning_epoch sampled_batch 0 zero_losses (agent 2 0 2 0) =
       (Return (loop_continue, cum'), self', calls) /\
     cumulative_policy_loss cum' = (0 + - (6 / 5))%R).
Proof.
  destruct (clipped_surrogate_policy_loss (agent 2 0 2 0) sampled_batch 0 zero_losses)
    as (_ & Hepoch & Hup & Hlow & _).
  assert (H1 : (1 > 0)%R) by lra.
  assert (H2 : (2 > 1 + 2 / 10)%R) by lra.
  assert (H3 : (0 <= 2 / 10)%R) by lra.
  assert (H4 : (-1 < 0)%R) by lra.
  assert (H5 : (1 / 2 < 1 - 2 / 10)%R) by lra.
  assert (Hns : ~ kl_stop (agent 2 0 2 0) sampled_batch).
  { intros [Hthr _]. apply Hthr. reflexivity. }
  split; [|split].
  - split; [exact H1|]. split; [exact H2|]. exact (Hup _ _ _ H1 H2).
  - split; [exact H3|]. split; [exact H4|]. split; [exact H5|].
    exact (Hlow _ _ _ H3 H4 H5).
  - split; [exact Hns|].
    destruct (Hepoch Hns) as (cum' & self' & calls & Hrun & Hsum).
    exists cum', self', calls. split; [exact Hrun|].
    rewrite Hsum.
    change (0 + clipped_surrogate_loss (2 / 10) [2%R] sampled_batch = 0 + - (6 / 5))%R.
    rewrite clipped_loss_at_2. reflexivity.
Defined.

(** With [ratio_clip = -1/2], a negative advantage and the ratio 1, which
    is below [1 - ratio_clip = 3/2]: the term the minimum selects is
    [advantage * ratio = -1], not [advantage * (1 - ratio_clip) = -3/2];
    the loss of this one-entry batch is 1, not 3/2. *)
Lemma clipped_surrogate_policy_loss_counterexample :
  (-1 < 0)%R /\ (exp (0 - 0) < 1 - - (1 / 2))%R /\
  policy_loss_of (- (1 / 2)) [0%R] negative_advantage = 1%R /\
  policy_loss_of (- (1 / 2)) [0%R] negative_advantage <>
    (- (-1 * (1 - - (1 / 2))))%R.
Proof.
  assert (Hloss : policy_loss_of (- (1 / 2)) [0%R] negative_advantage = 1%R).
  { unfold policy_loss_of, torch.mean, torch.min, torch.mul, torch.clip, torch.clip1,
      torch.exp, torch.sub. simpl.
    replace (0 - 0)%R with 0%R by lra. rewrite exp_0.
    rewrite (Rmax_right 1 (1 - - (1 / 2))) by lra.
    rewrite (Rmin_right (1 - - (1 / 2)) (1 + - (1 / 2))) by lra.
    rewrite (Rmin_left (-1 * 1) (-1 * (1 + - (1 / 2)))) by lra. lra. }
  split; [lra|]. split; [replace (0 - 0)%R with 0%R by lra; rewrite exp_0; lra|].
  split; [exact Hloss|]. rewrite Hloss. lra.
Qed.

(** ** Instances of the further properties *)

Lemma update_stops_at_1_at t ts :
  _update t ts (agent 2 1 0 0) =
    (Return tt, agent 2 1 2 2,
     update_prefix (agent 2 1 0 0) ++
     [Call_act the_policy (Some [0%R]) (Some [0%R]) false;
      Call_zero_grad the_policy;
      Call_backward the_policy (-1);
      Call_step the_policy;
      Call_act the_value (Some [0%R]) None false;
      Call_zero_grad the_value;
      Call_backward the_value 4;
      Call_step the_value;
      Call_act the_policy (Some [0%R]) (Some [0%R]) false;
      Call_print_early_stopping 1 (exp 2 - 3) 1;
      Call_add_scalar "Loss/policy" (-1 / 2) t;
      Call_add_scalar "Loss/value" (4 / 2) t]).
Proof.
  rewrite (_update_epochs (agent 2 1 0 0) [] sampled_batch t ts _ _ _
             eq_refl eq_refl epochs_stop_at_1).
  simpl. unfold report. simpl. rewrite nonzero_0. simpl.
  rewrite policy_loss_at_0.
  replace (0 + 2)%R with 2%R by lra.
  replace (exp 2 - 1 - 2)%R with (exp 2 - 3)%R by lra.
  replace (-1 + 0)%R with (-1)%R by lra.
  replace ((0 + -1) / 2)%R with (-1 / 2)%R by lra.
  replace ((0 + 4) / 2)%R with (4 / 2)%R by lra.
  reflexivity.
Qed.

Lemma update_without_epochs_at t ts :
  _update t ts (agent 0 1 0 0) =
    (Raise ZeroDivisionError, agent 0 1 0 0, update_prefix (agent 0 1 0 0)).
Proof.
  rewrite (_update_epochs (agent 0 1 0 0) [] sampled_batch t ts zero_losses
             (agent 0 1 0 0) [] eq_refl eq_refl eq_refl).
  reflexivity.
Qed.

Lemma construction_of_built :
  __init__ env networks (Some []) {[ "learning_epochs" := PyInt 3 ]} PPO_DEFAULT_CONFIG =
    (Return built, {[ "learning_epochs" := PyInt 3 ]} ∪ PPO_DEFAULT_CONFIG, built_calls).
Proof.
  assert (H1 : (__init__ env networks (Some []) {[ "learning_epochs" := PyInt 3 ]}
                  PPO_DEFAULT_CONFIG).1.1 = Return built)
    by (vm_compute; reflexivity).
  assert (H2 : (__init__ env networks (Some []) {[ "learning_epochs" := PyInt 3 ]}
                  PPO_DEFAULT_CONFIG).2 = built_calls)
    by (vm_compute; reflexivity).
  pose proof (__init___state env networks (Some []) {[ "learning_epochs" := PyInt 3 ]}
                PPO_DEFAULT_CONFIG) as H3.
  destruct (__init__ env networks (Some []) {[ "learning_epochs" := PyInt 3 ]}
              PPO_DEFAULT_CONFIG) as [[o g'] calls].
  simpl in H1, H2, H3. subst. reflexivity.
Qed.

Lemma four_interactions :
  post_interactions [0; 1; 2; 3] 100 (agent 2 1 0 0) =
    (Return tt, set_rollout (agent 2 1 2 2) 4,
     (_update 3 100 (agent 2 1 0 0)).2).
Proof.
  simpl. unfold bind. rewrite !post_interaction_eq. simpl.
  rewrite post_interaction_eq. simpl.
  match goal with |- context [_update 3 100 ?s] =>
    change s with (set_rollout (agent 2 1 0 0) 4)
  end.
  rewrite _update_set_rollout, update_stops_at_1_at. simpl.
  reflexivity.
Qed.

Lemma update_runs_every_epoch_witness :
  memory (agent 2 0 0 0) = Some [] /\
  unpack (sampled_by (agent 2 0 0 0) []) = Some sampled_batch /\
  _kl_threshold (agent 2 0 0 0) = 0%R /\
  0 < _learning_epochs (agent 2 0 0 0) /\
  (_update 7 100 (agent 2 0 0 0)).1.1 = Return tt /\
  Z.of_nat (optimizer_steps the_policy (_update 7 100 (agent 2 0 0 0)).2) = 2 /\
  Z.of_nat (optimizer_steps the_value (_update 7 100 (agent 2 0 0 0)).2) = 2.
Proof.
  assert (H4 : 0 < _learning_epochs (agent 2 0 0 0)) by (simpl; lia).
  split; [reflexivity|]. split; [reflexivity|]. split; [reflexivity|].
  split; [exact H4|].
  destruct (update_runs_every_epoch (agent 2 0 0 0) [] sampled_batch 7 100
              eq_refl eq_refl eq_refl H4) as (Hret & Hp & Hv & _).
  split; [exact Hret|]. split; [exact Hp|exact Hv].
Defined.

Lemma update_with_no_epoch_witness :
  (_learning_epochs (agent 0 1 0 0) = 0 /\
   _update 7 100 (agent 0 1 0 0) =
     (Raise ZeroDivisionError, before_epochs (agent 0 1 0 0) [],
      update_prefix (agent 0 1 0 0))) /\
  (_learning_epochs (agent (-1) 1 0 0) < 0 /\
   scalars (_update 7 100 (agent (-1) 1 0 0)).2 =
     [("Loss/policy", 0%R, 7); ("Loss/value", 0%R, 7)] ++
     (if nonzero (_entropy_loss_scale (agent (-1) 1 0 0))
      then [("Loss/entropy", 0%R, 7)] else [])).
Proof.
  assert (Hneg : _learning_epochs (agent (-1) 1 0 0) < 0) by (simpl; lia).
  split.
  - split; [reflexivity|].
    exact (proj1 (update_with_no_epoch (agent 0 1 0 0) [] sampled_batch 7 100
                    eq_refl eq_refl) eq_refl).
  - split; [exact Hneg|].
    exact (proj2 (proj2 (update_with_no_epoch (agent (-1) 1 0 0) [] sampled_batch 7 100
                           eq_refl eq_refl) Hneg)).
Defined.

Lemma update_reports_at_the_end_witness :
  ((_update 7 100 (agent 2 1 0 0)).1.1 = Return tt /\
   map (fun x => (x.1.1, x.2)) (scalars (_update 7 100 (agent 2 1 0 0)).2) =
     [("Loss/policy", 7); ("Loss/value", 7)] ++
     (if nonzero (_entropy_loss_scale (agent 2 1 0 0)) then [("Loss/entropy", 7)] else [])) /\
  ((_update 7 100 (agent 0 1 0 0)).1.1 <> Return tt /\
   scalars (_update 7 100 (agent 0 1 0 0)).2 = []).
Proof.
  assert (H1 : (_update 7 100 (agent 2 1 0 0)).1.1 = Return tt)
    by (rewrite update_stops_at_1_at; reflexivity).
  assert (H2 : (_update 7 100 (agent 0 1 0 0)).1.1 <> Return tt)
    by (rewrite update_without_epochs_at; discriminate).
  split.
  - split; [exact H1|].
    exact (proj1 (update_reports_at_the_end (agent 2 1 0 0) 7 100) H1).
  - split; [exact H2|].
    exact (proj2 (update_reports_at_the_end (agent 0 1 0 0) 7 100) H2).
Defined.

Lemma post_interaction_without_rollouts_witness :
  _rollouts agent_without_rollouts = 0 /\
  post_interaction 0 100 agent_without_rollouts =
    (Raise ZeroDivisionError, set_rollout agent_without_rollouts 1, []).
Proof.
  split; [reflexivity|].
  exact (post_interaction_without_rollouts agent_without_rollouts 0 100 eq_refl).
Defined.

Lemma updates_every_rollouts_witness :
  post_interactions [0; 1; 2; 3] 100 (agent 2 1 0 0) =
    (Return tt, set_rollout (agent 2 1 2 2) 4, (_update 3 100 (agent 2 1 0 0)).2) /\
  0 < _rollouts (agent 2 1 0 0) /\
  Forall (fun t => _learning_starts (agent 2 1 0 0) <= t) [0; 1; 2; 3] /\
  _rollout (set_rollout (agent 2 1 2 2) 4) = 4 /\
  Z.of_nat (count is_compute_functions (_update 3 100 (agent 2 1 0 0)).2) = 1.
Proof.
  assert (HR : 0 < _rollouts (agent 2 1 0 0)) by (simpl; lia).
  assert (Hall : Forall (fun t => _learning_starts (agent 2 1 0 0) <= t) [0; 1; 2; 3])
    by (repeat constructor; simpl; lia).
  split; [exact four_interactions|]. split; [exact HR|]. split; [exact Hall|].
  exact (updates_every_rollouts [0; 1; 2; 3] (agent 2 1 0 0) 100 _ _
           four_interactions HR Hall).
Defined.

Lemma no_update_before_learning_starts_witness :
  _rollouts built <> 0 /\
  Forall (fun t => t < _learning_starts built) [0; 1; 2] /\
  post_interactions [0; 1; 2] 100 built = (Return tt, set_rollout built 3, []).
Proof.
  assert (HR : _rollouts built <> 0) by (simpl; lia).
  assert (Hall : Forall (fun t => t < _learning_starts built) [0; 1; 2])
    by (repeat constructor; simpl; lia).
  split; [exact HR|]. split; [exact Hall|].
  exact (no_update_before_learning_starts [0; 1; 2] built 100 HR Hall).
Defined.

Lemma act_touches_only_the_policy_witness :
  (act [0%R] false None None (agent 2 1 0 0)).1.1 = Raise TypeError /\
  (act [0%R] false None None (agent 2 1 0 0)).1.2 = agent 2 1 0 0 /\
  (act [0%R] false None None (agent 2 1 0 0)).2 = [].
Proof.
  destruct (act_touches_only_the_policy (agent 2 1 0 0) [0%R] false None None)
    as (_ & _ & Hraise).
  destruct (Hraise TypeError eq_refl) as (_ & _ & Hs & Hc).
  split; [reflexivity|]. split; [exact Hs|exact Hc].
Defined.

Lemma construction_prepares_optimizers_and_memory_witness :
  __init__ env networks (Some []) {[ "learning_epochs" := PyInt 3 ]} PPO_DEFAULT_CONFIG =
    (Return built, {[ "learning_epochs" := PyInt 3 ]} ∪ PPO_DEFAULT_CONFIG, built_calls) /\
  optimizers_of built_calls = [(the_policy, (1 / 1000)%R); (the_value, (1 / 1000)%R)] /\
  map fst (created_tensors_of built_calls) = tensors_names built.
Proof.
  split; [exact construction_of_built|].
  destruct (construction_prepares_optimizers_and_memory _ _ _ _ _ _ _ _
              construction_of_built) as (Hopt & _ & _ & _ & _ & Hnames & _).
  split; [exact Hopt|exact Hnames].
Defined.

Lemma batch_fields_follow_the_names_witness :
  __init__ env networks (Some []) {[ "learning_epochs" := PyInt 3 ]} PPO_DEFAULT_CONFIG =
    (Return built, {[ "learning_epochs" := PyInt 3 ]} ∪ PPO_DEFAULT_CONFIG, built_calls) /\
  unpack (map (fun name : string => [IZR (Z.of_nat (String.length name))])
            (tensors_names built)) =
    Some {| sampled_states := [6%R]; sampled_actions := [7%R];
            sampled_log_prob := [8%R]; sampled_values := [6%R];
            sampled_returns := [7%R]; sampled_advantages := [10%R] |}.
Proof.
  split; [exact construction_of_built|].
  exact (batch_fields_follow_the_names _ _ _ _ _ _ _ _
           (fun name => [IZR (Z.of_nat (String.length name))]) construction_of_built).
Defined.

Lemma construction_needs_a_memory_witness :
  __init__ env networks (Some []) {[ "learning_epochs" := PyInt 3 ]} PPO_DEFAULT_CONFIG =
    (Return built, {[ "learning_epochs" := PyInt 3 ]} ∪ PPO_DEFAULT_CONFIG, built_calls) /\
  __init__ env networks None {[ "learning_epochs" := PyInt 3 ]} PPO_DEFAULT_CONFIG =
    (Raise AttributeError, {[ "learning_epochs" := PyInt 3 ]} ∪ PPO_DEFAULT_CONFIG,
     [Call_super_init; Call_Adam the_policy (1 / 1000); Call_Adam the_value (1 / 1000)]).
Proof.
  split; [exact construction_of_built|].
  exact (proj2 (construction_needs_a_memory env networks
                  {[ "learning_epochs" := PyInt 3 ]} PPO_DEFAULT_CONFIG)
           _ _ _ _ construction_of_built).
Defined.

Lemma construction_with_the_defaults_witness :
  networks !! "policy" = Some 0%R /\ networks !! "value" = Some 0%R /\
  exists self calls,
    __init__ env networks (Some []) ∅ PPO_DEFAULT_CONFIG =
      (Return self, PPO_DEFAULT_CONFIG, calls) /\
    config self = default_configuration.
Proof.
  assert (Hp : networks !! "policy" = Some 0%R) by reflexivity.
  assert (Hv : networks !! "value" = Some 0%R) by reflexivity.
  split; [exact Hp|]. split; [exact Hv|].
  destruct (construction_with_the_defaults env networks [] 0%R 0%R Hp Hv)
    as (self & calls & Hrun & Hcfg & _).
  exists self, calls. split; [exact Hrun|exact Hcfg].
Defined.

Lemma cfg_overrides_key_by_key_witness :
  __init__ env networks (Some []) {[ "learning_epochs" := PyInt 3 ]} PPO_DEFAULT_CONFIG =
    (Return built, {[ "learning_epochs" := PyInt 3 ]} ∪ PPO_DEFAULT_CONFIG, built_calls) /\
  effective {[ "learning_epochs" := PyInt 3 ]} PPO_DEFAULT_CONFIG "learning_epochs"
    ≫= as_int = Some 3 /\
  effective {[ "learning_epochs" := PyInt 3 ]} PPO_DEFAULT_CONFIG "rollouts"
    ≫= as_int = Some 16.
Proof.
  split; [exact construction_of_built|].
  destruct (cfg_overrides_key_by_key _ _ _ _ _ _ _ _ construction_of_built)
    as (He & Hr & _).
  split; [exact He|exact Hr].
Defined.

Lemma policy_loss_inside_the_clip_range_witness :
  (0 <= 2 / 10)%R /\
  length (sampled_advantages sampled_batch) = length (sampled_log_prob sampled_batch) /\
  policy_loss_of (2 / 10) (sampled_log_prob sampled_batch) sampled_batch =
    (- torch.mean (sampled_advantages sampled_batch))%R.
Proof.
  assert (H1 : (0 <= 2 / 10)%R) by lra.
  split; [exact H1|]. split; [reflexivity|].
  exact (proj2 (policy_loss_inside_the_clip_range (2 / 10) [0%R] sampled_batch)
           H1 eq_refl).
Defined.

Lemma value_loss_is_nonnegative_witness :
  (0 <= _value_loss_scale (agent 2 1 0 0))%R /\
  (0 <= value_loss_of (agent 2 1 0 0) [1%R] sampled_batch)%R.
Proof.
  assert (H1 : (0 <= _value_loss_scale (agent 2 1 0 0))%R) by (simpl; lra).
  split; [exact H1|].
  exact (proj1 (value_loss_is_nonnegative (agent 2 1 0 0) [1%R] sampled_batch) H1).
Defined.


End DummyRuns.

(** ** Runs on the collaborators that keep their history *)

Section TracedRuns.
Import Traced.

Lemma traced_value_loss :
  scaled_value_loss Traced.agent [2%R] Traced.sampled_batch = (9 / 2)%R.
Proof.
  unfold scaled_value_loss, mean_squared_error, average, clipped_prediction,
    torch.clip1. simpl.
  rewrite (Rmax_left (2 - 1) (- (1 / 2))) by lra.
  rewrite (Rmin_right (2 - 1) (1 / 2)) by lra. lra.
Qed.

Lemma traced_policy_loss :
  clipped_surrogate_loss (2 / 10) [0%R] Traced.sampled_batch = (-1)%R.
Proof.
  unfold clipped_surrogate_loss, average. simpl.
  replace (0 - 0)%R with 0%R by lra. rewrite exp_0.
  unfold surrogate_term, torch.clip1.
  rewrite (Rmax_left 1 (1 - 2 / 10)) by lra.
  rewrite (Rmin_left 1 (1 + 2 / 10)) by lra.
  rewrite (Rmin_left (1 * 1) (1 * 1)) by lra. lra.
Qed.

Lemma value_loss_and_its_step_witness :
  ~ kl_stop Traced.agent Traced.sampled_batch /\
  exists cum' self' calls,
    learning_epoch Traced.sampled_batch 0 zero_losses Traced.agent =
      (Return (loop_continue, cum'), self', calls) /\
    cumulative_value_loss cum' = (0 + 9 / 2)%R /\
    value self' =
      [Evaluated; Zeroed "value optimizer"; Differentiated (9 / 2);
       Stepped "value optimizer"] /\
    value_optimizer self' = ("value optimizer"%string, 1%nat) /\
    policy self' =
      [Evaluated; Zeroed "policy optimizer"; Differentiated (-1 + 0);
       Stepped "policy optimizer"] /\
    policy_optimizer self' = ("policy optimizer"%string, 1%nat).
Proof.
  assert (Hns : ~ kl_stop Traced.agent Traced.sampled_batch).
  { intros [Hthr _]. apply Hthr. reflexivity. }
  split; [exact Hns|].
  destruct (proj2 (proj2 (value_loss_and_its_step Traced.agent Traced.sampled_batch 0
                            zero_losses)) Hns)
    as (cum' & self' & before & Hrun & _ & _ & Hsum & Hv & Hvo & Hp & Hpo & _).
  exists cum', self'. eexists. split; [exact Hrun|].
  assert (Hentropy : entropy_loss_of (set_policy Traced.agent [Evaluated]) = 0%R).
  { unfold entropy_loss_of.
    change (nonzero (_entropy_loss_scale (set_policy Traced.agent [Evaluated])))
      with (nonzero 0).
    rewrite nonzero_0. reflexivity. }
  change (cumulative_value_loss cum' =
          (0 + scaled_value_loss Traced.agent [2%R] Traced.sampled_batch)%R) in Hsum.
  change (value self' =
          [Evaluated; Zeroed "value optimizer";
           Differentiated (scaled_value_loss Traced.agent [2%R] Traced.sampled_batch);
           Stepped "value optimizer"]) in Hv.
  change (value_optimizer self' = ("value optimizer"%string, 1%nat)) in Hvo.
  change (policy self' =
          [Evaluated; Zeroed "policy optimizer";
           Differentiated
             (clipped_surrogate_loss (2 / 10) [0%R] Traced.sampled_batch +
              entropy_loss_of (set_policy Traced.agent [Evaluated]));
           Stepped "policy optimizer"]) in Hp.
  change (policy_optimizer self' = ("policy optimizer"%string, 1%nat)) in Hpo.
  rewrite traced_value_loss in Hsum, Hv.
  rewrite traced_policy_loss, Hentropy in Hp.
  repeat split; assumption.
Defined.

Lemma update_failures_witness :
  (_update 7 100 (set_memory Traced.agent None)).1.1 = Raise AttributeError /\
  length (sampled_by Traced.agent tt) <> 8%nat /\
  (_update 7 100 Traced.agent).1.1 = Raise ValueError /\
  value (_update 7 100 Traced.agent).1.2 = [Evaluated] /\
  (_update 7 100 Traced.agent).2 =
    [Call_act the_value (Some [0%R]) None true;
     Call_compute_functions "returns" "advantages" [2%R]
       (hyperparameters_of Traced.agent);
     Call_sample_all (tensors_names Traced.agent)].
Proof.
  destruct (update_failures (set_memory Traced.agent None) 7 100) as [Hnone _].
  destruct (update_failures Traced.agent 7 100) as [_ Hbad].
  assert (Hlen : length (sampled_by Traced.agent tt) <> 8%nat) by discriminate.
  rewrite (Hnone eq_refl), (Hbad tt eq_refl Hlen).
  repeat split. exact Hlen.
Defined.

End TracedRuns.

(** * Properties of the environment loader *)

Section LoaderProperties.
Import bidexhands_envs.
Context `{System}.

(** *** [_print_cfg] *)

Lemma value_induction (P : value -> Prop) :
  (forall text, P (Leaf text)) ->
  (forall items, Forall (fun item => P item.2) items -> P (Dict items)) ->
  forall v, P v.
Proof.
  intros Hleaf Hdict. fix IH 1. intros [text|items].
  - apply Hleaf.
  - apply Hdict. induction items as [|[k x] items IHitems]; constructor.
    + apply IH.
    + apply IHitems.
Qed.

Lemma print_item_dict indent key items :
  print_item indent key (Dict items) = _print_cfg items (indent + 1).
Proof.
  unfold _print_cfg. simpl.
  induction items as [|[k x] items IH]; simpl; [reflexivity|].
  rewrite IH. reflexivity.
Qed.

Lemma leaves_dict items : leaves (Dict items) = leaves_of items.
Proof.
  unfold leaves_of. simpl.
  induction items as [|[k x] items IH]; simpl; [reflexivity|].
  rewrite IH. reflexivity.
Qed.

Lemma print_item_length v : forall indent key,
  length (print_item indent key v) = leaves v.
Proof.
  induction v as [text|items IH] using value_induction; intros indent key.
  - reflexivity.
  - rewrite print_item_dict, leaves_dict. unfold _print_cfg, leaves_of.
    induction IH as [|[k x] items Hx _ IHitems]; simpl; [reflexivity|].
    rewrite length_app, Hx, IHitems. reflexivity.
Qed.

(** X22.  [_print_cfg] prints one line per value that is not a dictionary,
    at any depth, in the order of the items; the key of a nested dictionary
    is never printed: the dictionary is replaced by the lines of its own
    items, one level deeper. *)
Theorem print_cfg_prints_the_leaves (d d' : list (string * value)) indent key :
  length (_print_cfg d indent) = leaves_of d /\
  _print_cfg (d ++ d') indent = _print_cfg d indent ++ _print_cfg d' indent /\
  _print_cfg ((key, Dict d') :: d) indent =
    _print_cfg d' (indent + 1) ++ _print_cfg d indent.
Proof.
  split; [|split].
  - unfold _print_cfg, leaves_of.
    induction d as [|[k x] d IH]; simpl; [reflexivity|].
    rewrite length_app, print_item_length, IH. reflexivity.
  - unfold _print_cfg. apply flat_map_app.
  - change (_print_cfg ((key, Dict d') :: d) indent)
      with (print_item indent key (Dict d') ++ _print_cfg d indent).
    rewrite print_item_dict. reflexivity.
Qed.

Lemma append_assoc (a b c : string) : (a +:+ b) +:+ c = a +:+ b +:+ c.
Proof.
  induction a as [|x a IH]; [reflexivity|].
  change (String x ((a +:+ b) +:+ c) = String x (a +:+ b +:+ c)).
  rewrite IH. reflexivity.
Qed.

Lemma print_item_deeper v : forall indent key,
  0 <= indent ->
  print_item (indent + 1) key v =
    map (fun line => "  |   " +:+ line) (print_item indent key v).
Proof.
  induction v as [text|items IH] using value_induction; intros indent key Hpos.
  - simpl. replace (Z.to_nat (indent + 1)) with (S (Z.to_nat indent)) by lia.
    cbn [repeat_string]. rewrite append_assoc. reflexivity.
  - rewrite !print_item_dict. unfold _print_cfg.
    induction IH as [|[k x] items Hx _ IHitems]; simpl; [reflexivity|].
    rewrite map_app, <- IHitems, <- Hx by lia. reflexivity.
Qed.

(** X23.  Printing one level deeper only indents: from a non-negative
    indentation, the lines at [indent + 1] are the lines at [indent], each
    behind one more "  |   ". *)
Theorem print_cfg_indents (d : list (string * value)) indent :
  0 <= indent ->
  _print_cfg d (indent + 1) = map (fun line => "  |   " +:+ line) (_print_cfg d indent).
Proof.
  intros Hpos. unfold _print_cfg.
  induction d as [|[k x] d IH]; simpl; [reflexivity|].
  rewrite map_app, <- IH, print_item_deeper by exact Hpos. reflexivity.
Qed.

(** *** The arguments *)

Lemma prefix_refl (p : string) : String.prefix p p = true.
Proof.
  induction p as [|a p IH]; simpl; [reflexivity|].
  destruct (Ascii.ascii_dec a a); [exact IH | congruence].
Qed.

Lemma arg_exists_orb p l argv :
  arg_exists p l argv = existsb (String.prefix p) l || existsb (String.prefix p) argv.
Proof. unfold arg_exists. apply existsb_app. Qed.

Lemma arg_exists_app p l x argv :
  arg_exists p l argv = true -> arg_exists p (l ++ x) argv = true.
Proof.
  rewrite !arg_exists_orb, existsb_app.
  destruct (existsb _ l), (existsb _ argv); simpl; intros; try reflexivity; try discriminate.
  apply orb_true_r.
Qed.

Lemma arg_exists_added p l x argv : In p x -> arg_exists p (l ++ x) argv = true.
Proof.
  intros Hin. unfold arg_exists. apply existsb_exists. exists p. split.
  - apply in_or_app. left. apply in_or_app. right. exact Hin.
  - apply prefix_refl.
Qed.

Lemma arg_exists_moved p l argv :
  arg_exists p [] (argv ++ l) = arg_exists p l argv.
Proof. rewrite !arg_exists_orb, existsb_app. simpl. apply orb_comm. Qed.

Lemma nonempty_spec s : nonempty s = true <-> s <> "".
Proof.
  unfold nonempty. destruct (String.eqb_spec s ""); simpl; split; intros; congruence.
Qed.

Ltac present :=
  first [ assumption
        | solve [apply arg_exists_added; simpl; auto]
        | apply arg_exists_app; present ].

Ltac by_guard Hrun :=
  match type of Hrun with
  | context [arg_exists ?p ?l ?a] => destruct (arg_exists p l a) eqn:?; simpl in Hrun
  end.

Lemma nonempty_false s : nonempty s = false <-> s = "".
Proof.
  unfold nonempty. destruct (String.eqb_spec s ""); simpl; split; intros; congruence.
Qed.

(** The two ways a call ends, and what each leaves behind. *)
Lemma handle_arguments_outcome task_name num_envs headless cli_args task_type w :
  match handle_arguments task_name num_envs headless cli_args task_type w with
  | (Ok l, w') =>
      (arg_exists "--task" cli_args (sys_argv w) = true \/ task_name <> "") /\
      (exists added, l = cli_args ++ added) /\
      (exists warnings,
         w' = {| sys_argv := sys_argv w; sys_path := sys_path w; os := os w;
                 output := output w ++ warnings |}) /\
      arg_exists "--task" l (sys_argv w) = true /\
      (forall n, num_envs = Some n -> 0 < n ->
                 arg_exists "--num_envs" l (sys_argv w) = true) /\
      (forall t, task_type = Some t -> t <> "" ->
                 arg_exists "--task_type" l (sys_argv w) = true) /\
      (forall b, headless = Some b -> arg_exists "--headless" l (sys_argv w) = true)
  | (Raised e, w') =>
      e = ValueError no_task_message /\ w' = w /\
      arg_exists "--task" cli_args (sys_argv w) = false /\ task_name = ""
  end.
Proof.
  destruct (handle_arguments _ _ _ _ _ _) as [[l|e] w'] eqn:Hrun;
    destruct w as [argv path o out];
    unfold handle_arguments, lbind, lret, lraise, emit in Hrun; simpl in *;
    (destruct (nonempty task_name) eqn:Hname,
       num_envs as [n|], task_type as [t|], headless as [b|];
     try destruct (0 <? n) eqn:Hn; try destruct (nonempty t) eqn:Ht;
     simpl in Hrun; repeat by_guard Hrun; try discriminate Hrun;
     injection Hrun as <- <-).
  all: try (apply nonempty_false in Hname; repeat split;
            first [reflexivity | assumption]).
  all: split; [first [left; reflexivity | right; apply nonempty_spec; assumption]|].
  all: split; [eexists; rewrite <- ?app_assoc;
                first [reflexivity | symmetry; apply app_nil_r]|].
  all: split; [eexists; f_equal; rewrite <- ?app_assoc;
                first [reflexivity | symmetry; apply app_nil_r]|].
  all: repeat split; intros;
    repeat match goal with
           | E : Some _ = Some _ |- _ => injection E as <-
           | E : None = Some _ |- _ => discriminate E
           end;
    first [ present
          | apply Z.ltb_ge in Hn; lia
          | match goal with E : _ <> "" |- _ => apply nonempty_spec in E; congruence end ].
Qed.

Lemma handle_arguments_ok task_name num_envs headless cli_args task_type w l w' :
  handle_arguments task_name num_envs headless cli_args task_type w = (Ok l, w') ->
  sys_argv w' = sys_argv w /\
  arg_exists "--task" l (sys_argv w) = true /\
  (forall n, num_envs = Some n -> 0 < n ->
             arg_exists "--num_envs" l (sys_argv w) = true) /\
  (forall t, task_type = Some t -> t <> "" ->
             arg_exists "--task_type" l (sys_argv w) = true) /\
  (forall b, headless = Some b -> arg_exists "--headless" l (sys_argv w) = true).
Proof.
  intros Hrun.
  pose proof (handle_arguments_outcome task_name num_envs headless cli_args task_type w)
    as Hout.
  rewrite Hrun in Hout.
  destruct Hout as (_ & _ & [warnings ->] & Htask & Hnum & Htype & Hheadless).
  repeat split; assumption.
Qed.

(** X24.  Without a task name and without an argument that starts with
    [--task], the loader raises the [ValueError] and leaves [sys.argv],
    [sys.path] and the rest of the process as they were; in every other case
    argument handling returns, and the loader goes on with the arguments it
    built. *)
Theorem task_name_is_required task_name num_envs headless cli_args task_type
    bidexhands_path show_cfg bidexhands w :
  isaacgym_importable = true ->
  bidexhands_module = Some bidexhands ->
  (arg_exists "--task" cli_args (sys_argv w) = false /\ task_name = "" /\
   load_bidexhands_env task_name num_envs headless cli_args task_type
     bidexhands_path show_cfg w = (Raised (ValueError no_task_message), w)) \/
  ((arg_exists "--task" cli_args (sys_argv w) = true \/ task_name <> "") /\
   exists l w',
     handle_arguments task_name num_envs headless cli_args task_type w = (Ok l, w') /\
     load_bidexhands_env task_name num_envs headless cli_args task_type
       bidexhands_path show_cfg w = load_with l bidexhands bidexhands_path show_cfg w').
Proof.
  intros Hgym Hmodule.
  pose proof (handle_arguments_outcome task_name num_envs headless cli_args task_type w)
    as Hout.
  unfold load_bidexhands_env. rewrite Hgym, Hmodule. simpl. unfold lbind.
  destruct (handle_arguments _ _ _ _ _ _) as [[l|e] w'].
  - right. destruct Hout as (Hwhy & _). split; [exact Hwhy|].
    exists l, w'. split; reflexivity.
  - left. destruct Hout as (-> & -> & Hnone & Hname). repeat split; assumption.
Qed.

(** X25.  [--task_type] starts with [--task]: with [--task_type] on the
    command line or in [cli_args] the test for [--task] holds, so that the
    [task_name] parameter is dropped, no [ValueError] is raised when it is
    empty, and the arguments are those of a call without a task name. *)
Theorem task_type_counts_as_task task_name num_envs headless cli_args task_type w :
  In "--task_type" (cli_args ++ sys_argv w) ->
  exists l,
    (handle_arguments task_name num_envs headless cli_args task_type w).1 = Ok l /\
    (handle_arguments "" num_envs headless cli_args task_type w).1 = Ok l.
Proof.
  intros Hin.
  assert (Htask : arg_exists "--task" cli_args (sys_argv w) = true).
  { unfold arg_exists. apply existsb_exists. exists "--task_type".
    split; [exact Hin | reflexivity]. }
  destruct w as [argv path o out].
  unfold handle_arguments, lbind, lret, lraise, emit. simpl in *. rewrite Htask. simpl.
  destruct (nonempty task_name), num_envs as [n|], task_type as [t|], headless as [b|];
    try destruct (0 <? n); try destruct (nonempty t); simpl;
    repeat match goal with
           | |- context [arg_exists ?p ?l ?a] => destruct (arg_exists p l a); simpl
           end;
    eexists; split; reflexivity.
Qed.

(** X26.  After argument handling has returned, [sys.argv] as line 120
    leaves it holds every option the call asked for: an argument that
    starts with [--task], one with [--num_envs] for a positive [num_envs],
    one with [--task_type] for a non-empty [task_type], and one with
    [--headless] whenever [headless] is not [None], [False] included. *)
Theorem requested_options_reach_sys_argv task_name num_envs headless cli_args
    task_type w l w' :
  handle_arguments task_name num_envs headless cli_args task_type w = (Ok l, w') ->
  let argv := sys_argv (extend_argv l w').2 in
  existsb (String.prefix "--task") argv = true /\
  (forall n, num_envs = Some n -> 0 < n ->
             existsb (String.prefix "--num_envs") argv = true) /\
  (forall t, task_type = Some t -> t <> "" ->
             existsb (String.prefix "--task_type") argv = true) /\
  (forall b, headless = Some b -> existsb (String.prefix "--headless") argv = true).
Proof.
  intros Hrun argv.
  destruct (handle_arguments_ok _ _ _ _ _ _ _ _ Hrun)
    as (Hargv & Htask & Hnum & Htype & Hheadless).
  assert (Hmoved : forall p, existsb (String.prefix p) argv = arg_exists p l (sys_argv w)).
  { intros p. unfold argv. simpl. rewrite Hargv.
    rewrite <- arg_exists_moved. reflexivity. }
  rewrite !Hmoved. repeat split; assumption.
Qed.

(** A list of arguments that already holds what the call asks for is
    returned as it is. *)
Lemma handle_arguments_settled task_name num_envs headless c task_type w :
  arg_exists "--task" c (sys_argv w) = true ->
  (forall n, num_envs = Some n -> 0 < n ->
             arg_exists "--num_envs" c (sys_argv w) = true) ->
  (forall t, task_type = Some t -> t <> "" ->
             arg_exists "--task_type" c (sys_argv w) = true) ->
  (forall b, headless = Some b -> arg_exists "--headless" c (sys_argv w) = true) ->
  (handle_arguments task_name num_envs headless c task_type w).1 = Ok c.
Proof.
  intros Htask Hnum Htype Hheadless. destruct w as [argv path o out].
  unfold handle_arguments, lbind, lret, lraise, emit. simpl in *. rewrite Htask. simpl.
  destruct (nonempty task_name), num_envs as [n|], task_type as [t|], headless as [b|];
    try destruct (0 <? n) eqn:Hn; try destruct (nonempty t) eqn:Ht; simpl;
    repeat match goal with
           | |- context [arg_exists ?p ?l ?a] => destruct (arg_exists p l a) eqn:?; simpl
           end;
    try reflexivity; exfalso.
  all: assert (E : false = true);
    [ first [ apply (Hheadless _ eq_refl)
            | apply (Hnum _ eq_refl); apply Z.ltb_lt; assumption
            | apply (Htype _ eq_refl); apply nonempty_spec; assumption ]
    | discriminate E ].
Qed.

(** X27.  Once a call has put its arguments into [sys.argv], a later call
    with the same parameters and no [cli_args] adds nothing: it finds every
    option on the command line, and raises no [ValueError] either. *)
Theorem second_call_adds_nothing task_name num_envs headless cli_args task_type
    w l w1 w2 :
  handle_arguments task_name num_envs headless cli_args task_type w = (Ok l, w1) ->
  sys_argv w2 = sys_argv (extend_argv l w1).2 ->
  (handle_arguments task_name num_envs headless [] task_type w2).1 = Ok [].
Proof.
  intros Hrun Hargv.
  destruct (handle_arguments_ok _ _ _ _ _ _ _ _ Hrun)
    as (Hsame & Htask & Hnum & Htype & Hheadless).
  simpl in Hargv. rewrite Hsame in Hargv.
  apply handle_arguments_settled; rewrite Hargv; intros;
    rewrite arg_exists_moved; eauto.
Qed.

(** *** After the arguments *)

Lemma print_lines_eq lines : forall w,
  print_lines lines w =
    (Ok tt, {| sys_argv := sys_argv w; sys_path := sys_path w; os := os w;
               output := output w ++ map printed lines |}).
Proof.
  induction lines as [|line lines IH]; intros [argv path o out]; simpl.
  - unfold lret. rewrite app_nil_r. reflexivity.
  - unfold lbind, emit. simpl. rewrite IH. simpl. rewrite <- app_assoc. reflexivity.
Qed.

Lemma load_environment_argv args w :
  sys_argv (load_environment args w).2 = sys_argv w.
Proof.
  unfold load_environment, lbind, external, lret. simpl.
  destruct (load_cfg args (os w)) as [[c|e] o1]; simpl; [|reflexivity].
  destruct (get_AgentIndex c.1 o1) as [[a|e] o2]; simpl; [|reflexivity].
  destruct (parse_sim_params args c.1 c.2 o2) as [[p|e] o3]; simpl; [|reflexivity].
  destruct (parse_task args c.1 c.2 p a o3) as [[te|e] o4]; reflexivity.
Qed.

Lemma cwd_argv {A} new_path (block : L A) w :
  (forall w0, sys_argv (block w0).2 = sys_argv w0) ->
  sys_argv (cwd new_path block w).2 = sys_argv w.
Proof.
  intros Hblock. unfold cwd.
  destruct (chdir new_path (os w)) as [o1|]; [|reflexivity].
  destruct (chdir _ (os (block (set_os w o1)).2)) as [o2|]; simpl;
    rewrite Hblock; reflexivity.
Qed.

Ltac after_path show :=
  destruct (import_utils _) as [e|]; [reflexivity|];
  unfold external; simpl;
  destruct (get_args _ _) as [[args|e] o1]; simpl; [|reflexivity];
  destruct show; simpl; [rewrite print_lines_eq; simpl|];
  rewrite cwd_argv by apply load_environment_argv; reflexivity.

(** X28.  [sys.argv] is extended before anything else of lines 120-161 can
    fail: whatever the outcome, the arguments stay in [sys.argv] after the
    call; and when no path is given and the [bidexhands] module has no
    [__path__], this extension is all the call has done before its
    [RuntimeError]. *)
Theorem arguments_stay_in_sys_argv cli_args bidexhands bidexhands_path show_cfg w :
  sys_argv (load_with cli_args bidexhands bidexhands_path show_cfg w).2 =
    sys_argv w ++ cli_args /\
  load_with cli_args None "" show_cfg w =
    (Raised (RuntimeError "bidexhands package is not installed"),
     {| sys_argv := sys_argv w ++ cli_args; sys_path := sys_path w; os := os w;
        output := output w |}).
Proof.
  split; [|reflexivity].
  destruct w as [argv path o out].
  unfold load_with, lbind, extend_argv, append_sys_path, lret, lraise, emit. simpl.
  destruct (nonempty bidexhands_path); simpl; [after_path show_cfg|].
  destruct bidexhands as [[|p rest]|]; simpl; try reflexivity. after_path show_cfg.
Qed.

(** X29.  When the three imports fail under the chosen path (the
    [bidexhands_path] parameter, or else the first entry of the module's
    [__path__]), the loader logs the error and raises the [RuntimeError]
    that names the path; the arguments stay in [sys.argv] and the path stays
    on [sys.path]. *)
Theorem invalid_path_is_a_runtime_error cli_args bidexhands bidexhands_path show_cfg
    w path e :
  (bidexhands_path = path /\ path <> "") \/
  (bidexhands_path = "" /\ exists rest, bidexhands = Some (path :: rest)) ->
  import_utils (sys_path w ++ [path]) = Some e ->
  load_with cli_args bidexhands bidexhands_path show_cfg w =
    (Raised (RuntimeError ("The path (" +:+ path +:+ ") is not valid")),
     {| sys_argv := sys_argv w ++ cli_args; sys_path := sys_path w ++ [path];
        os := os w;
        output := output w ++ [error ("Failed to import required packages: " +:+ e)] |}).
Proof.
  intros Hpath Himport. destruct w as [argv syspath o out]. simpl in *.
  unfold load_with, lbind, extend_argv, append_sys_path, lret, lraise, emit. simpl.
  destruct Hpath as [[-> Hpath] | [-> [rest ->]]].
  - apply nonempty_spec in Hpath. rewrite Hpath. simpl. rewrite Himport. reflexivity.
  - simpl. rewrite Himport. reflexivity.
Qed.

(** *** [cwd] *)

(** X30.  [cwd] changes back however the block ends: where both changes of
    directory succeed, the outcome of the [with] statement is the outcome of
    its block, a value or an exception, everything the block did but to the
    directory is kept, and the process is back in the directory it was in,
    also when the block itself moved elsewhere. *)
Theorem cwd_changes_back {A} new_path (block : L A) w o1 o2 :
  chdir new_path (os w) = Some o1 ->
  chdir (getcwd (os w)) (os (block (set_os w o1)).2) = Some o2 ->
  getcwd o2 = getcwd (os w) ->
  (cwd new_path block w).1 = (block (set_os w o1)).1 /\
  getcwd (os (cwd new_path block w).2) = getcwd (os w) /\
  sys_argv (cwd new_path block w).2 = sys_argv (block (set_os w o1)).2 /\
  sys_path (cwd new_path block w).2 = sys_path (block (set_os w o1)).2 /\
  output (cwd new_path block w).2 = output (block (set_os w o1)).2.
Proof.
  intros Hthere Hback Hsame. unfold cwd. rewrite Hthere. simpl. rewrite Hback. simpl.
  repeat split; try reflexivity. exact Hsame.
Qed.

End LoaderProperties.

(** ** Runs of the loader on the concrete system *)

Section LoaderRuns.
Import bidexhands_envs.

Lemma arguments_of_a_first_call :
  handle_arguments "ShadowHand" (Some 4) (Some false) [] (Some "MultiAgent") start =
    (Ok ["--task"; "ShadowHand"; "--num_envs"; "4"; "--task_type"; "MultiAgent";
         "--headless"], start).
Proof. vm_compute. reflexivity. Qed.

Lemma print_cfg_indents_witness :
  0 <= 0 /\
  _print_cfg [("task", Leaf "ShadowHand"); ("sim", Dict [("dt", Leaf "0.0166")])] (0 + 1) =
    map (fun line => "  |   " +:+ line)
      (_print_cfg [("task", Leaf "ShadowHand"); ("sim", Dict [("dt", Leaf "0.0166")])] 0).
Proof. split; [lia | apply print_cfg_indents; lia]. Defined.

Lemma task_name_is_required_witness :
  load_bidexhands_env "" None None [] (Some "MultiAgent") "" true start =
    (Raised (ValueError no_task_message), start).
Proof.
  destruct (task_name_is_required "" None None [] (Some "MultiAgent") "" true
              (Some ["/opt/bidexhands"]) start eq_refl eq_refl)
    as [(_ & _ & Hload) | ([Hargument | Hname] & _)].
  - exact Hload.
  - discriminate Hargument.
  - exfalso. apply Hname. reflexivity.
Defined.

Lemma task_type_counts_as_task_witness :
  exists l,
    (handle_arguments "ShadowHand" None None ["--task_type"; "MultiAgent"] None start).1 =
      Ok l /\
    (handle_arguments "" None None ["--task_type"; "MultiAgent"] None start).1 = Ok l.
Proof. apply task_type_counts_as_task. simpl. auto. Defined.

Lemma requested_options_reach_sys_argv_witness :
  existsb (String.prefix "--headless")
    ["train.py"; "--task"; "ShadowHand"; "--num_envs"; "4"; "--task_type"; "MultiAgent";
     "--headless"] = true.
Proof.
  destruct (requested_options_reach_sys_argv _ _ _ _ _ _ _ _ arguments_of_a_first_call)
    as (_ & _ & _ & Hheadless).
  exact (Hheadless false eq_refl).
Defined.

Lemma second_call_adds_nothing_witness :
  (handle_arguments "ShadowHand" (Some 4) (Some false) [] (Some "MultiAgent")
     (extend_argv
        ["--task"; "ShadowHand"; "--num_envs"; "4"; "--task_type"; "MultiAgent";
         "--headless"] start).2).1 = Ok [].
Proof.
  exact (second_call_adds_nothing _ _ _ _ _ _ _ _ _ arguments_of_a_first_call eq_refl).
Defined.

Lemma invalid_path_is_a_runtime_error_witness :
  load_with ["--task"; "ShadowHand"] (Some ["/opt/bidexhands"]) "/wrong" true start =
    (Raised (RuntimeError "The path (/wrong) is not valid"),
     {| sys_argv := ["train.py"; "--task"; "ShadowHand"]; sys_path := ["/wrong"];
        os := "/home/user";
        output := [error "Failed to import required packages: No module named 'utils'"] |}).
Proof.
  apply (invalid_path_is_a_runtime_error ["--task"; "ShadowHand"]
           (Some ["/opt/bidexhands"]) "/wrong" true start "/wrong" "No module named 'utils'").
  - left. split; [reflexivity | discriminate].
  - reflexivity.
Defined.

Lemma cwd_changes_back_witness :
  (cwd (A := unit) "/opt/bidexhands"
     (external (H := simple) (fun o : string => (Raised (Upstream o), "/tmp"))) start).1 =
    Raised (Upstream "/opt/bidexhands") /\
  getcwd (os (cwd (A := unit) "/opt/bidexhands"
                (external (H := simple) (fun o : string => (Raised (Upstream o), "/tmp"))) start).2) =
    "/home/user".
Proof.
  destruct (cwd_changes_back (A := unit) "/opt/bidexhands"
              (external (H := simple) (fun o : string => (Raised (Upstream o), "/tmp"))) start
              "/opt/bidexhands" "/home/user" eq_refl eq_refl eq_refl)
    as (Houtcome & Hdirectory & _).
  split; [exact Houtcome | exact Hdirectory].
Defined.

End LoaderRuns.
